(** * Data layer of the appointment-scheduling client

    A shallow embedding of three services of the application:

    - [storageService]      (src/services/storage.ts): key-value store over
      AsyncStorage with an in-memory TTL cache, collection wrappers and
      backup/restore;
    - [statisticsService]   (statistics.ts): aggregation over appointments;
    - [notificationService] (notificationService.ts): notification CRUD.

    Asynchronous functions become computations in a state-and-exception
    monad over a [World]: the module-level cache, the contents of
    AsyncStorage, the clock read by [Date.now()], the console, and a
    schedule saying which of the coming AsyncStorage calls reject. *)

From Stdlib Require Import ZArith String Ascii List Bool Lia.
From Stdlib Require Import Sorting.Sorted.
From Stdlib Require Import Floats.PrimFloat Numbers.Cyclic.Int63.Uint63.
From stdpp Require Import base option list gmap strings pretty.

Set Warnings "-register-all".
Local Open Scope string_scope.
Local Open Scope Z_scope.

(** ** JavaScript values

    What [JSON.parse] can produce. Numbers are restricted to integers;
    [undefined] is not a value of this type and appears as [None] in an
    [option value]. *)

Inductive value : Type :=
  | VNull
  | VBool (b : bool)
  | VNum (n : Z)
  | VStr (s : string)
  | VArr (items : list value)
  | VObj (fields : list (string * value)).

(** ToBoolean: [null], [false], [0] and the empty string are falsy; every array and
    object is truthy. *)
Definition truthy (v : value) : bool :=
  match v with
  | VNull => false
  | VBool b => b
  | VNum n => negb (Z.eqb n 0)
  | VStr s => negb (String.eqb s EmptyString)
  | VArr _ | VObj _ => true
  end.

(** ToBoolean of a possibly [undefined] value. *)
Definition truthy_opt (o : option value) : bool :=
  match o with
  | Some v => truthy v
  | None => false
  end.

(** [o || d] where [d] is truthy-agnostic: the left operand when it is
    truthy, else the right one. *)
Definition or_else (o : option value) (d : value) : value :=
  match o with
  | Some v => if truthy v then v else d
  | None => d
  end.

Fixpoint assoc (k : string) (fields : list (string * value)) : option value :=
  match fields with
  | [] => None
  | (k', v) :: rest => if String.eqb k k' then Some v else assoc k rest
  end.

(** Structural equality on values, as a boolean. *)
Fixpoint value_eqb (a b : value) {struct a} : bool :=
  match a, b with
  | VNull, VNull => true
  | VBool x, VBool y => Bool.eqb x y
  | VNum x, VNum y => Z.eqb x y
  | VStr x, VStr y => String.eqb x y
  | VArr xs, VArr ys =>
      (fix go (xs ys : list value) {struct xs} : bool :=
         match xs, ys with
         | [], [] => true
         | x :: xs', y :: ys' => value_eqb x y && go xs' ys'
         | _, _ => false
         end) xs ys
  | VObj xs, VObj ys =>
      (fix go (xs ys : list (string * value)) {struct xs} : bool :=
         match xs, ys with
         | [], [] => true
         | (k, x) :: xs', (k', y) :: ys' =>
             String.eqb k k' && value_eqb x y && go xs' ys'
         | _, _ => false
         end) xs ys
  | _, _ => false
  end.

(** Number of elements of [l] structurally equal to [x]. *)
Definition occurrences (x : value) (l : list value) : nat :=
  length (filter (fun y => value_eqb x y = true) l).

(** ** The world and the monad of asynchronous code *)

(** [CacheItem<any>] of storage.ts; [expiry = None] is [undefined]. *)
Record CacheItem : Type := mkCacheItem {
  data : value;
  timestamp : Z;
  expiry : option Z
}.

Record World : Type := mkWorld {
  cache : gmap string CacheItem;   (* the module-level [cache] Map *)
  disk : gmap string string;       (* what AsyncStorage holds *)
  clock : Z;                       (* what [Date.now()] returns *)
  faults : list bool;              (* [true]: the next AsyncStorage call rejects *)
  console : list string            (* lines written by console.error / warn *)
}.

Definition with_cache (c : gmap string CacheItem) (w : World) : World :=
  mkWorld c (disk w) (clock w) (faults w) (console w).
Definition with_disk (d : gmap string string) (w : World) : World :=
  mkWorld (cache w) d (clock w) (faults w) (console w).
Definition with_clock (t : Z) (w : World) : World :=
  mkWorld (cache w) (disk w) t (faults w) (console w).
Definition with_faults (f : list bool) (w : World) : World :=
  mkWorld (cache w) (disk w) (clock w) f (console w).
Definition with_console (c : list string) (w : World) : World :=
  mkWorld (cache w) (disk w) (clock w) (faults w) c.

(** What a [throw] carries. *)
Inductive error : Type :=
  | IOError        (* AsyncStorage rejected *)
  | SyntaxError    (* JSON.parse failed *)
  | TypeError.     (* property of null, non-iterable spread, ... *)

Inductive result (A : Type) : Type :=
  | Ok (a : A)
  | Throw (e : error).
Arguments Ok {A} a.
Arguments Throw {A} e.

(** A promise-returning function: runs on a world, resolves or rejects, and
    leaves a world behind in both cases. *)
Definition M (A : Type) : Type := World -> result A * World.

Definition ret {A} (a : A) : M A := fun w => (Ok a, w).
Definition throw {A} (e : error) : M A := fun w => (Throw e, w).
Definition bind {A B} (m : M A) (k : A -> M B) : M B :=
  fun w => match m w with
           | (Ok a, w') => k a w'
           | (Throw e, w') => (Throw e, w')
           end.
Definition try_catch {A} (body : M A) (handler : error -> M A) : M A :=
  fun w => match body w with
           | (Ok a, w') => (Ok a, w')
           | (Throw e, w') => handler e w'
           end.

Declare Scope js_scope.
Delimit Scope js_scope with js.
Notation "x <- c1 ;; c2" := (bind c1 (fun x => c2))
  (at level 100, c1 at next level, c2 at level 200, right associativity) : js_scope.
Notation "c1 ;; c2" := (bind c1 (fun _ => c2))
  (at level 100, c2 at level 200, right associativity) : js_scope.
Local Open Scope js_scope.

Definition modify (f : World -> World) : M unit := fun w => (Ok tt, f w).
Definition gets {A} (f : World -> A) : M A := fun w => (Ok (f w), w).

Definition Date_now : M Z := gets clock.

Definition console_error (msg : string) : M unit :=
  modify (fun w => with_console (console w ++ [msg]) w).
Definition console_warn (msg : string) : M unit :=
  modify (fun w => with_console (console w ++ [msg]) w).

(** Time passing between two calls. *)
Definition advance (d : Z) (w : World) : World := with_clock (clock w + d) w.

(** *** AsyncStorage

    Each call consumes one entry of the fault schedule; an exhausted
    schedule means the medium works from then on. A rejected call leaves
    the stored items as they were. *)
Definition io : M unit :=
  fun w => match faults w with
           | [] => (Ok tt, w)
           | false :: rest => (Ok tt, with_faults rest w)
           | true :: rest => (Throw IOError, with_faults rest w)
           end.

Definition AsyncStorage_getItem (key : string) : M (option string) :=
  io ;; gets (fun w => disk w !! key).
Definition AsyncStorage_setItem (key : string) (v : string) : M unit :=
  io ;; modify (fun w => with_disk (<[key := v]> (disk w)) w).
Definition AsyncStorage_removeItem (key : string) : M unit :=
  io ;; modify (fun w => with_disk (delete key (disk w)) w).
Definition AsyncStorage_clear : M unit :=
  io ;; modify (with_disk ∅).
Definition AsyncStorage_getAllKeys : M (list string) :=
  io ;; gets (fun w => map fst (map_to_list (disk w))).

(** A string in a condition: the empty string is falsy. *)
Definition nonempty (s : string) : bool := negb (String.eqb s EmptyString).

(** ** The JavaScript runtime the services call into *)

Class JsRuntime : Type := {
  JSON_parse : string -> option value;    (* [None]: throws SyntaxError *)
  JSON_stringify : value -> string;
  Date_toISOString : Z -> string;         (* new Date(ms).toISOString() *)
  Date_getTime : string -> option Z       (* new Date(s).getTime(); [None] is NaN *)
}.

(** Throwing version of [JSON.parse]. *)
Definition parse_json `{JsRuntime} (s : string) : M value :=
  match JSON_parse s with
  | Some v => ret v
  | None => throw SyntaxError
  end.

(** [v.k] for the field names the services read ([data], [appointments],
    [notifications], [registeredUsers], [settings]): reading a property
    of [null] throws, an object yields its field or [undefined], and
    numbers, booleans, strings and arrays have no such property. *)
Definition get_prop (v : value) (k : string) : M (option value) :=
  match v with
  | VNull => throw TypeError
  | VObj fields => ret (assoc k fields)
  | _ => ret None
  end.

(** Array spread [...v]: arrays and strings are iterable, nothing else is. *)
Definition spread (v : value) : M (list value) :=
  match v with
  | VArr items => ret items
  | VStr s => ret (map (fun c => VStr (String c EmptyString)) (list_ascii_of_string s))
  | _ => throw TypeError
  end.

(** Array methods ([v.map], [v.filter], [v.push]): only an array has
    them; on anything else the call throws. *)
Definition as_array (v : value) : M (list value) :=
  match v with
  | VArr items => ret items
  | _ => throw TypeError
  end.

(** [o === s] for a string [s]. *)
Definition strict_equals_string (o : option value) (s : string) : bool :=
  match o with
  | Some (VStr t) => String.eqb t s
  | _ => false
  end.

(** [l.map(f)] and [l.filter(p)] with callbacks that may throw. *)
Fixpoint map_js {A B} (f : A -> M B) (l : list A) : M (list B) :=
  match l with
  | [] => ret []
  | x :: rest => y <- f x ;; ys <- map_js f rest ;; ret (y :: ys)
  end.

Fixpoint filter_js {A} (p : A -> M bool) (l : list A) : M (list A) :=
  match l with
  | [] => ret []
  | x :: rest =>
      keep <- p x ;; kept <- filter_js p rest ;;
      ret (if keep then x :: kept else kept)
  end.

(** [obj[k] = v]: an existing key keeps its place and takes the new
    value, a new key goes last. *)
Fixpoint put_field (k : string) (v : value) (fields : list (string * value))
  : list (string * value) :=
  match fields with
  | [] => [(k, v)]
  | (k', v') :: rest =>
      if String.eqb k k' then (k, v) :: rest else (k', v') :: put_field k v rest
  end.

(** [{ ...base, ...patch }] on field lists. (JavaScript enumerates keys
    that look like array indices first; the objects of the services have
    none.) *)
Definition merge_fields (base patch : list (string * value)) : list (string * value) :=
  fold_left (fun acc kv => put_field (fst kv) (snd kv) acc) patch base.

(** The own enumerable properties [...v] copies into an object literal:
    the fields of an object, the indexed elements of an array or string,
    nothing for null, numbers and booleans. *)
Definition own_fields (v : value) : list (string * value) :=
  match v with
  | VObj fields => fields
  | VArr items => imap (fun i x => (pretty i, x)) items
  | VStr s => imap (fun i c => (pretty i, VStr (String c EmptyString)))
                   (list_ascii_of_string s)
  | _ => []
  end.

(** [obj[k] = n] on a plain object, for a number [n]: the prototype
    setter ignores a number, so the key [__proto__] gets no own
    property. *)
Definition assign_number (k : string) (n : Z) (obj : gmap string Z) : gmap string Z :=
  if String.eqb k "__proto__" then obj else <[k := n]> obj.

(** What getStorageInfo resolves with. *)
Record StorageInfo : Type := mkStorageInfo {
  cacheSize : nat;
  totalKeys : nat;
  lastAccess : gmap string Z
}.

(** ** storageService (src/services/storage.ts) *)

Module STORAGE_KEYS.
Definition USER : string := "@MedicalApp:user".
Definition TOKEN : string := "@MedicalApp:token".
Definition APPOINTMENTS : string := "@MedicalApp:appointments".
Definition NOTIFICATIONS : string := "@MedicalApp:notifications".
Definition REGISTERED_USERS : string := "@MedicalApp:registeredUsers".
Definition APP_SETTINGS : string := "@MedicalApp:settings".
Definition STATISTICS_CACHE : string := "@MedicalApp:statisticsCache".
End STORAGE_KEYS.

(** [expiryMinutes ? Date.now() + expiryMinutes * 60 * 1000 : undefined] *)
Definition expiry_of (now : Z) (expiryMinutes : option Z) : option Z :=
  match expiryMinutes with
  | Some m => if Z.eqb m 0 then None else Some (now + m * 60 * 1000)
  | None => None
  end.

(** [!cached.expiry || cached.expiry > Date.now()] *)
Definition cache_valid (c : CacheItem) (now : Z) : bool :=
  match expiry c with
  | None => true
  | Some e => Z.eqb e 0 || (now <? e)
  end.

Module storageService.
Section WithRuntime.
Context `{JsRuntime}.

Definition setItem (key : string) (v : value) (expiryMinutes : option Z) : M unit :=
    try_catch
      (let serializedValue := JSON_stringify v in
       AsyncStorage_setItem key serializedValue ;;
       stamp <- Date_now ;;
       now <- Date_now ;;
       let cacheItem := {| data := v; timestamp := stamp;
                           expiry := expiry_of now expiryMinutes |} in
       modify (fun w => with_cache (<[key := cacheItem]> (cache w)) w))
      (fun e => console_error ("Erro ao salvar " +:+ key +:+ ":") ;; throw e).

Definition getItem (key : string) (defaultValue : option value) : M value :=
    try_catch
      (cached <- gets (fun w => cache w !! key) ;;
       hit <- match cached with
              | Some c =>
                  now <- Date_now ;;
                  if cache_valid c now then ret (Some (data c))
                  else (modify (fun w => with_cache (delete key (cache w)) w) ;;
                        ret None)
              | None => ret None
              end ;;
       match hit with
       | Some d => ret d
       | None =>
           stored <- AsyncStorage_getItem key ;;
           match stored with
           | Some s =>
               if nonempty s then
                 parsed <- parse_json s ;;
                 stamp <- Date_now ;;
                 modify (fun w => with_cache
                           (<[key := {| data := parsed; timestamp := stamp;
                                        expiry := None |}]> (cache w)) w) ;;
                 ret parsed
               else ret (or_else defaultValue VNull)
           | None => ret (or_else defaultValue VNull)
           end
       end)
      (fun _ => console_error ("Erro ao carregar " +:+ key +:+ ":") ;;
                ret (or_else defaultValue VNull)).

Definition removeItem (key : string) : M unit :=
    try_catch
      (AsyncStorage_removeItem key ;;
       modify (fun w => with_cache (delete key (cache w)) w))
      (fun e => console_error ("Erro ao remover " +:+ key +:+ ":") ;; throw e).

Definition clearAll : M unit :=
    try_catch
      (AsyncStorage_clear ;; modify (with_cache ∅))
      (fun e => console_error "Erro ao limpar armazenamento:" ;; throw e).

Definition clearCache : M unit := modify (with_cache ∅).

Definition getAppointments : M value :=
    getItem STORAGE_KEYS.APPOINTMENTS (Some (VArr [])).
Definition saveAppointments (appointments : list value) : M unit :=
    setItem STORAGE_KEYS.APPOINTMENTS (VArr appointments) None.
Definition addAppointment (appointment : value) : M unit :=
    appointments <- getAppointments ;;
    items <- spread appointments ;;
    saveAppointments (items ++ [appointment]).

Definition updateAppointment (appointmentId : string)
    (updates : list (string * value)) : M unit :=
    appointments <- getAppointments ;;
    items <- as_array appointments ;;
    updated <- map_js (fun apt =>
                 apt_id <- get_prop apt "id" ;;
                 if strict_equals_string apt_id appointmentId
                 then ret (VObj (merge_fields (own_fields apt) updates))
                 else ret apt) items ;;
    saveAppointments updated.
Definition deleteAppointment (appointmentId : string) : M unit :=
    appointments <- getAppointments ;;
    items <- as_array appointments ;;
    filtered <- filter_js (fun apt =>
                  apt_id <- get_prop apt "id" ;;
                  ret (negb (strict_equals_string apt_id appointmentId))) items ;;
    saveAppointments filtered.

Definition getRegisteredUsers : M value :=
    getItem STORAGE_KEYS.REGISTERED_USERS (Some (VArr [])).
Definition saveRegisteredUsers (users : list value) : M unit :=
    setItem STORAGE_KEYS.REGISTERED_USERS (VArr users) None.
Definition addUser (user : value) : M unit :=
    users <- getRegisteredUsers ;;
    items <- spread users ;;
    saveRegisteredUsers (items ++ [user]).

Definition getNotifications : M value :=
    getItem STORAGE_KEYS.NOTIFICATIONS (Some (VArr [])).
Definition saveNotifications (notifications : list value) : M unit :=
    setItem STORAGE_KEYS.NOTIFICATIONS (VArr notifications) None.
Definition addNotification (notification : value) : M unit :=
    notifications <- getNotifications ;;
    items <- spread notifications ;;
    saveNotifications (items ++ [notification]).

Definition createBackup : M string :=
    try_catch
      (appointments <- getItem STORAGE_KEYS.APPOINTMENTS (Some (VArr [])) ;;
       notifications <- getItem STORAGE_KEYS.NOTIFICATIONS (Some (VArr [])) ;;
       registeredUsers <- getItem STORAGE_KEYS.REGISTERED_USERS (Some (VArr [])) ;;
       settings <- getItem STORAGE_KEYS.APP_SETTINGS (Some (VObj [])) ;;
       let backupData := VObj [("appointments", appointments);
                               ("notifications", notifications);
                               ("registeredUsers", registeredUsers);
                               ("settings", settings)] in
       now <- Date_now ;;
       ret (JSON_stringify (VObj [("timestamp", VStr (Date_toISOString now));
                                  ("data", backupData)])))
      (fun e => console_error "Erro ao criar backup:" ;; throw e).

Definition restoreFromBackup (backupString : string) : M unit :=
    try_catch
      (backup <- parse_json backupString ;;
       backup_data <- get_prop backup "data" ;;
       match backup_data with
       | Some d =>
           if truthy d then
             appointments <- get_prop d "appointments" ;;
             setItem STORAGE_KEYS.APPOINTMENTS (or_else appointments (VArr [])) None ;;
             notifications <- get_prop d "notifications" ;;
             setItem STORAGE_KEYS.NOTIFICATIONS (or_else notifications (VArr [])) None ;;
             registeredUsers <- get_prop d "registeredUsers" ;;
             setItem STORAGE_KEYS.REGISTERED_USERS (or_else registeredUsers (VArr [])) None ;;
             settings <- get_prop d "settings" ;;
             setItem STORAGE_KEYS.APP_SETTINGS (or_else settings (VObj [])) None
           else ret tt
       | None => ret tt
       end)
      (fun e => console_error "Erro ao restaurar backup:" ;; throw e).

Definition getStorageInfo : M StorageInfo :=
    allKeys <- AsyncStorage_getAllKeys ;;
    entries <- gets cache ;;
    let lastAccess :=
      map_fold (fun key item obj => assign_number key (timestamp item) obj) ∅ entries in
    ret {| cacheSize := size entries;
           totalKeys := length allKeys;
           lastAccess := lastAccess |}.

Definition defaultSettings : value :=
    VObj [("theme", VStr "light"); ("notifications", VBool true);
          ("language", VStr "pt-BR"); ("autoBackup", VBool true)].

Definition getAppSettings : M value :=
    getItem STORAGE_KEYS.APP_SETTINGS (Some defaultSettings).

Definition updateAppSettings (settings : list (string * value)) : M unit :=
    currentSettings <- getAppSettings ;;
    let updatedSettings := VObj (merge_fields (own_fields currentSettings) settings) in
    setItem STORAGE_KEYS.APP_SETTINGS updatedSettings None.

End WithRuntime.
End storageService.

(** ** Typed views of stored data

    statistics.ts and notificationService.ts annotate what they read with
    the interfaces [Appointment] and [Notification]. The model keeps those
    types: the text read from AsyncStorage is parsed and then viewed as a
    list of records. Text that parses but does not have the declared shape
    is outside the interfaces; the model rejects it with a [TypeError]
    where it is read. *)

Definition str_field (k : string) (fields : list (string * value)) : option string :=
  match assoc k fields with
  | Some (VStr s) => Some s
  | _ => None
  end.

Definition bool_field (k : string) (fields : list (string * value)) : option bool :=
  match assoc k fields with
  | Some (VBool b) => Some b
  | _ => None
  end.

(** An optional string field: absent, or present with a string. *)
Definition opt_str_field (k : string) (fields : list (string * value))
  : option (option string) :=
  match assoc k fields with
  | None => Some None
  | Some (VStr s) => Some (Some s)
  | Some _ => None
  end.

Definition as_list {T} (conv : value -> option T) (v : value) : option (list T) :=
  match v with
  | VArr items => mapM conv items
  | _ => None
  end.

(** [JSON.parse(text) as T[]] *)
Definition parse_as `{JsRuntime} {T} (conv : value -> option T) (text : string)
  : M (list T) :=
  v <- parse_json text ;;
  match as_list conv v with
  | Some l => ret l
  | None => throw TypeError
  end.

(** [stored ? JSON.parse(stored) : []] at an interface type. *)
Definition parse_or_empty `{JsRuntime} {T} (conv : value -> option T)
    (stored : option string) : M (list T) :=
  match stored with
  | Some s => if nonempty s then parse_as conv s else ret []
  | None => ret []
  end.

(** [for (x of l) body(x)] over a mutable local [s]. *)
Fixpoint forEach {A S} (l : list A) (body : S -> A -> M S) (s : S) : M S :=
  match l with
  | [] => ret s
  | x :: rest => s' <- body s x ;; forEach rest body s'
  end.

(** *** Strings *)

(** [s.split(sep)] for a one-character separator. [cur] holds the piece
    being read. *)
Fixpoint split_from (sep : ascii) (s cur : string) : list string :=
  match s with
  | EmptyString => [cur]
  | String c rest =>
      if Ascii.eqb c sep then cur :: split_from sep rest EmptyString
      else split_from sep rest (cur +:+ String c EmptyString)
  end.
Definition String_split (sep : ascii) (s : string) : list string :=
  split_from sep s EmptyString.

(** A possibly [undefined] string inside a template literal. *)
Definition template (o : option string) : string :=
  match o with
  | Some s => s
  | None => "undefined"
  end.

(** [m[k] = (m[k] || 0) + 1] on a counter object that starts as [{}].
    Only own keys are modelled; a month key always contains a slash, so
    it never names a property inherited from Object.prototype. *)
Definition bump (k : string) (m : gmap string nat) : gmap string nat :=
  let current := match m !! k with
                 | Some n => if Nat.eqb n 0 then 0%nat else n
                 | None => 0%nat
                 end in
  <[k := (current + 1)%nat]> m.

(** The property names every plain object inherits from
    Object.prototype. *)
Definition Object_prototype_names : list string :=
  ["constructor"; "__defineGetter__"; "__defineSetter__"; "hasOwnProperty";
   "__lookupGetter__"; "__lookupSetter__"; "isPrototypeOf"; "propertyIsEnumerable";
   "toString"; "valueOf"; "__proto__"; "toLocaleString"].
Definition inherited (k : string) : bool :=
  existsb (String.eqb k) Object_prototype_names.

(** What an own property of a counter object holds when its keys are
    free text: a count, or the string that [+ 1] makes of an inherited
    function (its source text followed by 1), which is no count. *)
Inductive tally : Type :=
  | Times (n : nat)
  | Concatenated.

Definition count_of (t : tally) : option nat :=
  match t with
  | Times n => Some n
  | Concatenated => None
  end.

(** [obj[k] = (obj[k] || 0) + 1] on a plain object with own properties
    [obj].  Reading an inherited name that is no own property yields the
    inherited function or object, which is truthy, and [+ 1] makes a
    string of it; a string plus 1 is a string again.  Assigning to
    [__proto__] calls the prototype setter, which ignores a string, so
    no own property is made. *)
Definition tally_property (k : string) (obj : gmap string tally) : gmap string tally :=
  if String.eqb k "__proto__" then obj
  else match obj !! k with
       | Some (Times n) => <[k := Times ((if Nat.eqb n 0 then 0 else n) + 1)]> obj
       | Some Concatenated => <[k := Concatenated]> obj
       | None => if inherited k then <[k := Concatenated]> obj
                 else <[k := Times 1]> obj
       end.

(** ** statisticsService (statistics.ts) *)

Inductive Status : Type := pending | confirmed | cancelled.

Definition Status_eqb (a b : Status) : bool :=
  match a, b with
  | pending, pending | confirmed, confirmed | cancelled, cancelled => true
  | _, _ => false
  end.

Module Appointment.
Record t : Type := mk {
    id : string;
    patientId : string;
    patientName : string;
    doctorId : string;
    doctorName : string;
    date : string;
    time : string;
    specialty : string;
    status : Status
  }.
End Appointment.

Definition as_Status (s : string) : option Status :=
  if String.eqb s "pending" then Some pending
  else if String.eqb s "confirmed" then Some confirmed
  else if String.eqb s "cancelled" then Some cancelled
  else None.

Definition as_Appointment (v : value) : option Appointment.t :=
  match v with
  | VObj f =>
      i ← str_field "id" f; pid ← str_field "patientId" f;
      pn ← str_field "patientName" f; did ← str_field "doctorId" f;
      dn ← str_field "doctorName" f; d ← str_field "date" f;
      tm ← str_field "time" f; sp ← str_field "specialty" f;
      st ← str_field "status" f ≫= as_Status;
      Some (Appointment.mk i pid pn did dn d tm sp st)
  | _ => None
  end.

Record StatusPercentages : Type := mkStatusPercentages {
  pct_confirmed : float;
  pct_pending : float;
  pct_cancelled : float
}.

Record Statistics : Type := mkStatistics {
  totalAppointments : nat;
  confirmedAppointments : nat;
  pendingAppointments : nat;
  cancelledAppointments : nat;
  totalPatients : nat;
  totalDoctors : nat;
  specialties : gmap string tally;
  appointmentsByMonth : gmap string nat;
  statusPercentages : StatusPercentages
}.

(** A length as a JavaScript number (a binary64 float). *)
Definition number_of_nat (n : nat) : float :=
  PrimFloat.of_uint63 (Uint63.of_Z (Z.of_nat n)).

(** [total > 0 ? (count / total) * 100 : 0] *)
Definition percentage (count total : nat) : float :=
  if (0 <? total)%nat
  then (number_of_nat count / number_of_nat total * 100)%float
  else 0%float.

Definition count_status (st : Status) (appointments : list Appointment.t) : nat :=
  length (filter (fun a => Status_eqb (Appointment.status a) st = true) appointments).

(** The body of the second [forEach] of getGeneralStatistics, with its
    own try/catch. *)
Definition month_step (appointmentsByMonth : gmap string nat) (appointment : Appointment.t)
  : M (gmap string nat) :=
  try_catch
    (parts <- ret (String_split "/" (Appointment.date appointment)) ;;
     let month := parts !! 1%nat in
     let year := parts !! 2%nat in
     let monthKey := template month +:+ "/" +:+ template year in
     ret (bump monthKey appointmentsByMonth))
    (fun _ =>
       console_warn ("Data em formato inválido encontrada e ignorada: "
                     +:+ Appointment.date appointment) ;;
       ret appointmentsByMonth).

(** The [Partial<Statistics>] getDoctorStatistics resolves with. *)
Record DoctorStatistics : Type := mkDoctorStatistics {
  doctor_totalAppointments : nat;
  doctor_confirmedAppointments : nat;
  doctor_pendingAppointments : nat;
  doctor_cancelledAppointments : nat;
  doctor_totalPatients : nat;
  doctor_statusPercentages : StatusPercentages
}.

(** The [Partial<Statistics>] getPatientStatistics resolves with. *)
Record PatientStatistics : Type := mkPatientStatistics {
  patient_totalAppointments : nat;
  patient_confirmedAppointments : nat;
  patient_pendingAppointments : nat;
  patient_cancelledAppointments : nat;
  patient_totalDoctors : nat;
  patient_specialties : gmap string tally;
  patient_statusPercentages : StatusPercentages
}.

Module statisticsService.
Section WithRuntime.
Context `{JsRuntime}.

Definition getGeneralStatistics : M Statistics :=
    try_catch
      (appointmentsData <- AsyncStorage_getItem "@MedicalApp:appointments" ;;
       appointments <- parse_or_empty as_Appointment appointmentsData ;;
       registeredUsersData <- AsyncStorage_getItem "@MedicalApp:registeredUsers" ;;
       registeredUsers <- match registeredUsersData with
                          | Some s => if nonempty s then parse_json s else ret (VArr [])
                          | None => ret (VArr [])
                          end ;;
       let total := length appointments in
       let nconfirmed := count_status confirmed appointments in
       let npending := count_status pending appointments in
       let ncancelled := count_status cancelled appointments in
       let uniquePatients : gset string :=
         list_to_set (map Appointment.patientId appointments) in
       let uniqueDoctors : gset string :=
         list_to_set (map Appointment.doctorId appointments) in
       let byspecialty :=
         fold_left (fun acc a => tally_property (Appointment.specialty a) acc) appointments ∅ in
       bymonth <- forEach appointments month_step ∅ ;;
       ret {| totalAppointments := total;
              confirmedAppointments := nconfirmed;
              pendingAppointments := npending;
              cancelledAppointments := ncancelled;
              totalPatients := size uniquePatients;
              totalDoctors := size uniqueDoctors;
              specialties := byspecialty;
              appointmentsByMonth := bymonth;
              statusPercentages :=
                {| pct_confirmed := percentage nconfirmed total;
                   pct_pending := percentage npending total;
                   pct_cancelled := percentage ncancelled total |} |})
      (fun e => console_error "Erro ao calcular estatísticas gerais:" ;; throw e).

Definition getDoctorStatistics (doctorId : string) : M DoctorStatistics :=
    try_catch
      (appointmentsData <- AsyncStorage_getItem "@MedicalApp:appointments" ;;
       allAppointments <- parse_or_empty as_Appointment appointmentsData ;;
       let doctorAppointments :=
         filter (fun a => String.eqb (Appointment.doctorId a) doctorId = true)
                allAppointments in
       let total := length doctorAppointments in
       let nconfirmed := count_status confirmed doctorAppointments in
       let npending := count_status pending doctorAppointments in
       let ncancelled := count_status cancelled doctorAppointments in
       let uniquePatients : gset string :=
         list_to_set (map Appointment.patientId doctorAppointments) in
       ret {| doctor_totalAppointments := total;
              doctor_confirmedAppointments := nconfirmed;
              doctor_pendingAppointments := npending;
              doctor_cancelledAppointments := ncancelled;
              doctor_totalPatients := size uniquePatients;
              doctor_statusPercentages :=
                {| pct_confirmed := percentage nconfirmed total;
                   pct_pending := percentage npending total;
                   pct_cancelled := percentage ncancelled total |} |})
      (fun e => console_error "Erro ao calcular estatísticas do médico:" ;; throw e).

Definition getPatientStatistics (patientId : string) : M PatientStatistics :=
    try_catch
      (appointmentsData <- AsyncStorage_getItem "@MedicalApp:appointments" ;;
       allAppointments <- parse_or_empty as_Appointment appointmentsData ;;
       let patientAppointments :=
         filter (fun a => String.eqb (Appointment.patientId a) patientId = true)
                allAppointments in
       let total := length patientAppointments in
       let nconfirmed := count_status confirmed patientAppointments in
       let npending := count_status pending patientAppointments in
       let ncancelled := count_status cancelled patientAppointments in
       let byspecialty :=
         fold_left (fun acc a => tally_property (Appointment.specialty a) acc)
                   patientAppointments ∅ in
       let uniqueDoctors : gset string :=
         list_to_set (map Appointment.doctorId patientAppointments) in
       ret {| patient_totalAppointments := total;
              patient_confirmedAppointments := nconfirmed;
              patient_pendingAppointments := npending;
              patient_cancelledAppointments := ncancelled;
              patient_totalDoctors := size uniqueDoctors;
              patient_specialties := byspecialty;
              patient_statusPercentages :=
                {| pct_confirmed := percentage nconfirmed total;
                   pct_pending := percentage npending total;
                   pct_cancelled := percentage ncancelled total |} |})
      (fun e => console_error "Erro ao calcular estatísticas do paciente:" ;; throw e).

End WithRuntime.
End statisticsService.

(** ** notificationService (notificationService.ts) *)

Inductive NotificationType : Type :=
  | appointment_confirmed
  | appointment_cancelled
  | appointment_reminder
  | general.

Module Notification.
Record t : Type := mk {
    id : string;
    userId : string;
    title : string;
    message : string;
    type : NotificationType;
    read : bool;
    createdAt : string;
    appointmentId : option string
  }.

  (** [{ ...n, read: true }] *)
Definition mark_read (n : t) : t :=
    mk (id n) (userId n) (title n) (message n) (type n) true (createdAt n)
       (appointmentId n).
End Notification.

(** [Omit<Notification, 'id' | 'createdAt' | 'read'>] *)
Module NewNotification.
Record t : Type := mk {
    userId : string;
    title : string;
    message : string;
    type : NotificationType;
    appointmentId : option string
  }.
End NewNotification.

Definition NotificationType_name (ty : NotificationType) : string :=
  match ty with
  | appointment_confirmed => "appointment_confirmed"
  | appointment_cancelled => "appointment_cancelled"
  | appointment_reminder => "appointment_reminder"
  | general => "general"
  end.

Definition as_NotificationType (s : string) : option NotificationType :=
  if String.eqb s "appointment_confirmed" then Some appointment_confirmed
  else if String.eqb s "appointment_cancelled" then Some appointment_cancelled
  else if String.eqb s "appointment_reminder" then Some appointment_reminder
  else if String.eqb s "general" then Some general
  else None.

Definition as_Notification (v : value) : option Notification.t :=
  match v with
  | VObj f =>
      i ← str_field "id" f; u ← str_field "userId" f;
      tl ← str_field "title" f; msg ← str_field "message" f;
      ty ← str_field "type" f ≫= as_NotificationType;
      r ← bool_field "read" f; c ← str_field "createdAt" f;
      a ← opt_str_field "appointmentId" f;
      Some (Notification.mk i u tl msg ty r c a)
  | _ => None
  end.

(** The object JSON.stringify sees; an [undefined] appointmentId is left
    out of the text. *)
Definition Notification_value (n : Notification.t) : value :=
  VObj ([("userId", VStr (Notification.userId n));
         ("type", VStr (NotificationType_name (Notification.type n)));
         ("title", VStr (Notification.title n));
         ("message", VStr (Notification.message n))]
        ++ match Notification.appointmentId n with
           | Some a => [("appointmentId", VStr a)]
           | None => []
           end
        ++ [("id", VStr (Notification.id n));
            ("createdAt", VStr (Notification.createdAt n));
            ("read", VBool (Notification.read n))]).

(** [Date.now().toString()] *)
Definition Number_toString (n : Z) : string := pretty n.

(** Stable insertion sort under a comparator, the order Array.prototype.sort
    gives for a consistent [compare]; a NaN result counts as 0. *)
Fixpoint sort_insert {A} (compare : A -> A -> option Z) (x : A) (l : list A) : list A :=
  match l with
  | [] => [x]
  | y :: rest =>
      if (default 0 (compare x y) <=? 0) then x :: y :: rest
      else y :: sort_insert compare x rest
  end.
Definition Array_sort {A} (compare : A -> A -> option Z) (l : list A) : list A :=
  fold_right (sort_insert compare) [] l.

Definition STORAGE_KEY : string := "@MedicalApp:notifications".

Module notificationService.
Section WithRuntime.
Context `{JsRuntime}.

  (** [(a, b) => new Date(b.createdAt).getTime() - new Date(a.createdAt).getTime()] *)
Definition newest_first (a b : Notification.t) : option Z :=
    tb ← Date_getTime (Notification.createdAt b);
    ta ← Date_getTime (Notification.createdAt a);
    Some (tb - ta).

Definition stringify_notifications (l : list Notification.t) : string :=
    JSON_stringify (VArr (map Notification_value l)).

  (** The object literal of createNotification; [idnow] is what
      [Date.now()] returned and [now] the instant of [new Date()]. *)
Definition newNotification (notification : NewNotification.t) (idnow now : Z)
    : Notification.t :=
    {| Notification.userId := NewNotification.userId notification;
       Notification.title := NewNotification.title notification;
       Notification.message := NewNotification.message notification;
       Notification.type := NewNotification.type notification;
       Notification.appointmentId := NewNotification.appointmentId notification;
       Notification.id := Number_toString idnow;
       Notification.createdAt := Date_toISOString now;
       Notification.read := false |}.

Definition getNotifications (userId : string) : M (list Notification.t) :=
      try_catch
        (stored <- AsyncStorage_getItem STORAGE_KEY ;;
         allNotifications <- parse_or_empty as_Notification stored ;;
         ret (Array_sort newest_first
                (filter (fun n => String.eqb (Notification.userId n) userId = true)
                        allNotifications)))
        (fun _ => console_error "Erro ao carregar notificações:" ;; ret []).

    (** The try block of createNotification. *)
Definition createNotification_body (notification : NewNotification.t) : M unit :=
      stored <- AsyncStorage_getItem STORAGE_KEY ;;
      allNotifications <- parse_or_empty as_Notification stored ;;
      idnow <- Date_now ;;
      now <- Date_now ;;
      let created := newNotification notification idnow now in
      AsyncStorage_setItem STORAGE_KEY
        (stringify_notifications (allNotifications ++ [created])).

Definition createNotification (notification : NewNotification.t) : M unit :=
      try_catch (createNotification_body notification)
        (fun _ => console_error "Erro ao criar notificação:").

Definition markAsRead_body (notificationId : string) : M unit :=
      stored <- AsyncStorage_getItem STORAGE_KEY ;;
      allNotifications <- parse_or_empty as_Notification stored ;;
      let updatedNotifications :=
        map (fun n => if String.eqb (Notification.id n) notificationId
                      then Notification.mark_read n else n) allNotifications in
      AsyncStorage_setItem STORAGE_KEY (stringify_notifications updatedNotifications).

Definition markAsRead (notificationId : string) : M unit :=
      try_catch (markAsRead_body notificationId)
        (fun _ => console_error "Erro ao marcar notificação como lida:").

Definition markAllAsRead_body (userId : string) : M unit :=
      stored <- AsyncStorage_getItem STORAGE_KEY ;;
      allNotifications <- parse_or_empty as_Notification stored ;;
      let updatedNotifications :=
        map (fun n => if String.eqb (Notification.userId n) userId
                      then Notification.mark_read n else n) allNotifications in
      AsyncStorage_setItem STORAGE_KEY (stringify_notifications updatedNotifications).

Definition markAllAsRead (userId : string) : M unit :=
      try_catch (markAllAsRead_body userId)
        (fun _ => console_error "Erro ao marcar todas as notificações como lidas:").

Definition deleteNotification_body (notificationId : string) : M unit :=
      stored <- AsyncStorage_getItem STORAGE_KEY ;;
      allNotifications <- parse_or_empty as_Notification stored ;;
      let filteredNotifications :=
        filter (fun n => negb (String.eqb (Notification.id n) notificationId) = true)
               allNotifications in
      AsyncStorage_setItem STORAGE_KEY (stringify_notifications filteredNotifications).

Definition deleteNotification (notificationId : string) : M unit :=
      try_catch (deleteNotification_body notificationId)
        (fun _ => console_error "Erro ao deletar notificação:").

Definition getUnreadCount (userId : string) : M nat :=
      try_catch
        (notifications <- getNotifications userId ;;
         ret (length (filter (fun n => negb (Notification.read n) = true) notifications)))
        (fun _ => console_error "Erro ao contar notificações não lidas:" ;; ret 0%nat).

(** The templated creators. Their callers pass an appointment as
    [appointmentDetails]. *)
Definition notifyAppointmentConfirmed (patientId : string)
    (appointmentDetails : Appointment.t) : M unit :=
    createNotification
      {| NewNotification.userId := patientId;
         NewNotification.type := appointment_confirmed;
         NewNotification.title := "Consulta Confirmada";
         NewNotification.message :=
           "Sua consulta com " +:+ Appointment.doctorName appointmentDetails
           +:+ " foi confirmada para " +:+ Appointment.date appointmentDetails
           +:+ " às " +:+ Appointment.time appointmentDetails +:+ ".";
         NewNotification.appointmentId := Some (Appointment.id appointmentDetails) |}.

Definition notifyAppointmentCancelled (patientId : string)
    (appointmentDetails : Appointment.t) (reason : option string) : M unit :=
    createNotification
      {| NewNotification.userId := patientId;
         NewNotification.type := appointment_cancelled;
         NewNotification.title := "Consulta Cancelada";
         NewNotification.message :=
           "Sua consulta com " +:+ Appointment.doctorName appointmentDetails
           +:+ " foi cancelada."
           +:+ match reason with
               | Some r => if nonempty r then " Motivo: " +:+ r else EmptyString
               | None => EmptyString
               end;
         NewNotification.appointmentId := Some (Appointment.id appointmentDetails) |}.

Definition notifyNewAppointment (doctorId : string)
    (appointmentDetails : Appointment.t) : M unit :=
    createNotification
      {| NewNotification.userId := doctorId;
         NewNotification.type := general;
         NewNotification.title := "Nova Consulta Agendada";
         NewNotification.message :=
           Appointment.patientName appointmentDetails
           +:+ " agendou uma consulta para " +:+ Appointment.date appointmentDetails
           +:+ " às " +:+ Appointment.time appointmentDetails +:+ ".";
         NewNotification.appointmentId := Some (Appointment.id appointmentDetails) |}.

Definition notifyAppointmentReminder (userId : string)
    (appointmentDetails : Appointment.t) : M unit :=
    createNotification
      {| NewNotification.userId := userId;
         NewNotification.type := appointment_reminder;
         NewNotification.title := "Lembrete de Consulta";
         NewNotification.message :=
           "Você tem uma consulta agendada para amanhã às "
           +:+ Appointment.time appointmentDetails +:+ " com "
           +:+ (if nonempty (Appointment.doctorName appointmentDetails)
                then Appointment.doctorName appointmentDetails
                else Appointment.patientName appointmentDetails) +:+ ".";
         NewNotification.appointmentId := Some (Appointment.id appointmentDetails) |}.

End WithRuntime.
End notificationService.

(** ** appointmentService (CreateAppointmentScreen/services/appointmentService.ts) *)

Module Doctor.
Record t : Type := mk {
  id : string;
  name : string;
  specialty : string;
  image : string
}.
End Doctor.

(** The fields of [User] that createAppointment reads. *)
Module User.
Record t : Type := mk {
  id : string;
  name : string
}.
End User.

Definition Status_name (st : Status) : string :=
  match st with
  | pending => "pending"
  | confirmed => "confirmed"
  | cancelled => "cancelled"
  end.

(** The object literal [newAppointment], as JSON.stringify sees it. *)
Definition Appointment_value (a : Appointment.t) : value :=
  VObj [("id", VStr (Appointment.id a));
        ("patientId", VStr (Appointment.patientId a));
        ("patientName", VStr (Appointment.patientName a));
        ("doctorId", VStr (Appointment.doctorId a));
        ("doctorName", VStr (Appointment.doctorName a));
        ("date", VStr (Appointment.date a));
        ("time", VStr (Appointment.time a));
        ("specialty", VStr (Appointment.specialty a));
        ("status", VStr (Status_name (Appointment.status a)))].

Module appointmentService.
Section WithRuntime.
Context `{JsRuntime}.

(** The object literal of createAppointment; [user?.id || ''] is the
    id of the user, or the empty string without a user. *)
Definition newAppointment (date selectedTime : string) (selectedDoctor : Doctor.t)
    (user : option User.t) (now : Z) : Appointment.t :=
    {| Appointment.id := Number_toString now;
       Appointment.patientId := from_option User.id EmptyString user;
       Appointment.patientName := from_option User.name EmptyString user;
       Appointment.doctorId := Doctor.id selectedDoctor;
       Appointment.doctorName := Doctor.name selectedDoctor;
       Appointment.date := date;
       Appointment.time := selectedTime;
       Appointment.specialty := Doctor.specialty selectedDoctor;
       Appointment.status := pending |}.

Definition createAppointment (date selectedTime : string) (selectedDoctor : Doctor.t)
    (user : option User.t) : M unit :=
    storedAppointments <- AsyncStorage_getItem "@MedicalApp:appointments" ;;
    appointments <- match storedAppointments with
                    | Some s => if nonempty s then parse_json s else ret (VArr [])
                    | None => ret (VArr [])
                    end ;;
    now <- Date_now ;;
    let created := newAppointment date selectedTime selectedDoctor user now in
    items <- as_array appointments ;;
    AsyncStorage_setItem "@MedicalApp:appointments"
      (JSON_stringify (VArr (items ++ [Appointment_value created]))) ;;
    notificationService.notifyNewAppointment (Doctor.id selectedDoctor) created.

End WithRuntime.
End appointmentService.

(** ** A runtime to compute with

    An executable instance of [JsRuntime], used where a statement is
    evaluated on concrete text: JSON with integer numbers and the simple
    backslash escapes, and ISO-8601 instants in UTC. *)

Module Runtime.

Definition quote : ascii := "034"%char.
Definition backslash : ascii := "092"%char.

(** Writes a JSON text with ['] in place of the double quote. *)
Fixpoint json_text (s : string) : string :=
  match s with
  | EmptyString => EmptyString
  | String c rest =>
      String (if Ascii.eqb c "'"%char then quote else c) (json_text rest)
  end.

Fixpoint escape (s : string) : string :=
  match s with
  | EmptyString => EmptyString
  | String c rest =>
      if Ascii.eqb c quote || Ascii.eqb c backslash
      then String backslash (String c (escape rest))
      else if Ascii.eqb c "010"%char then String backslash (String "n"%char (escape rest))
      else if Ascii.eqb c "009"%char then String backslash (String "t"%char (escape rest))
      else if Ascii.eqb c "013"%char then String backslash (String "r"%char (escape rest))
      else String c (escape rest)
  end.

Definition quoted (s : string) : string :=
  String quote (escape s) +:+ String quote EmptyString.

Definition join (pieces : list string) : string :=
  match pieces with
  | [] => EmptyString
  | p :: rest => fold_left (fun acc x => acc +:+ "," +:+ x) rest p
  end.

Fixpoint stringify (v : value) : string :=
  match v with
  | VNull => "null"
  | VBool true => "true"
  | VBool false => "false"
  | VNum n => pretty n
  | VStr s => quoted s
  | VArr items => "[" +:+ join (map stringify items) +:+ "]"
  | VObj fields =>
      "{" +:+ join (map (fun kv => quoted (fst kv) +:+ ":" +:+ stringify (snd kv)) fields)
      +:+ "}"
  end.

Definition is_ws (c : ascii) : bool :=
  Ascii.eqb c " "%char || Ascii.eqb c "009"%char || Ascii.eqb c "010"%char
  || Ascii.eqb c "013"%char.

Fixpoint skip_ws (cs : list ascii) : list ascii :=
  match cs with
  | c :: rest => if is_ws c then skip_ws rest else cs
  | [] => []
  end.

Definition digit_of (c : ascii) : option Z :=
  let n := Z.of_nat (nat_of_ascii c) in
  if (48 <=? n) && (n <=? 57) then Some (n - 48) else None.

Fixpoint read_digits (cs : list ascii) (acc : Z) : Z * list ascii :=
  match cs with
  | c :: rest =>
      match digit_of c with
      | Some d => read_digits rest (acc * 10 + d)
      | None => (acc, cs)
      end
  | [] => (acc, [])
  end.

(** Digits with at least one digit, and no fraction or exponent after. *)
Definition read_number (cs : list ascii) : option (Z * list ascii) :=
  match cs with
  | c :: _ =>
      match digit_of c with
      | Some _ =>
          let '(n, rest) := read_digits cs 0 in
          match rest with
          | "."%char :: _ | "e"%char :: _ | "E"%char :: _ => None
          | _ => Some (n, rest)
          end
      | None => None
      end
  | [] => None
  end.

(** The characters of a string literal after its opening quote. *)
Fixpoint read_string (cs : list ascii) (acc : string) : option (string * list ascii) :=
  match cs with
  | [] => None
  | c :: rest =>
      if Ascii.eqb c quote then Some (acc, rest)
      else if Ascii.eqb c backslash then
        match rest with
        | e :: rest' =>
            let plain (x : ascii) := read_string rest' (acc +:+ String x EmptyString) in
            if Ascii.eqb e quote then plain quote
            else if Ascii.eqb e backslash then plain backslash
            else if Ascii.eqb e "/"%char then plain "/"%char
            else if Ascii.eqb e "n"%char then plain "010"%char
            else if Ascii.eqb e "t"%char then plain "009"%char
            else if Ascii.eqb e "r"%char then plain "013"%char
            else None
        | [] => None
        end
      else read_string rest (acc +:+ String c EmptyString)
  end.

(** [obj[k] = v] on a field list: a repeated key keeps its place and takes
    the later value. *)
Fixpoint set_field (k : string) (v : value) (fields : list (string * value))
  : list (string * value) :=
  match fields with
  | [] => [(k, v)]
  | (k', v') :: rest =>
      if String.eqb k k' then (k, v) :: rest else (k', v') :: set_field k v rest
  end.

Fixpoint read_value (fuel : nat) (cs : list ascii) : option (value * list ascii) :=
  match fuel with
  | O => None
  | S fuel' =>
      match skip_ws cs with
      | "n"%char :: "u"%char :: "l"%char :: "l"%char :: rest => Some (VNull, rest)
      | "t"%char :: "r"%char :: "u"%char :: "e"%char :: rest => Some (VBool true, rest)
      | "f"%char :: "a"%char :: "l"%char :: "s"%char :: "e"%char :: rest =>
          Some (VBool false, rest)
      | "["%char :: rest =>
          match skip_ws rest with
          | "]"%char :: rest' => Some (VArr [], rest')
          | _ => read_elements fuel' rest []
          end
      | "{"%char :: rest =>
          match skip_ws rest with
          | "}"%char :: rest' => Some (VObj [], rest')
          | _ => read_members fuel' rest []
          end
      | "-"%char :: rest =>
          match read_number rest with
          | Some (n, rest') => Some (VNum (- n), rest')
          | None => None
          end
      | c :: rest =>
          if Ascii.eqb c quote then
            match read_string rest EmptyString with
            | Some (s, rest') => Some (VStr s, rest')
            | None => None
            end
          else
            match read_number (c :: rest) with
            | Some (n, rest') => Some (VNum n, rest')
            | None => None
            end
      | [] => None
      end
  end
with read_elements (fuel : nat) (cs : list ascii) (acc : list value)
  : option (value * list ascii) :=
  match fuel with
  | O => None
  | S fuel' =>
      match read_value fuel' cs with
      | Some (v, rest) =>
          match skip_ws rest with
          | ","%char :: rest' => read_elements fuel' rest' (acc ++ [v])
          | "]"%char :: rest' => Some (VArr (acc ++ [v]), rest')
          | _ => None
          end
      | None => None
      end
  end
with read_members (fuel : nat) (cs : list ascii) (acc : list (string * value))
  : option (value * list ascii) :=
  match fuel with
  | O => None
  | S fuel' =>
      match skip_ws cs with
      | c :: rest =>
          if Ascii.eqb c quote then
            match read_string rest EmptyString with
            | Some (k, rest1) =>
                match skip_ws rest1 with
                | ":"%char :: rest2 =>
                    match read_value fuel' rest2 with
                    | Some (v, rest3) =>
                        match skip_ws rest3 with
                        | ","%char :: rest4 => read_members fuel' rest4 (set_field k v acc)
                        | "}"%char :: rest4 => Some (VObj (set_field k v acc), rest4)
                        | _ => None
                        end
                    | None => None
                    end
                | _ => None
                end
            | None => None
            end
          else None
      | [] => None
      end
  end.

Definition parse (s : string) : option value :=
  let cs := list_ascii_of_string s in
  match read_value (2 * length cs + 2) cs with
  | Some (v, rest) =>
      match skip_ws rest with
      | [] => Some v
      | _ => None
      end
  | None => None
  end.

(** *** Instants

    [toISOString] prints the UTC calendar date of a millisecond count
    (years 0 to 9999); [getTime] reads that format back and is NaN on
    any other text. *)

Definition civil_from_days (days : Z) : Z * Z * Z :=
  let z := days + 719468 in
  let era := z / 146097 in
  let doe := z - era * 146097 in
  let yoe := (doe - doe / 1460 + doe / 36524 - doe / 146096) / 365 in
  let doy := doe - (365 * yoe + yoe / 4 - yoe / 100) in
  let mp := (5 * doy + 2) / 153 in
  let d := doy - (153 * mp + 2) / 5 + 1 in
  let m := if mp <? 10 then mp + 3 else mp - 9 in
  let y := yoe + era * 400 + (if m <=? 2 then 1 else 0) in
  (y, m, d).

Definition days_from_civil (y m d : Z) : Z :=
  let y' := if m <=? 2 then y - 1 else y in
  let era := y' / 400 in
  let yoe := y' - era * 400 in
  let doy := (153 * (if 2 <? m then m - 3 else m + 9) + 2) / 5 + d - 1 in
  let doe := yoe * 365 + yoe / 4 - yoe / 100 + doy in
  era * 146097 + doe - 719468.

Definition pad2 (n : Z) : string :=
  if n <? 10 then "0" +:+ pretty n else pretty n.
Definition pad3 (n : Z) : string :=
  if n <? 10 then "00" +:+ pretty n
  else if n <? 100 then "0" +:+ pretty n else pretty n.
Definition pad4 (n : Z) : string :=
  if n <? 1000 then "0" +:+ pad3 n else pretty n.

Definition toISOString (ms : Z) : string :=
  let day := ms / 86400000 in
  let rest := ms mod 86400000 in
  let '(y, m, d) := civil_from_days day in
  pad4 y +:+ "-" +:+ pad2 m +:+ "-" +:+ pad2 d +:+ "T"
  +:+ pad2 (rest / 3600000) +:+ ":" +:+ pad2 (rest / 60000 mod 60) +:+ ":"
  +:+ pad2 (rest / 1000 mod 60) +:+ "." +:+ pad3 (rest mod 1000) +:+ "Z".

Definition number_of_digits (cs : list ascii) : option Z :=
  foldl (fun acc c => a ← acc; d ← digit_of c; Some (a * 10 + d)) (Some 0) cs.

Definition getTime (s : string) : option Z :=
  match list_ascii_of_string s with
  | [y1; y2; y3; y4; "-"%char; m1; m2; "-"%char; d1; d2; "T"%char;
     h1; h2; ":"%char; n1; n2; ":"%char; s1; s2; "."%char; f1; f2; f3; "Z"%char] =>
      y ← number_of_digits [y1; y2; y3; y4];
      m ← number_of_digits [m1; m2];
      d ← number_of_digits [d1; d2];
      h ← number_of_digits [h1; h2];
      n ← number_of_digits [n1; n2];
      sec ← number_of_digits [s1; s2];
      f ← number_of_digits [f1; f2; f3];
      Some (days_from_civil y m d * 86400000 + h * 3600000 + n * 60000
            + sec * 1000 + f)
  | _ => None
  end.

End Runtime.

#[global] Instance runtime : JsRuntime := {|
  JSON_parse := Runtime.parse;
  JSON_stringify := Runtime.stringify;
  Date_toISOString := Runtime.toISOString;
  Date_getTime := Runtime.getTime
|}.

(** * Vocabulary of the statements *)

(** ** The fault schedule *)

(** The next AsyncStorage call does not reject. *)
Definition next_call_succeeds (w : World) : Prop := head (faults w) <> Some true.

(** The world after one AsyncStorage call that did not reject. *)
Definition after_call (w : World) : World := with_faults (tail (faults w)) w.

(** The first [n] AsyncStorage calls to come do not reject. *)
Definition calls_succeed (n : nat) (w : World) : Prop :=
  Forall (fun b => b = false) (take n (faults w)).

(** ** What is stored, at an interface type *)

(** The list a service reads under [key]: empty when the key is absent
    or holds the empty string, undefined when the text does not parse at
    the interface type. *)
Definition stored_list `{JsRuntime} {T} (conv : value -> option T) (key : string)
    (w : World) : option (list T) :=
  match disk w !! key with
  | Some s => if nonempty s then JSON_parse s ≫= as_list conv else Some []
  | None => Some []
  end.

(** ** Statistics of a list of appointments *)

(** [`${month}/${year}`] after [const [day, month, year] = date.split('/')]. *)
Definition month_key (a : Appointment.t) : string :=
  let parts := String_split "/" (Appointment.date a) in
  template (parts !! 1%nat) +:+ "/" +:+ template (parts !! 2%nat).

(** The month histogram once every record has been counted under its
    key. *)
Definition month_histogram (appointments : list Appointment.t) : gmap string nat :=
  fold_left (fun acc a => bump (month_key a) acc) appointments ∅.

(** What getGeneralStatistics resolves with on [appointments]. *)
Definition statistics_of (appointments : list Appointment.t) : Statistics :=
  let total := length appointments in
  {| totalAppointments := total;
     confirmedAppointments := count_status confirmed appointments;
     pendingAppointments := count_status pending appointments;
     cancelledAppointments := count_status cancelled appointments;
     totalPatients :=
       size (list_to_set (map Appointment.patientId appointments) : gset string);
     totalDoctors :=
       size (list_to_set (map Appointment.doctorId appointments) : gset string);
     specialties :=
       fold_left (fun acc a => tally_property (Appointment.specialty a) acc) appointments ∅;
     appointmentsByMonth := month_histogram appointments;
     statusPercentages :=
       {| pct_confirmed := percentage (count_status confirmed appointments) total;
          pct_pending := percentage (count_status pending appointments) total;
          pct_cancelled := percentage (count_status cancelled appointments) total |} |}.

(** The text under the users key is absent, empty or parses. *)
Definition users_parse `{JsRuntime} (w : World) : Prop :=
  match disk w !! "@MedicalApp:registeredUsers" with
  | Some s => if nonempty s then is_Some (JSON_parse s) else True
  | None => True
  end.

(** Total number of records counted by a histogram. *)
Definition histogram_total (m : gmap string nat) : nat :=
  map_fold (fun _ n acc => (n + acc)%nat) 0%nat m.

(** ** Worlds to compute on *)

(** Nothing cached, nothing stored, no fault to come, an empty console. *)
Definition fresh_world (now : Z) : World := mkWorld ∅ ∅ now [] [].

(** One pending appointment whose date is written year first. *)
Definition iso_dated_appointments : string :=
  Runtime.json_text
    ("[{'id':'1','patientId':'p1','patientName':'Ana','doctorId':'d1',"
     +:+ "'doctorName':'Dr. Silva','date':'2024-01-15','time':'10:00',"
     +:+ "'specialty':'Cardiologia','status':'pending'}]").

Definition iso_dated_world : World :=
  with_disk {[ "@MedicalApp:appointments" := iso_dated_appointments ]}
    (fresh_world 1700000000000).

(** ** The key-value store *)

(** The world a successful [setItem key v expiryMinutes] leaves. *)
Definition written `{JsRuntime} (key : string) (v : value) (expiryMinutes : option Z)
    (w : World) : World :=
  with_cache
    (<[key := {| data := v; timestamp := clock w;
                 expiry := expiry_of (clock w) expiryMinutes |}]> (cache w))
    (with_disk (<[key := JSON_stringify v]> (disk w)) (after_call w)).

(** The key is in neither the cache nor AsyncStorage. *)
Definition absent (key : string) (w : World) : Prop :=
  cache w !! key = None /\ disk w !! key = None.

(** The world five minutes' worth of TTL is set in. *)
Definition cached_world : World :=
  written "k" (VNum 7) (Some 5) (fresh_world 1000).

Definition sample_appointment : value :=
  VObj [("id", VStr "a1"); ("patientId", VStr "p1"); ("status", VStr "pending")].

(** The fresh world after [addAppointment sample_appointment], once and
    twice. *)
Definition once_added : World :=
  snd (storageService.addAppointment sample_appointment (fresh_world 0)).
Definition twice_added : World :=
  snd (storageService.addAppointment sample_appointment once_added).

(** ** Backup sections *)

(** [d.k] for a [d] that is not null. *)
Definition field (d : value) (k : string) : option value :=
  match d with
  | VObj fields => assoc k fields
  | _ => None
  end.

(** The four sections in the order restoreFromBackup writes them, with
    the value each takes from [backup.data]. *)
Definition restore_plan (d : value) : list (string * value) :=
  [(STORAGE_KEYS.APPOINTMENTS, or_else (field d "appointments") (VArr []));
   (STORAGE_KEYS.NOTIFICATIONS, or_else (field d "notifications") (VArr []));
   (STORAGE_KEYS.REGISTERED_USERS, or_else (field d "registeredUsers") (VArr []));
   (STORAGE_KEYS.APP_SETTINGS, or_else (field d "settings") (VObj []))].

Definition sections : list string :=
  [STORAGE_KEYS.APPOINTMENTS; STORAGE_KEYS.NOTIFICATIONS;
   STORAGE_KEYS.REGISTERED_USERS; STORAGE_KEYS.APP_SETTINGS].

Definition section_unchanged (key : string) (w w' : World) : Prop :=
  disk w' !! key = disk w !! key /\ cache w' !! key = cache w !! key.

Definition section_replaced `{JsRuntime} (key : string) (v : value) (w' : World) : Prop :=
  disk w' !! key = Some (JSON_stringify v) /\ data <$> cache w' !! key = Some v.

Definition none_changed (w w' : World) : Prop :=
  forall key, key ∈ sections -> section_unchanged key w w'.

Definition all_replaced `{JsRuntime} (d : value) (w' : World) : Prop :=
  forall key v, (key, v) ∈ restore_plan d -> section_replaced key v w'.

(** How many of [n] consecutive AsyncStorage calls succeed before the
    first one that rejects. *)
Fixpoint calls_before_rejection (n : nat) (fs : list bool) : nat :=
  match n, fs with
  | O, _ => O
  | S n', [] => S n'
  | S n', false :: rest => S (calls_before_rejection n' rest)
  | S n', true :: _ => O
  end.

(** One [setItem] per entry, in order. *)
Fixpoint write_all `{JsRuntime} (plan : list (string * value)) : M unit :=
  match plan with
  | [] => ret tt
  | (key, v) :: rest => storageService.setItem key v None ;; write_all rest
  end.

(** A snapshot without a settings section. *)
Definition sample_snapshot : string :=
  Runtime.json_text
    ("{'timestamp':'2024-01-15T10:00:00.000Z','data':{'appointments':[{'id':'a1'}],"
     +:+ "'notifications':[],'registeredUsers':[{'id':'u1'}]}}").

Definition sample_data : value :=
  VObj [("appointments", VArr [VObj [("id", VStr "a1")]]);
        ("notifications", VArr []);
        ("registeredUsers", VArr [VObj [("id", VStr "u1")]])].

Definition sample_backup : value :=
  VObj [("timestamp", VStr "2024-01-15T10:00:00.000Z"); ("data", sample_data)].

Definition truncated_snapshot : string := Runtime.json_text "{'data':{'appointments':[".

(** A world in which the third AsyncStorage call to come rejects, and
    what restoring [sample_snapshot] makes of it. *)
Definition third_write_rejected : World :=
  with_faults [false; false; true] (fresh_world 0).
Definition partially_restored : World :=
  snd (storageService.restoreFromBackup sample_snapshot third_write_rejected).

(** ** Notifications *)

Definition sample_notification (id userId : string) (read : bool) (createdAt : string)
  : Notification.t :=
  Notification.mk id userId "Consulta Confirmada" "Sua consulta foi confirmada."
    appointment_confirmed read createdAt None.

Definition sample_notifications : list Notification.t :=
  [sample_notification "1" "u1" false "2024-01-15T10:00:00.000Z";
   sample_notification "2" "u1" true "2024-01-16T10:00:00.000Z";
   sample_notification "3" "u2" false "2024-01-17T10:00:00.000Z";
   sample_notification "4" "u1" false "2024-01-18T10:00:00.000Z"].

Definition notified_world : World :=
  with_disk {[ STORAGE_KEY := notificationService.stringify_notifications
                                sample_notifications ]}
    (fresh_world 1700000000000).

Definition confirmed_notice : NewNotification.t :=
  NewNotification.mk "p1" "Consulta Confirmada"
    "Sua consulta com Dr. Silva foi confirmada para 15/01/2024 às 10:00."
    appointment_confirmed (Some "a1").

Definition reminder_notice : NewNotification.t :=
  NewNotification.mk "p1" "Lembrete de Consulta"
    "Você tem uma consulta agendada para amanhã às 10:00 com Dr. Silva."
    appointment_reminder (Some "a1").

(** Two notifications created one after the other while the clock
    stands at 1700000000000. *)
Definition two_notices : World :=
  snd (notificationService.createNotification reminder_notice
         (snd (notificationService.createNotification confirmed_notice
                 (fresh_world 1700000000000)))).

(** The sample notifications, with the write of the next mutation
    rejected. *)
Definition write_rejected_world : World := with_faults [false; true] notified_world.

(** One of the next two AsyncStorage calls (the read, then the write)
    rejects. *)
Definition storage_fails (w : World) : Prop :=
  (calls_before_rejection 2 (faults w) < 2)%nat.

(** The text under the notifications key is not JSON: JSON.parse throws
    a SyntaxError on it. *)
Definition stored_unparsable `{JsRuntime} (w : World) : Prop :=
  exists s, disk w !! STORAGE_KEY = Some s
            /\ nonempty s = true /\ JSON_parse s = None.

(** [op] never throws, and when the storage fails or holds text that
    is not JSON, it leaves the stored items as they were and writes
    one line to the console. *)
Definition swallows_failures `{JsRuntime} (op : M unit) : Prop :=
  forall w, exists w',
    op w = (Ok tt, w')
    /\ (storage_fails w \/ stored_unparsable w ->
        disk w' = disk w
        /\ exists line : string, console w' = (console w ++ [line])%list).

(** ** More of the key-value store *)

(** The world a successful [removeItem key] leaves. *)
Definition removed (key : string) (w : World) : World :=
  with_cache (delete key (cache w)) (with_disk (delete key (disk w)) (after_call w)).

(** Every cached key is also stored in AsyncStorage. *)
Definition cache_backed (w : World) : Prop := dom (cache w) ⊆ dom (disk w).

(** Running [m] keeps [P], whether it resolves or throws. *)
Definition preserves {A} (P : World -> Prop) (m : M A) : Prop :=
  forall w, P w -> P (snd (m w)).

(** A world whose only stored key is cached with a TTL of one minute,
    set at time 1000. *)
Definition short_lived_world : World :=
  snd (storageService.setItem "k" (VNum 7) (Some 1) (fresh_world 1000)).

(** ** Collections of untyped records *)

(** [v.id === i] *)
Definition has_id (i : string) (v : value) : bool :=
  strict_equals_string (field v "id") i.

(** [{ ...v, ...updates }] *)
Definition patched (updates : list (string * value)) (v : value) : value :=
  VObj (merge_fields (own_fields v) updates).

(** The value an object literal [{ ...base, ...patch }] has under [k]:
    the last one [patch] gives it, else the one of [base]. *)
Definition merged_lookup (k : string) (base patch : list (string * value))
  : option value :=
  match assoc k (rev patch) with
  | Some u => Some u
  | None => assoc k base
  end.

Definition second_appointment : value :=
  VObj [("id", VStr "a2"); ("patientId", VStr "p2"); ("status", VStr "pending")].

(** A store whose appointment collection is the two sample appointments. *)
Definition two_appointments : World :=
  snd (storageService.saveAppointments [sample_appointment; second_appointment]
         (fresh_world 0)).

(** A store whose appointment collection holds a null. *)
Definition holed_appointments : World :=
  snd (storageService.saveAppointments [sample_appointment; VNull] (fresh_world 0)).

(** A stored collection on which [.map] and [.filter] with a callback
    that reads [x.id] throw: it is not an array, or it holds a null. *)
Definition malformed_collection (stored : value) : Prop :=
  match stored with
  | VArr items => VNull ∈ items
  | _ => True
  end.

(** ** Settings and snapshots *)

(** What createBackup serializes. *)
Definition snapshot_of (stamp : string) (appointments notifications users settings : value)
  : value :=
  VObj [("timestamp", VStr stamp);
        ("data", VObj [("appointments", appointments);
                       ("notifications", notifications);
                       ("registeredUsers", users);
                       ("settings", settings)])].

(** What [getItem key defaultValue] answers in [w]. *)
Definition reads `{JsRuntime} (key : string) (defaultValue : value) (w : World) : value :=
  match fst (storageService.getItem key (Some defaultValue) w) with
  | Ok v => v
  | Throw _ => VNull
  end.

(** Two stored appointments, nothing cached, and the four reads of a
    backup rejected. *)
Definition unreadable_world : World :=
  with_faults [true; true; true; true] (with_cache ∅ two_appointments).

(** The four sections with the default restoreFromBackup and
    createBackup give each. *)
Definition section_defaults : list (string * value) :=
  [(STORAGE_KEYS.APPOINTMENTS, VArr []); (STORAGE_KEYS.NOTIFICATIONS, VArr []);
   (STORAGE_KEYS.REGISTERED_USERS, VArr []); (STORAGE_KEYS.APP_SETTINGS, VObj [])].

(** The snapshot createBackup takes of a store that rejects nothing. *)
Definition snapshot_at `{JsRuntime} (w : World) : value :=
  snapshot_of (Date_toISOString (clock w))
    (reads STORAGE_KEYS.APPOINTMENTS (VArr []) w)
    (reads STORAGE_KEYS.NOTIFICATIONS (VArr []) w)
    (reads STORAGE_KEYS.REGISTERED_USERS (VArr []) w)
    (reads STORAGE_KEYS.APP_SETTINGS (VObj []) w).

(** The runtime parses the text it prints for [v] back to [v]. *)
Definition reads_back `{JsRuntime} (v : value) : Prop :=
  JSON_parse (JSON_stringify v) = Some v.

(** ** Role-scoped statistics *)

(** The appointments of one doctor, and of one patient. *)
Definition of_doctor (doctorId : string) (appointments : list Appointment.t)
  : list Appointment.t :=
  filter (fun a => String.eqb (Appointment.doctorId a) doctorId = true) appointments.
Definition of_patient (patientId : string) (appointments : list Appointment.t)
  : list Appointment.t :=
  filter (fun a => String.eqb (Appointment.patientId a) patientId = true) appointments.

Definition sample_record (id patientId doctorId specialty : string) (st : Status)
  : Appointment.t :=
  Appointment.mk id patientId "Ana" doctorId "Dr. Silva" "15/01/2024" "10:00"
    specialty st.

(** Three appointments of doctor d1 and one of doctor d2. *)
Definition sample_records : list Appointment.t :=
  [sample_record "1" "p1" "d1" "Cardiologia" pending;
   sample_record "2" "p2" "d1" "Cardiologia" confirmed;
   sample_record "3" "p1" "d1" "Pediatria" cancelled;
   sample_record "4" "p1" "d2" "Ortopedia" pending].

Definition clinic_world : World :=
  with_disk {[ "@MedicalApp:appointments" :=
                 JSON_stringify (VArr (map Appointment_value sample_records)) ]}
    (fresh_world 1700000000000).

(** The clinic with text under the users key that is not JSON. *)
Definition broken_users_world : World :=
  with_disk (<[ "@MedicalApp:registeredUsers" := "not json" ]> (disk clinic_world))
    clinic_world.

(** What a doctor without appointments is told. *)
Definition empty_DoctorStatistics : DoctorStatistics :=
  {| doctor_totalAppointments := 0;
     doctor_confirmedAppointments := 0;
     doctor_pendingAppointments := 0;
     doctor_cancelledAppointments := 0;
     doctor_totalPatients := 0;
     doctor_statusPercentages :=
       {| pct_confirmed := 0%float; pct_pending := 0%float; pct_cancelled := 0%float |} |}.

(** The text under the users key is there and is not JSON. *)
Definition users_unparsable `{JsRuntime} (w : World) : Prop :=
  exists s, disk w !! "@MedicalApp:registeredUsers" = Some s
            /\ nonempty s = true /\ JSON_parse s = None.

(** ** The notification list before and after a mutation *)

(** The text JSON.stringify writes for [l] is not empty and parses back
    to what was written. *)
Definition notifications_read_back `{JsRuntime} (l : list Notification.t) : Prop :=
  nonempty (notificationService.stringify_notifications l) = true
  /\ reads_back (VArr (map Notification_value l)).

Definition of_user (userId : string) (l : list Notification.t) : list Notification.t :=
  filter (fun n => String.eqb (Notification.userId n) userId = true) l.

(** The unread notifications of a user in a stored list. *)
Definition unread_of (userId : string) (l : list Notification.t) : nat :=
  length (filter (fun n => Notification.userId n = userId
                           /\ Notification.read n = false) l).

(** [n.userId === userId ? { ...n, read: true } : n] *)
Definition mark_of_user (userId : string) (n : Notification.t) : Notification.t :=
  if String.eqb (Notification.userId n) userId then Notification.mark_read n else n.

(** [n.id === notificationId ? { ...n, read: true } : n] *)
Definition mark_with_id (notificationId : string) (n : Notification.t)
  : Notification.t :=
  if String.eqb (Notification.id n) notificationId then Notification.mark_read n else n.

(** [n.id !== notificationId] *)
Definition without_id (notificationId : string) (l : list Notification.t)
  : list Notification.t :=
  filter (fun n => negb (String.eqb (Notification.id n) notificationId) = true) l.

(** [new Date(n.createdAt).getTime()] *)
Definition created_at `{JsRuntime} (n : Notification.t) : option Z :=
  Date_getTime (Notification.createdAt n).

(** Both creation dates parse and [a] is not older than [b]. *)
Definition not_older `{JsRuntime} (a b : Notification.t) : Prop :=
  exists ta tb, created_at a = Some ta /\ created_at b = Some tb /\ tb <= ta.

(** The world a read-modify-write of the notification list leaves when
    both calls succeed and [l] is what it writes. *)
Definition rewritten `{JsRuntime} (l : list Notification.t) (w : World) : World :=
  with_disk (<[STORAGE_KEY := notificationService.stringify_notifications l]> (disk w))
    (after_call (after_call w)).

(** The sample notifications with the next read rejected, and a store
    whose notification text is cut short. *)
Definition read_rejected_inbox : World := with_faults [true] notified_world.
Definition corrupt_inbox : World :=
  with_disk {[ STORAGE_KEY := "[{" ]} (fresh_world 1700000000000).

(** Two notifications that carry the same id, for two users. *)
Definition twin_notifications : list Notification.t :=
  [sample_notification "7" "u1" false "2024-01-15T10:00:00.000Z";
   sample_notification "7" "u2" false "2024-01-15T10:00:00.000Z";
   sample_notification "8" "u1" false "2024-01-16T10:00:00.000Z"].

Definition twin_world : World :=
  with_disk {[ STORAGE_KEY := notificationService.stringify_notifications
                                twin_notifications ]}
    (fresh_world 1700000000000).

(** ** Writers that go to AsyncStorage directly *)

(** The cache and the clock of [w] are those of [w0]. *)
Definition same_cache (w0 w : World) : Prop :=
  cache w = cache w0 /\ clock w = clock w0.

(** [w'] is what one call of a writer that does not go through
    storageService leaves of [w]. *)
Inductive direct_write `{JsRuntime} (w : World) : World -> Prop :=
  | direct_createNotification (p : NewNotification.t) :
      direct_write w (snd (notificationService.createNotification p w))
  | direct_markAsRead (notificationId : string) :
      direct_write w (snd (notificationService.markAsRead notificationId w))
  | direct_markAllAsRead (userId : string) :
      direct_write w (snd (notificationService.markAllAsRead userId w))
  | direct_deleteNotification (notificationId : string) :
      direct_write w (snd (notificationService.deleteNotification notificationId w))
  | direct_createAppointment (date selectedTime : string) (selectedDoctor : Doctor.t)
      (user : option User.t) :
      direct_write w
        (snd (appointmentService.createAppointment date selectedTime selectedDoctor
                user w)).

(** The sample notifications after storageService has read them once,
    and that store after a notification has been created. *)
Definition cached_inbox : World := snd (storageService.getNotifications notified_world).
Definition cached_inbox_after_create : World :=
  snd (notificationService.createNotification confirmed_notice cached_inbox).

(** ** Notifications about an appointment *)

(** An unread notification of type [ty] addressed to [userId] and
    linked to [appointment]. *)
Definition announces (userId : string) (appointment : Appointment.t)
    (ty : NotificationType) (n : Notification.t) : Prop :=
  Notification.userId n = userId
  /\ Notification.appointmentId n = Some (Appointment.id appointment)
  /\ Notification.type n = ty
  /\ Notification.read n = false.

(** [n] carries the id and the creation date of a notification made
    while the clock of [w] stands. *)
Definition stamped `{JsRuntime} (w : World) (n : Notification.t) : Prop :=
  Notification.id n = Number_toString (clock w)
  /\ Notification.createdAt n = Date_toISOString (clock w).

(** An appointment that names no doctor. *)
Definition walk_in : Appointment.t :=
  Appointment.mk "9" "p1" "Ana" "d1" EmptyString "15/01/2024" "10:00" "Cardiologia"
    pending.

(** ** Booking an appointment *)

(** The raw array createAppointment reads under [key]: empty when the
    key is absent or holds the empty string, undefined when the text is
    not the JSON of an array. *)
Definition stored_items `{JsRuntime} (key : string) (w : World) : option (list value) :=
  match disk w !! key with
  | Some s =>
      if nonempty s then
        match JSON_parse s with
        | Some (VArr items) => Some items
        | _ => None
        end
      else Some []
  | None => Some []
  end.

(** The appointment a booking made in [w] creates, and the notification
    that announces it to the doctor. *)
Definition booked `{JsRuntime} (date selectedTime : string) (selectedDoctor : Doctor.t)
    (user : option User.t) (w : World) : Appointment.t :=
  appointmentService.newAppointment date selectedTime selectedDoctor user (clock w).

Definition booking_notice `{JsRuntime} (date selectedTime : string)
    (selectedDoctor : Doctor.t) (user : option User.t) (w : World) : Notification.t :=
  {| Notification.id := Number_toString (clock w);
     Notification.userId := Doctor.id selectedDoctor;
     Notification.title := "Nova Consulta Agendada";
     Notification.message :=
       from_option User.name EmptyString user
       +:+ " agendou uma consulta para " +:+ date +:+ " às " +:+ selectedTime +:+ ".";
     Notification.type := general;
     Notification.read := false;
     Notification.createdAt := Date_toISOString (clock w);
     Notification.appointmentId := Some (Number_toString (clock w)) |}.

(** The text of the appointment list with the booking appended. *)
Definition booked_text `{JsRuntime} (items : list value) (a : Appointment.t) : string :=
  JSON_stringify (VArr (items ++ [Appointment_value a])).

(** The world after the appointment has been written. *)
Definition appointment_written `{JsRuntime} (items : list value) (a : Appointment.t)
    (w : World) : World :=
  with_disk (<["@MedicalApp:appointments" := booked_text items a]> (disk w))
    (after_call (after_call w)).

Definition dr_silva : Doctor.t :=
  Doctor.mk "d1" "Dr. Silva" "Cardiologia" "https://randomuser.me/api/portraits/men/1.jpg".
Definition ana : User.t := User.mk "p1" "Ana".

(** The clinic with a store that rejects the write of the appointment,
    with one that rejects the read of the notifications, and with the
    JSON of an object where the appointment list should be. *)
Definition clinic_write_rejected : World := with_faults [false; true] clinic_world.
Definition clinic_notice_rejected : World :=
  with_faults [false; false; true] clinic_world.
Definition clinic_with_object : World :=
  with_disk {[ "@MedicalApp:appointments" := "{}" ]} (fresh_world 1700000000000).

(** ** Counter objects keyed by free text *)

(** The counts a specialties object holds, added up; a property that
    holds a string counts for nothing. *)
Definition tally_total (obj : gmap string tally) : nat :=
  histogram_total (omap count_of obj).

(** The appointments whose specialty does not name a property inherited
    from Object.prototype. *)
Definition plainly_named (appointments : list Appointment.t) : list Appointment.t :=
  filter (fun a => inherited (Appointment.specialty a) = false) appointments.

(** Counts sit under names that are not inherited, strings under
    inherited ones, and [__proto__] is no own property. *)
Definition well_kept (obj : gmap string tally) : Prop :=
  obj !! "__proto__" = None
  /\ forall k, match obj !! k with
               | Some (Times _) => inherited k = false
               | Some Concatenated => inherited k = true
               | None => True
               end.

(** The clinic with two more appointments, whose specialties are names
    of Object.prototype. *)
Definition prototype_named_records : list Appointment.t :=
  (sample_records
   ++ [sample_record "5" "p1" "d1" "constructor" pending;
       sample_record "6" "p1" "d1" "__proto__" pending])%list.

Definition prototype_named_world : World :=
  with_disk {[ "@MedicalApp:appointments" :=
                 JSON_stringify (VArr (map Appointment_value prototype_named_records)) ]}
    (fresh_world 1700000000000).

(** A store whose only cached key is [__proto__]. *)
Definition proto_cached_world : World :=
  written "__proto__" (VNum 1) None (fresh_world 1000).

(** Running [op] in [w] delivers [n] to [userId]: provided the list
    with [n] appended reads back once written, [op] resolves without
    logging, and afterwards the user has one more unread notification
    and is answered one notification more, [n] among them. *)
Definition delivers `{JsRuntime} (op : M unit) (userId : string) (n : Notification.t)
    (stored : list Notification.t) (w : World) : Prop :=
  notifications_read_back (stored ++ [n]) ->
  exists w' l,
    op w = (Ok tt, w')
    /\ console w' = console w
    /\ fst (notificationService.getUnreadCount userId w')
       = Ok (S (unread_of userId stored))
    /\ fst (notificationService.getNotifications userId w') = Ok l
    /\ n ∈ l
    /\ length l = S (length (of_user userId stored)).

(** * Properties *)

(** ** Running the monad *)

Lemma io_succeeds (w : World) :
  next_call_succeeds w -> io w = (Ok tt, after_call w).
Proof.
  unfold next_call_succeeds, io, after_call. destruct w as [c d t f l]; simpl.
  destruct f as [|[] f]; simpl; intros Hn; try reflexivity. now elim Hn.
Qed.

Lemma io_rejects (w : World) (rest : list bool) :
  faults w = true :: rest -> io w = (Throw IOError, with_faults rest w).
Proof. unfold io. intros ->. reflexivity. Qed.

Lemma io_disk (w w' : World) (r : result unit) :
  io w = (r, w') ->
  disk w' = disk w /\ cache w' = cache w /\ clock w' = clock w /\ console w' = console w.
Proof.
  unfold io. destruct (faults w) as [|[] f]; intros [= <- <-]; simpl; auto.
Qed.

Lemma AsyncStorage_getItem_succeeds (key : string) (w : World) :
  next_call_succeeds w ->
  AsyncStorage_getItem key w = (Ok (disk w !! key), after_call w).
Proof.
  intros Hn. unfold AsyncStorage_getItem, bind. rewrite (io_succeeds w Hn). reflexivity.
Qed.

Lemma AsyncStorage_setItem_succeeds (key v : string) (w : World) :
  next_call_succeeds w ->
  AsyncStorage_setItem key v w
  = (Ok tt, with_disk (<[key := v]> (disk w)) (after_call w)).
Proof.
  intros Hn. unfold AsyncStorage_setItem, bind. rewrite (io_succeeds w Hn). reflexivity.
Qed.

(** A call that throws has not touched the stored items. *)
Lemma AsyncStorage_getItem_disk (key : string) (w w' : World) (r : result (option string)) :
  AsyncStorage_getItem key w = (r, w') ->
  disk w' = disk w /\ cache w' = cache w /\ clock w' = clock w /\ console w' = console w.
Proof.
  unfold AsyncStorage_getItem, bind, gets. destruct (io w) as [[[]|e] w1] eqn:E;
    intros [= <- <-]; exact (io_disk _ _ _ E).
Qed.

Lemma AsyncStorage_setItem_throws (key v : string) (w w' : World) (e : error) :
  AsyncStorage_setItem key v w = (Throw e, w') ->
  disk w' = disk w /\ cache w' = cache w /\ clock w' = clock w /\ console w' = console w.
Proof.
  unfold AsyncStorage_setItem, bind, modify. destruct (io w) as [[[]|e'] w1] eqn:E;
    intros [= <- <-]. exact (io_disk _ _ _ E).
Qed.

Lemma calls_succeed_next (n : nat) (w : World) :
  calls_succeed (S n) w -> next_call_succeeds w /\ calls_succeed n (after_call w).
Proof.
  unfold calls_succeed, next_call_succeeds, after_call.
  destruct w as [c d t f l]; simpl. destruct f as [|b f]; simpl.
  - intros _. split; [discriminate|]. destruct n; constructor.
  - intros Hf. inversion Hf; subst. split; [discriminate | assumption].
Qed.

(** ** What is stored, at an interface type *)

Lemma parse_or_empty_stored `{JsRuntime} {T} (conv : value -> option T)
    (key : string) (w w' : World) (l : list T) :
  stored_list conv key w = Some l ->
  parse_or_empty conv (disk w !! key) w' = (Ok l, w').
Proof.
  unfold stored_list, parse_or_empty, parse_as, parse_json, bind.
  destruct (disk w !! key) as [s|]; [|intros [= <-]; reflexivity].
  destruct (nonempty s); [|intros [= <-]; reflexivity].
  destruct (JSON_parse s) as [v|]; simpl; [|discriminate].
  unfold ret. simpl. intros ->. reflexivity.
Qed.

Lemma parse_or_empty_inv `{JsRuntime} {T} (conv : value -> option T)
    (key : string) (w w1 w2 : World) (l : list T) :
  parse_or_empty conv (disk w !! key) w1 = (Ok l, w2) ->
  stored_list conv key w = Some l /\ w2 = w1.
Proof.
  unfold stored_list, parse_or_empty, parse_as, parse_json, bind, ret, throw.
  destruct (disk w !! key) as [s|]; [|intros [= <- <-]; auto].
  destruct (nonempty s); [|intros [= <- <-]; auto].
  destruct (JSON_parse s) as [v|]; simpl; [|discriminate].
  destruct (as_list conv v); intros [= <- <-]; auto.
Qed.

(** Parsing changes nothing in the world, whether it throws or not. *)
Lemma parse_or_empty_world `{JsRuntime} {T} (conv : value -> option T)
    (stored : option string) (w w' : World) (r : result (list T)) :
  parse_or_empty conv stored w = (r, w') -> w' = w.
Proof.
  unfold parse_or_empty, parse_as, parse_json, bind, ret, throw.
  destruct stored as [s|]; [|intros [= <- <-]; auto].
  destruct (nonempty s); [|intros [= <- <-]; auto].
  destruct (JSON_parse s) as [v|]; simpl; [|intros [= <- <-]; auto].
  destruct (as_list conv v); intros [= <- <-]; auto.
Qed.

(** ** statisticsService *)

(** The try block around the month key never throws: [split] is defined
    on every string, so the handler that skips a record is not reached. *)
Lemma month_step_runs (acc : gmap string nat) (a : Appointment.t) (w : World) :
  month_step acc a w = (Ok (bump (month_key a) acc), w).
Proof. reflexivity. Qed.

Lemma forEach_month_step (appointments : list Appointment.t) (acc : gmap string nat)
    (w : World) :
  forEach appointments month_step acc w
  = (Ok (fold_left (fun acc a => bump (month_key a) acc) appointments acc), w).
Proof.
  revert acc. induction appointments as [|a rest IH]; intros acc; simpl.
  - reflexivity.
  - unfold bind. rewrite month_step_runs. apply IH.
Qed.

Lemma getGeneralStatistics_runs `{JsRuntime} (w : World) (appointments : list Appointment.t) :
  calls_succeed 2 w ->
  stored_list as_Appointment "@MedicalApp:appointments" w = Some appointments ->
  users_parse w ->
  statisticsService.getGeneralStatistics w
  = (Ok (statistics_of appointments), after_call (after_call w)).
Proof.
  intros Hc Hs Hu.
  apply calls_succeed_next in Hc as [Hn1 Hc].
  apply calls_succeed_next in Hc as [Hn2 _].
  unfold statisticsService.getGeneralStatistics, try_catch, bind.
  rewrite (AsyncStorage_getItem_succeeds _ w Hn1).
  rewrite (parse_or_empty_stored _ _ w _ _ Hs).
  rewrite (AsyncStorage_getItem_succeeds _ _ Hn2).
  unfold users_parse in Hu.
  change (disk (after_call w)) with (disk w).
  assert (Husers : exists u,
    match disk w !! "@MedicalApp:registeredUsers" with
    | Some s => if nonempty s then parse_json s else ret (VArr [])
    | None => ret (VArr [])
    end (after_call (after_call w)) = (Ok u, after_call (after_call w))).
  { destruct (disk w !! "@MedicalApp:registeredUsers") as [s|]; [|eexists; reflexivity].
    destruct (nonempty s); [|eexists; reflexivity].
    destruct Hu as [u Hu]. exists u. unfold parse_json. rewrite Hu. reflexivity. }
  destruct Husers as [u ->].
  rewrite forEach_month_step. reflexivity.
Qed.

Lemma bump_insert (k : string) (m : gmap string nat) :
  bump k m = <[k := (default 0%nat (m !! k) + 1)%nat]> m.
Proof.
  unfold bump. destruct (m !! k) as [n|]; simpl; [|reflexivity].
  destruct n; reflexivity.
Qed.

Lemma histogram_total_bump (k : string) (m : gmap string nat) :
  histogram_total (bump k m) = S (histogram_total m).
Proof.
  rewrite bump_insert. unfold histogram_total.
  destruct (m !! k) as [n|] eqn:E; simpl.
  - rewrite <- (insert_delete_eq m k).
    rewrite map_fold_insert_L; [|intros; lia|apply lookup_delete_eq].
    rewrite (map_fold_delete_L _ _ k n m); [lia|intros; lia|assumption].
  - rewrite map_fold_insert_L; [lia|intros; lia|assumption].
Qed.

(** Every appointment lands in exactly one month bucket, whatever its
    date string is. *)
Lemma month_histogram_total (appointments : list Appointment.t) :
  histogram_total (month_histogram appointments) = length appointments.
Proof.
  unfold month_histogram.
  assert (G : forall acc,
    histogram_total (fold_left (fun acc a => bump (month_key a) acc) appointments acc)
    = (length appointments + histogram_total acc)%nat).
  { induction appointments as [|a rest IH]; intros acc; simpl; [reflexivity|].
    rewrite IH, histogram_total_bump. lia. }
  rewrite G. unfold histogram_total. rewrite map_fold_empty. lia.
Qed.

(** C2, evaluated on a stored appointment whose date is "2024-01-15":
    the record is counted in totalAppointments and in the pending count,
    and it is not skipped from the month histogram: it is counted under
    the key "undefined/undefined". *)
Theorem malformed_date_lands_in_a_bucket :
  exists s w',
    statisticsService.getGeneralStatistics iso_dated_world = (Ok s, w')
    /\ totalAppointments s = 1%nat
    /\ pendingAppointments s = 1%nat
    /\ appointmentsByMonth s = {[ "undefined/undefined" := 1%nat ]}
    /\ console w' = [].
Proof.
  eexists _, _. split; [vm_compute; reflexivity|].
  repeat split; vm_compute; reflexivity.
Qed.

(** No record is left out of the month histogram of a run. *)
Lemma getGeneralStatistics_counts_every_record `{JsRuntime}
    (w : World) (appointments : list Appointment.t) :
  calls_succeed 2 w ->
  stored_list as_Appointment "@MedicalApp:appointments" w = Some appointments ->
  users_parse w ->
  exists s w',
    statisticsService.getGeneralStatistics w = (Ok s, w')
    /\ histogram_total (appointmentsByMonth s) = totalAppointments s
    /\ console w' = console w.
Proof.
  intros Hc Hs Hu. eexists _, _. split.
  { apply getGeneralStatistics_runs; eassumption. }
  split; [apply month_histogram_total | reflexivity].
Qed.

Lemma percentage_zero_total (count : nat) : percentage count 0 = 0%float.
Proof. reflexivity. Qed.

(** Without the guard the quotient on an empty set would be NaN. *)
Lemma unguarded_percentage_is_nan :
  PrimFloat.is_nan (number_of_nat 0 / number_of_nat 0 * 100)%float = true.
Proof. reflexivity. Qed.

(** C8. When the two reads succeed and the stored appointments are
    [appointments], getGeneralStatistics resolves and each status
    percentage is count / total * 100 (in binary64 arithmetic) when the
    total is positive and 0 when the total is 0; on an empty appointment
    set all three percentages are 0 and not NaN. *)
Theorem status_percentages_guard_zero_total `{JsRuntime}
    (w : World) (appointments : list Appointment.t) :
  calls_succeed 2 w ->
  stored_list as_Appointment "@MedicalApp:appointments" w = Some appointments ->
  users_parse w ->
  exists s w',
    statisticsService.getGeneralStatistics w = (Ok s, w')
    /\ totalAppointments s = length appointments
    /\ (forall st,
          let count := count_status st appointments in
          let total := length appointments in
          (match st with
           | confirmed => pct_confirmed
           | pending => pct_pending
           | cancelled => pct_cancelled
           end) (statusPercentages s)
          = if (0 <? total)%nat
            then (number_of_nat count / number_of_nat total * 100)%float
            else 0%float)
    /\ (appointments = [] ->
        statusPercentages s = mkStatusPercentages 0 0 0
        /\ PrimFloat.is_nan (pct_confirmed (statusPercentages s)) = false
        /\ PrimFloat.is_nan (pct_pending (statusPercentages s)) = false
        /\ PrimFloat.is_nan (pct_cancelled (statusPercentages s)) = false).
Proof.
  intros Hc Hs Hu. eexists _, _. split.
  { apply getGeneralStatistics_runs; eassumption. }
  split; [reflexivity|]. split.
  - intros [] count total; reflexivity.
  - intros ->. repeat split; reflexivity.
Qed.

Lemma status_percentages_guard_zero_total_witness :
  exists s w',
    statisticsService.getGeneralStatistics (fresh_world 0) = (Ok s, w')
    /\ statusPercentages s = mkStatusPercentages 0 0 0.
Proof.
  destruct (status_percentages_guard_zero_total (fresh_world 0) [])
    as (s & w' & Hrun & _ & _ & Hzero).
  - unfold calls_succeed. simpl. constructor.
  - reflexivity.
  - exact I.
  - exists s, w'. split; [exact Hrun|]. apply Hzero. reflexivity.
Defined.

(** ** Structural equality *)

Lemma value_nested_ind (P : value -> Prop) :
  P VNull -> (forall b, P (VBool b)) -> (forall n, P (VNum n)) ->
  (forall s, P (VStr s)) ->
  (forall items, Forall P items -> P (VArr items)) ->
  (forall fields, Forall (fun kv => P (snd kv)) fields -> P (VObj fields)) ->
  forall v, P v.
Proof.
  intros HN HB HZ HS HA HO. fix IH 1. intros [ | b | n | s | items | fields].
  - exact HN.
  - apply HB.
  - apply HZ.
  - apply HS.
  - apply HA. induction items as [|x items IHitems]; constructor;
      [apply IH | exact IHitems].
  - apply HO. induction fields as [|[k x] fields IHfields]; constructor;
      [apply IH | exact IHfields].
Qed.

Lemma value_eqb_eq (a b : value) : value_eqb a b = true <-> a = b.
Proof.
  revert b. induction a as [ | x | x | x | xs IH | xs IH] using value_nested_ind;
    intros [ | y | y | y | ys | ys]; simpl; try (split; [discriminate|congruence]);
    try (split; congruence).
  - rewrite Bool.eqb_true_iff. split; congruence.
  - rewrite Z.eqb_eq. split; congruence.
  - rewrite String.eqb_eq. split; congruence.
  - revert ys. induction IH as [|x xs Hx _ IHxs]; intros [|y ys];
      try (split; [discriminate|congruence]); [split; reflexivity|].
    rewrite andb_true_iff, Hx, (IHxs ys). split.
    + intros [-> [= ->]]. reflexivity.
    + intros [= -> ->]. auto.
  - revert ys. induction IH as [|[k x] xs Hx _ IHxs]; intros [|[k' y] ys];
      try (split; [discriminate|congruence]); [split; reflexivity|].
    simpl in Hx. rewrite !andb_true_iff, String.eqb_eq, Hx, (IHxs ys). split.
    + intros [[-> ->] [= ->]]. reflexivity.
    + intros [= -> -> ->]. auto.
Qed.

Lemma value_eqb_refl (a : value) : value_eqb a a = true.
Proof. apply value_eqb_eq. reflexivity. Qed.

Lemma occurrences_app (x : value) (l1 l2 : list value) :
  occurrences x (l1 ++ l2) = (occurrences x l1 + occurrences x l2)%nat.
Proof. unfold occurrences. rewrite filter_app, length_app. reflexivity. Qed.

Lemma occurrences_self (x : value) : occurrences x [x] = 1%nat.
Proof.
  unfold occurrences. rewrite filter_cons, decide_True by apply value_eqb_refl.
  reflexivity.
Qed.

(** [occurrences] counts the elements equal to [x]. *)
Lemma occurrences_zero (x : value) (l : list value) :
  occurrences x l = 0%nat <-> x ∉ l.
Proof.
  unfold occurrences. induction l as [|y l IH]; simpl.
  - split; [intros _; apply not_elem_of_nil | reflexivity].
  - rewrite filter_cons, not_elem_of_cons. destruct (decide (value_eqb x y = true)) as [E|E].
    + simpl. split; [discriminate|]. intros [Hne _]. apply value_eqb_eq in E. contradiction.
    + rewrite IH. split; [|tauto]. intros Hl. split; [|exact Hl].
      intros ->. apply E, value_eqb_refl.
Qed.

(** ** storageService: setItem and getItem *)

Lemma setItem_succeeds `{JsRuntime} (key : string) (v : value)
    (expiryMinutes : option Z) (w : World) :
  next_call_succeeds w ->
  storageService.setItem key v expiryMinutes w = (Ok tt, written key v expiryMinutes w).
Proof.
  intros Hn. unfold storageService.setItem, try_catch, bind.
  rewrite (AsyncStorage_setItem_succeeds _ _ w Hn). reflexivity.
Qed.

Lemma setItem_rejects `{JsRuntime} (key : string) (v : value)
    (expiryMinutes : option Z) (w : World) (rest : list bool) :
  faults w = true :: rest ->
  storageService.setItem key v expiryMinutes w
  = (Throw IOError,
     with_console (console w ++ ["Erro ao salvar " +:+ key +:+ ":"]) (with_faults rest w)).
Proof.
  intros Hf. unfold storageService.setItem, try_catch, bind, AsyncStorage_setItem, bind.
  rewrite (io_rejects w rest Hf). reflexivity.
Qed.

Lemma next_call_cases (w : World) :
  next_call_succeeds w \/ exists rest, faults w = true :: rest.
Proof.
  unfold next_call_succeeds. destruct (faults w) as [|[] rest]; simpl.
  - left. discriminate.
  - right. eauto.
  - left. discriminate.
Qed.

Lemma setItem_resolved `{JsRuntime} (key : string) (v : value)
    (expiryMinutes : option Z) (w w1 : World) :
  storageService.setItem key v expiryMinutes w = (Ok tt, w1) ->
  w1 = written key v expiryMinutes w.
Proof.
  destruct (next_call_cases w) as [Hn|[rest Hf]].
  - rewrite (setItem_succeeds _ _ _ _ Hn). congruence.
  - rewrite (setItem_rejects _ _ _ _ _ Hf). discriminate.
Qed.

(** A cache hit: nothing else is consulted and nothing changes. *)
Lemma getItem_cached `{JsRuntime} (key : string) (defaultValue : option value)
    (w : World) (c : CacheItem) :
  cache w !! key = Some c ->
  cache_valid c (clock w) = true ->
  storageService.getItem key defaultValue w = (Ok (data c), w).
Proof.
  intros Hc Hv. unfold storageService.getItem, try_catch, bind, gets.
  rewrite Hc. unfold Date_now, gets. simpl. rewrite Hv. reflexivity.
Qed.

(** Reads never throw. *)
Lemma getItem_never_throws `{JsRuntime} (key : string) (defaultValue : option value)
    (w : World) :
  exists v w', storageService.getItem key defaultValue w = (Ok v, w').
Proof.
  unfold storageService.getItem, try_catch.
  match goal with |- context [match ?body w with _ => _ end] =>
    destruct (body w) as [[v|e] w1] end.
  - eauto.
  - unfold bind, console_error, modify, ret. eauto.
Qed.

(** On an absent key, and on a read that rejects, the result is
    [defaultValue || null]. *)
Lemma getItem_absent `{JsRuntime} (key : string) (defaultValue : option value)
    (w : World) :
  absent key w ->
  fst (storageService.getItem key defaultValue w) = Ok (or_else defaultValue VNull).
Proof.
  intros [Hc Hd]. unfold storageService.getItem, try_catch, bind, gets.
  rewrite Hc. unfold ret at 1. simpl.
  unfold AsyncStorage_getItem, bind, gets.
  destruct (io w) as [[[]|e] w1] eqn:E.
  - destruct (io_disk _ _ _ E) as (-> & _). rewrite Hd. reflexivity.
  - reflexivity.
Qed.

Lemma getItem_read_rejected `{JsRuntime} (key : string) (defaultValue : option value)
    (w : World) (rest : list bool) :
  cache w !! key = None ->
  faults w = true :: rest ->
  fst (storageService.getItem key defaultValue w) = Ok (or_else defaultValue VNull).
Proof.
  intros Hc Hf. unfold storageService.getItem, try_catch, bind, gets.
  rewrite Hc. unfold ret at 1. simpl.
  unfold AsyncStorage_getItem, bind. rewrite (io_rejects w rest Hf). reflexivity.
Qed.

Lemma getItem_unparsable `{JsRuntime} (key : string) (defaultValue : option value)
    (w : World) (text : string) :
  cache w !! key = None ->
  next_call_succeeds w ->
  disk w !! key = Some text -> nonempty text = true -> JSON_parse text = None ->
  fst (storageService.getItem key defaultValue w) = Ok (or_else defaultValue VNull).
Proof.
  intros Hc Hn Hd Hne Hp. unfold storageService.getItem, try_catch, bind, gets.
  rewrite Hc. unfold ret at 1. simpl.
  rewrite (AsyncStorage_getItem_succeeds _ w Hn), Hd, Hne.
  unfold parse_json. rewrite Hp. reflexivity.
Qed.

(** C4. Round trip: when the write is not rejected, [setItem key v
    expiryMinutes] resolves, and from then on [getItem key] returns [v]
    in every world whose cache entry for [key] is the one written and
    whose clock is before the expiry of a configured TTL. *)
Theorem setItem_getItem_round_trip `{JsRuntime}
    (key : string) (v : value) (expiryMinutes : option Z) (w : World) :
  next_call_succeeds w ->
  exists w1,
    storageService.setItem key v expiryMinutes w = (Ok tt, w1)
    /\ forall (defaultValue : option value) (w2 : World),
         cache w2 !! key = cache w1 !! key ->
         (forall m, expiryMinutes = Some m -> m <> 0 ->
                    clock w2 < clock w1 + m * 60 * 1000) ->
         storageService.getItem key defaultValue w2 = (Ok v, w2).
Proof.
  intros Hn. exists (written key v expiryMinutes w).
  split; [apply setItem_succeeds; exact Hn|].
  intros defaultValue w2 Hcache Httl.
  unfold written in Hcache; simpl in Hcache. rewrite lookup_insert_eq in Hcache.
  rewrite (getItem_cached key defaultValue w2 _ Hcache); [reflexivity|].
  unfold cache_valid, expiry_of; simpl.
  destruct expiryMinutes as [m|]; [|reflexivity].
  destruct (Z.eqb_spec m 0) as [->|Hm]; [reflexivity|].
  apply orb_true_iff. right. apply Z.ltb_lt.
  apply (Httl m eq_refl Hm).
Qed.

Lemma setItem_getItem_round_trip_witness :
  storageService.setItem "k" (VNum 7) (Some 5) (fresh_world 1000) = (Ok tt, cached_world)
  /\ storageService.getItem "k" None (advance 299999 cached_world)
     = (Ok (VNum 7), advance 299999 cached_world).
Proof.
  destruct (setItem_getItem_round_trip "k" (VNum 7) (Some 5) (fresh_world 1000))
    as (w1 & Hset & Hget).
  - discriminate.
  - assert (w1 = cached_world) as ->.
    { unfold cached_world. rewrite setItem_succeeds in Hset by discriminate. congruence. }
    split; [exact Hset|]. apply Hget.
    + reflexivity.
    + intros m [= <-] _. vm_compute. reflexivity.
Defined.

(** C5, evaluated where the key is absent everywhere and the caller's
    default is the number 0: getItem does not throw, and it returns null
    instead of the default. *)
Theorem getItem_falsy_default_returns_null :
  absent "@MedicalApp:counter" (fresh_world 0)
  /\ storageService.getItem "@MedicalApp:counter" (Some (VNum 0)) (fresh_world 0)
     = (Ok VNull, fresh_world 0).
Proof. split; [split; reflexivity | vm_compute; reflexivity]. Qed.

(** What [defaultValue || null] is: the default when it is truthy, null
    when there is none or it is falsy. *)
Lemma or_else_null_truthy (d : value) :
  truthy d = true -> or_else (Some d) VNull = d.
Proof. simpl. intros ->. reflexivity. Qed.

Lemma or_else_null_falsy (d : value) :
  truthy d = false -> or_else (Some d) VNull = VNull.
Proof. simpl. intros ->. reflexivity. Qed.

(** ** storageService: the appointment collection *)

Lemma spread_world (v : value) (w w' : World) (r : result (list value)) :
  spread v w = (r, w') -> w' = w.
Proof. destruct v; simpl; unfold ret, throw; intros [= <- <-]; reflexivity. Qed.

(** C6, amended. Let the collection that getAppointments reads be the
    list [l]. When the write is not rejected, [addAppointment x]
    resolves and getAppointments then yields [l] with [x] appended at
    the end: [x] occurs once more than before, so exactly once when the
    stored collection did not already contain it. *)
Theorem addAppointment_appends_once_more `{JsRuntime}
    (x stored : value) (l : list value) (w w1 : World) :
  storageService.getAppointments w = (Ok stored, w1) ->
  spread stored w1 = (Ok l, w1) ->
  next_call_succeeds w1 ->
  exists w2,
    storageService.addAppointment x w = (Ok tt, w2)
    /\ storageService.getAppointments w2 = (Ok (VArr (l ++ [x])), w2)
    /\ occurrences x (l ++ [x]) = S (occurrences x l)
    /\ (x ∉ l -> occurrences x (l ++ [x]) = 1%nat).
Proof.
  intros Hget Hspread Hn.
  exists (written STORAGE_KEYS.APPOINTMENTS (VArr (l ++ [x])) None w1).
  repeat split.
  - unfold storageService.addAppointment, bind. rewrite Hget, Hspread.
    unfold storageService.saveAppointments. apply setItem_succeeds. exact Hn.
  - unfold storageService.getAppointments.
    apply (getItem_cached _ _ _
             {| data := VArr (l ++ [x]); timestamp := clock w1; expiry := None |}).
    + unfold written; simpl. apply lookup_insert_eq.
    + reflexivity.
  - rewrite occurrences_app, occurrences_self. lia.
  - intros Hnot. apply occurrences_zero in Hnot.
    rewrite occurrences_app, occurrences_self, Hnot. reflexivity.
Qed.

Lemma addAppointment_appends_once_more_witness :
  storageService.addAppointment sample_appointment (fresh_world 0) = (Ok tt, once_added)
  /\ storageService.getAppointments once_added
     = (Ok (VArr [sample_appointment]), once_added)
  /\ occurrences sample_appointment [sample_appointment] = 1%nat.
Proof.
  destruct (addAppointment_appends_once_more sample_appointment (VArr []) []
              (fresh_world 0) (fresh_world 0))
    as (w2 & Hadd & Hback & _ & Honce).
  - vm_compute. reflexivity.
  - reflexivity.
  - discriminate.
  - assert (w2 = once_added) as -> by (unfold once_added; rewrite Hadd; reflexivity).
    split; [exact Hadd|]. split; [exact Hback|].
    apply Honce. apply not_elem_of_nil.
Defined.

(** C6 as stated fails when the stored collection already holds [x]:
    adding the same appointment to a collection that consists of it
    yields a collection that contains it twice. *)
Lemma addAppointment_twice_counterexample :
  fst (storageService.getAppointments once_added) = Ok (VArr [sample_appointment])
  /\ storageService.addAppointment sample_appointment once_added = (Ok tt, twice_added)
  /\ fst (storageService.getAppointments twice_added)
     = Ok (VArr [sample_appointment; sample_appointment])
  /\ occurrences sample_appointment [sample_appointment; sample_appointment] = 2%nat.
Proof. repeat split; vm_compute; reflexivity. Qed.

(** ** storageService: restoreFromBackup *)

Lemma calls_before_rejection_none (n : nat) : calls_before_rejection n [] = n.
Proof. destruct n; reflexivity. Qed.

Lemma calls_before_rejection_next (n : nat) (w : World) :
  next_call_succeeds w ->
  calls_before_rejection (S n) (faults w)
  = S (calls_before_rejection n (faults (after_call w))).
Proof.
  unfold next_call_succeeds, after_call. destruct w as [c d t f l]; simpl.
  destruct f as [|[] f]; simpl; intros Hn.
  - rewrite calls_before_rejection_none. reflexivity.
  - now elim Hn.
  - reflexivity.
Qed.

Lemma section_unchanged_refl (key : string) (w : World) : section_unchanged key w w.
Proof. split; reflexivity. Qed.

Lemma section_unchanged_trans (key : string) (w1 w2 w3 : World) :
  section_unchanged key w1 w2 -> section_unchanged key w2 w3 ->
  section_unchanged key w1 w3.
Proof. intros [? ?] [? ?]. split; congruence. Qed.

Lemma write_all_spec `{JsRuntime} (plan : list (string * value)) (w : World) :
  NoDup plan.*1 ->
  let done := calls_before_rejection (length plan) (faults w) in
  let w' := snd (write_all plan w) in
  fst (write_all plan w)
    = (if decide (done = length plan) then Ok tt else Throw IOError)
  /\ (forall i key v, plan !! i = Some (key, v) -> (i < done)%nat ->
        section_replaced key v w')
  /\ (forall key, key ∉ (take done plan).*1 -> section_unchanged key w w').
Proof.
  revert w. induction plan as [|[k v] rest IH]; intros w Hnd.
  - simpl. repeat split; reflexivity || (intros; discriminate).
  - apply NoDup_cons in Hnd as [Hk Hnd].
    change (length ((k, v) :: rest)) with (S (length rest)).
    change (write_all ((k, v) :: rest) w)
      with (bind (storageService.setItem k v None) (fun _ => write_all rest) w).
    unfold bind.
    destruct (next_call_cases w) as [Hn|[fs Hf]].
    + rewrite (setItem_succeeds _ _ _ _ Hn).
      rewrite (calls_before_rejection_next _ _ Hn).
      set (w1 := written k v None w).
      destruct (IH w1 Hnd) as (Hr & Hrep & Hunch).
      change (faults w1) with (faults (after_call w)) in *.
      set (done := calls_before_rejection (length rest) (faults (after_call w))) in *.
      destruct (write_all rest w1) as [r w'] eqn:E; simpl in *.
      split; [|split].
      * rewrite Hr. repeat case_decide; try reflexivity; lia.
      * intros [|i] key u Hl Hi; simpl in Hl.
        -- injection Hl as <- <-.
           assert (Hu : section_unchanged k w1 w').
           { apply Hunch. intros Hin. apply Hk.
             rewrite fmap_take in Hin. apply elem_of_take in Hin as (j & Hj & _).
             eapply list_elem_of_lookup_2; eassumption. }
           destruct Hu as [Hd Hc]. split.
           ++ rewrite Hd. unfold w1, written; simpl. apply lookup_insert_eq.
           ++ rewrite Hc. unfold w1, written; simpl. rewrite lookup_insert_eq. reflexivity.
        -- apply (Hrep i key u Hl). lia.
      * intros key Hkey. rewrite not_elem_of_cons in Hkey. destruct Hkey as [Hne Hkey].
        apply section_unchanged_trans with w1; [|apply Hunch; exact Hkey].
        unfold w1, written, section_unchanged; simpl.
        rewrite !lookup_insert_ne by congruence. split; reflexivity.
    + rewrite (setItem_rejects _ _ _ _ _ Hf). rewrite Hf. simpl.
      split; [reflexivity|]. split.
      * intros i key u _ Hi. lia.
      * intros key _. split; reflexivity.
Qed.

Lemma get_prop_field (d : value) (k : string) (w : World) :
  d <> VNull -> get_prop d k w = (Ok (field d k), w).
Proof. destruct d; simpl; intros Hd; try reflexivity. now elim Hd. Qed.

Lemma truthy_not_null (d : value) : truthy d = true -> d <> VNull.
Proof. intros Ht ->. discriminate. Qed.

(** With a truthy [backup.data], restoreFromBackup is the four writes of
    the plan inside its try/catch. *)
Lemma restoreFromBackup_writes `{JsRuntime} (s : string) (w : World) (backup d : value) :
  JSON_parse s = Some backup -> field backup "data" = Some d -> truthy d = true ->
  storageService.restoreFromBackup s w
  = try_catch (write_all (restore_plan d))
      (fun e => console_error "Erro ao restaurar backup:" ;; throw e) w.
Proof.
  intros Hp Hf Ht. pose proof (truthy_not_null d Ht) as Hd.
  unfold storageService.restoreFromBackup, try_catch. f_equal.
  unfold bind at 1. unfold parse_json. rewrite Hp. unfold ret at 1.
  unfold bind at 1. rewrite get_prop_field by (intros ->; discriminate).
  rewrite Hf, Ht. simpl. unfold bind.
  rewrite (get_prop_field d _ w Hd).
  destruct (storageService.setItem STORAGE_KEYS.APPOINTMENTS _ None w) as [[[]|e] w1];
    [|reflexivity].
  rewrite (get_prop_field d _ w1 Hd).
  destruct (storageService.setItem STORAGE_KEYS.NOTIFICATIONS _ None w1) as [[[]|e] w2];
    [|reflexivity].
  rewrite (get_prop_field d _ w2 Hd).
  destruct (storageService.setItem STORAGE_KEYS.REGISTERED_USERS _ None w2) as [[[]|e] w3];
    [|reflexivity].
  rewrite (get_prop_field d _ w3 Hd).
  destruct (storageService.setItem STORAGE_KEYS.APP_SETTINGS _ None w3) as [[[]|e] w4];
    reflexivity.
Qed.

Lemma restore_plan_NoDup (d : value) : NoDup (restore_plan d).*1.
Proof.
  change ((restore_plan d).*1) with sections.
  apply (bool_decide_unpack _). vm_compute. reflexivity.
Qed.

(** C1, amended. A snapshot that does not parse makes restoreFromBackup
    throw with all four sections unchanged. A snapshot with a truthy
    [data] is applied section by section, in the order appointments,
    notifications, registeredUsers, settings: the sections written before
    the first rejected write are replaced from the snapshot, that section
    and the later ones are unchanged, and the call resolves exactly when
    all four writes succeeded; so all four are replaced whenever it
    resolves, and whenever AsyncStorage rejects nothing. *)
Theorem restoreFromBackup_applies_section_by_section `{JsRuntime}
    (s : string) (w : World) :
  let r := fst (storageService.restoreFromBackup s w) in
  let w' := snd (storageService.restoreFromBackup s w) in
  (JSON_parse s = None -> r = Throw SyntaxError /\ none_changed w w')
  /\ (forall backup d,
        JSON_parse s = Some backup -> field backup "data" = Some d ->
        truthy d = true ->
        let done := calls_before_rejection 4 (faults w) in
        r = (if decide (done = 4%nat) then Ok tt else Throw IOError)
        /\ (forall i key v, restore_plan d !! i = Some (key, v) ->
              ((i < done)%nat -> section_replaced key v w')
              /\ ((done <= i)%nat -> section_unchanged key w w'))
        /\ (r = Ok tt -> all_replaced d w')
        /\ (faults w = [] -> r = Ok tt)).
Proof.
  intros r w'. split.
  - intros Hp. subst r w'.
    unfold storageService.restoreFromBackup, try_catch, bind, parse_json.
    rewrite Hp. simpl. split; [reflexivity|].
    intros key _. split; reflexivity.
  - intros backup d Hp Hf Ht done. subst r w'.
    rewrite (restoreFromBackup_writes s w backup d Hp Hf Ht).
    destruct (write_all_spec (restore_plan d) w (restore_plan_NoDup d))
      as (Hr & Hrep & Hunch).
    change (length (restore_plan d)) with 4%nat in *. fold done in Hr, Hrep, Hunch.
    unfold try_catch.
    destruct (write_all (restore_plan d) w) as [[[]|e] w1] eqn:E; simpl in *.
    + assert (Hdone : done = 4%nat) by (case_decide; [assumption|discriminate]).
      split; [exact Hr|]. split; [|split].
      * intros i key v Hl. split; [apply (Hrep i key v Hl)|].
        intros Hi. apply lookup_lt_Some in Hl. simpl in Hl. lia.
      * intros _ key v Hin. apply list_elem_of_lookup_1 in Hin as [i Hi].
        apply (Hrep i key v Hi). apply lookup_lt_Some in Hi. simpl in Hi. lia.
      * intros _. reflexivity.
    + assert (Hdone : done <> 4%nat) by (case_decide; [discriminate|assumption]).
      split; [exact Hr|]. split; [|split].
      * intros i key v Hl. split.
        -- intros Hi. destruct (Hrep i key v Hl Hi) as [Hd Hc]. split; assumption.
        -- intros Hi.
           assert (Hu : section_unchanged key w w1).
           { apply Hunch. intros Hin. rewrite fmap_take in Hin.
             apply elem_of_take in Hin as (j & Hj & Hlt).
             assert (Hi' : (restore_plan d).*1 !! i = Some key)
               by (rewrite list_lookup_fmap, Hl; reflexivity).
             pose proof (NoDup_lookup _ _ _ _ (restore_plan_NoDup d) Hi' Hj). lia. }
           destruct Hu as [Hd Hc]. split; assumption.
      * case_decide; [contradiction|discriminate].
      * intros Hfs. exfalso. apply Hdone. subst done. rewrite Hfs. reflexivity.
Qed.

Lemma restoreFromBackup_applies_section_by_section_witness :
  (fst (storageService.restoreFromBackup truncated_snapshot (fresh_world 0))
   = Throw SyntaxError
   /\ none_changed (fresh_world 0)
        (snd (storageService.restoreFromBackup truncated_snapshot (fresh_world 0))))
  /\ all_replaced sample_data
       (snd (storageService.restoreFromBackup sample_snapshot (fresh_world 0))).
Proof.
  split.
  - apply (restoreFromBackup_applies_section_by_section truncated_snapshot (fresh_world 0)).
    vm_compute. reflexivity.
  - destruct (restoreFromBackup_applies_section_by_section sample_snapshot (fresh_world 0))
      as [_ Hdata].
    destruct (Hdata sample_backup sample_data) as (_ & _ & Hall & Hok);
      [vm_compute; reflexivity..|].
    apply Hall, Hok. reflexivity.
Defined.

(** C1 as stated fails: when the third write is rejected, the call
    throws after appointments and notifications have been replaced,
    while registeredUsers and settings keep their old content. *)
Lemma restoreFromBackup_partial_counterexample :
  JSON_parse sample_snapshot = Some sample_backup
  /\ fst (storageService.restoreFromBackup sample_snapshot third_write_rejected)
     = Throw IOError
  /\ section_replaced STORAGE_KEYS.APPOINTMENTS (VArr [VObj [("id", VStr "a1")]])
       partially_restored
  /\ section_replaced STORAGE_KEYS.NOTIFICATIONS (VArr []) partially_restored
  /\ section_unchanged STORAGE_KEYS.REGISTERED_USERS third_write_rejected
       partially_restored
  /\ section_unchanged STORAGE_KEYS.APP_SETTINGS third_write_rejected
       partially_restored
  /\ ~ all_replaced sample_data partially_restored
  /\ ~ none_changed third_write_rejected partially_restored.
Proof.
  repeat split; try (vm_compute; reflexivity).
  - intros Hall.
    destruct (Hall STORAGE_KEYS.REGISTERED_USERS (VArr [VObj [("id", VStr "u1")]]))
      as [Hd _].
    + apply (list_elem_of_lookup_2 _ 2%nat). reflexivity.
    + vm_compute in Hd. discriminate.
  - intros Hnone. destruct (Hnone STORAGE_KEYS.APPOINTMENTS) as [Hd _].
    + apply (list_elem_of_lookup_2 _ 0%nat). reflexivity.
    + vm_compute in Hd. discriminate.
Qed.

(** C10, amended. If the snapshot parses to anything but null and its
    [data] is absent or falsy, restoreFromBackup resolves without writing
    or logging anything: the world is left exactly as it was. *)
Theorem restoreFromBackup_without_data_changes_nothing `{JsRuntime}
    (s : string) (w : World) (backup : value) :
  JSON_parse s = Some backup ->
  backup <> VNull ->
  truthy_opt (field backup "data") = false ->
  storageService.restoreFromBackup s w = (Ok tt, w).
Proof.
  intros Hp Hnull Hfalsy.
  unfold storageService.restoreFromBackup, try_catch, bind, parse_json.
  rewrite Hp. unfold ret at 1. rewrite (get_prop_field backup _ w Hnull).
  destruct (field backup "data") as [d|]; [|reflexivity].
  simpl in Hfalsy. rewrite Hfalsy. reflexivity.
Qed.

Lemma restoreFromBackup_without_data_changes_nothing_witness :
  storageService.restoreFromBackup (Runtime.json_text "{}") (fresh_world 0)
  = (Ok tt, fresh_world 0).
Proof.
  apply (restoreFromBackup_without_data_changes_nothing _ _ (VObj [])).
  - vm_compute. reflexivity.
  - discriminate.
  - reflexivity.
Defined.

(** C10 as stated fails on the snapshot "null": it parses, it has no
    [data], and reading [backup.data] throws, so the call rejects; it
    still writes nothing. *)
Lemma restoreFromBackup_null_counterexample :
  JSON_parse "null" = Some VNull
  /\ field VNull "data" = None
  /\ fst (storageService.restoreFromBackup "null" (fresh_world 0)) = Throw TypeError
  /\ none_changed (fresh_world 0)
       (snd (storageService.restoreFromBackup "null" (fresh_world 0))).
Proof.
  repeat split; try (vm_compute; reflexivity).
Qed.

(** ** notificationService *)

Lemma sort_insert_filter_length {A} (P : A -> Prop) `{forall x, Decision (P x)}
    (compare : A -> A -> option Z) (x : A) (l : list A) :
  length (filter P (sort_insert compare x l)) = length (filter P (x :: l)).
Proof.
  induction l as [|y l IH]; simpl; [reflexivity|].
  destruct (default 0 (compare x y) <=? 0); [reflexivity|].
  rewrite (filter_cons P y), (filter_cons P x), (filter_cons P y).
  rewrite (filter_cons P x) in IH.
  destruct (decide (P y)), (decide (P x)); simpl in *; rewrite IH; reflexivity.
Qed.

(** Sorting does not change how many elements satisfy a predicate. *)
Lemma Array_sort_filter_length {A} (P : A -> Prop) `{forall x, Decision (P x)}
    (compare : A -> A -> option Z) (l : list A) :
  length (filter P (Array_sort compare l)) = length (filter P l).
Proof.
  induction l as [|x l IH]; simpl; [reflexivity|].
  rewrite sort_insert_filter_length, !filter_cons.
  destruct (decide (P x)); simpl; rewrite IH; reflexivity.
Qed.

Lemma getNotifications_runs `{JsRuntime} (userId : string) (w : World)
    (stored : list Notification.t) :
  next_call_succeeds w ->
  stored_list as_Notification STORAGE_KEY w = Some stored ->
  notificationService.getNotifications userId w
  = (Ok (Array_sort notificationService.newest_first
           (filter (fun n => String.eqb (Notification.userId n) userId = true) stored)),
     after_call w).
Proof.
  intros Hn Hs. unfold notificationService.getNotifications, try_catch, bind.
  rewrite (AsyncStorage_getItem_succeeds _ w Hn).
  rewrite (parse_or_empty_stored _ _ w _ _ Hs). reflexivity.
Qed.

Lemma unread_filter_length (userId : string) (l : list Notification.t) :
  length (filter (fun n => negb (Notification.read n) = true)
            (filter (fun n => String.eqb (Notification.userId n) userId = true) l))
  = length (filter (fun n => Notification.userId n = userId
                             /\ Notification.read n = false) l).
Proof.
  induction l as [|n rest IH]; [reflexivity|].
  rewrite (filter_cons _ n rest).
  rewrite (filter_cons (fun n => Notification.userId n = userId /\ _) n rest).
  destruct (decide (String.eqb (Notification.userId n) userId = true)) as [E|E].
  - apply String.eqb_eq in E. rewrite filter_cons.
    destruct (decide (negb (Notification.read n) = true)) as [R|R];
      destruct (decide (Notification.userId n = userId /\ Notification.read n = false))
        as [S|S]; simpl; rewrite ?IH; try reflexivity; exfalso.
    + apply S. split; [exact E|]. destruct (Notification.read n); [discriminate|reflexivity].
    + destruct S as [_ S]. rewrite S in R. apply R. reflexivity.
  - destruct (decide (Notification.userId n = userId /\ Notification.read n = false))
      as [[S _]|S]; [|exact IH].
    exfalso. apply E. apply String.eqb_eq. exact S.
Qed.

(** C7. When the read succeeds, getUnreadCount(u) is the number of
    stored notifications whose userId is [u] and whose read flag is
    false. *)
Theorem getUnreadCount_counts_unread_of_user `{JsRuntime}
    (userId : string) (w : World) (stored : list Notification.t) :
  next_call_succeeds w ->
  stored_list as_Notification STORAGE_KEY w = Some stored ->
  fst (notificationService.getUnreadCount userId w)
  = Ok (length (filter (fun n => Notification.userId n = userId
                                 /\ Notification.read n = false) stored)).
Proof.
  intros Hn Hs. unfold notificationService.getUnreadCount, try_catch, bind.
  rewrite (getNotifications_runs userId w stored Hn Hs). simpl. f_equal.
  rewrite Array_sort_filter_length. apply unread_filter_length.
Qed.

Lemma getUnreadCount_counts_unread_of_user_witness :
  fst (notificationService.getUnreadCount "u1" notified_world) = Ok 2%nat.
Proof.
  rewrite (getUnreadCount_counts_unread_of_user "u1" notified_world sample_notifications).
  - reflexivity.
  - discriminate.
  - vm_compute. reflexivity.
Defined.

Lemma createNotification_body_runs `{JsRuntime} (p : NewNotification.t) (w : World)
    (stored : list Notification.t) :
  calls_succeed 2 w ->
  stored_list as_Notification STORAGE_KEY w = Some stored ->
  notificationService.createNotification_body p w
  = (Ok tt,
     with_disk
       (<[STORAGE_KEY := notificationService.stringify_notifications
            (stored ++ [notificationService.newNotification p (clock w) (clock w)])]>
          (disk w))
       (after_call (after_call w))).
Proof.
  intros Hc Hs.
  apply calls_succeed_next in Hc as [Hn1 Hc].
  apply calls_succeed_next in Hc as [Hn2 _].
  unfold notificationService.createNotification_body, bind.
  rewrite (AsyncStorage_getItem_succeeds _ w Hn1).
  rewrite (parse_or_empty_stored _ _ w _ _ Hs).
  unfold Date_now, gets.
  rewrite (AsyncStorage_setItem_succeeds _ _ _ Hn2). reflexivity.
Qed.

(** C3 as stated fails: two notifications created while [Date.now()]
    returns the same millisecond are stored with the same id, which is
    that timestamp. *)
Lemma createNotification_same_millisecond_counterexample :
  exists n1 n2,
    stored_list as_Notification STORAGE_KEY two_notices = Some [n1; n2]
    /\ n1 <> n2
    /\ Notification.id n1 = Notification.id n2
    /\ Notification.id n1 = "1700000000000".
Proof.
  exists (notificationService.newNotification confirmed_notice 1700000000000 1700000000000),
         (notificationService.newNotification reminder_notice 1700000000000 1700000000000).
  split; [vm_compute; reflexivity|].
  split; [intros Heq; vm_compute in Heq; discriminate|].
  split; vm_compute; reflexivity.
Qed.

Lemma both_calls_succeed (w : World) :
  next_call_succeeds w -> next_call_succeeds (after_call w) -> ~ storage_fails w.
Proof.
  intros H1 H2. unfold storage_fails.
  rewrite (calls_before_rejection_next _ _ H1), (calls_before_rejection_next _ _ H2).
  simpl. lia.
Qed.

(** Read the list, compute, write the list back, all inside try/catch:
    the shape of the four mutations. *)
Lemma read_modify_write_swallows `{JsRuntime} (k : list Notification.t -> M unit)
    (line : string) :
  (forall all w, exists text, k all w = AsyncStorage_setItem STORAGE_KEY text w) ->
  swallows_failures
    (try_catch
       (stored <- AsyncStorage_getItem STORAGE_KEY ;;
        allNotifications <- parse_or_empty as_Notification stored ;;
        k allNotifications)
       (fun _ => console_error line)).
Proof.
  intros Hk w. unfold try_catch, bind.
  destruct (next_call_cases w) as [Hn|[rest Hf]].
  - rewrite (AsyncStorage_getItem_succeeds _ w Hn).
    destruct (parse_or_empty as_Notification (disk w !! STORAGE_KEY) (after_call w))
      as [[all|e] w1] eqn:Hparse;
      pose proof (parse_or_empty_world _ _ _ _ _ Hparse) as ->.
    + apply parse_or_empty_inv in Hparse as [Hstored _].
      destruct (Hk all (after_call w)) as [text ->].
      destruct (next_call_cases (after_call w)) as [Hn2|[rest Hf]].
      * rewrite (AsyncStorage_setItem_succeeds _ _ _ Hn2). eexists. split; [reflexivity|].
        intros [Hfail|Hbad]; exfalso.
        -- exact (both_calls_succeed w Hn Hn2 Hfail).
        -- destruct Hbad as (s & Hd & Hne & Hp).
           unfold stored_list in Hstored. rewrite Hd, Hne, Hp in Hstored.
           discriminate.
      * unfold AsyncStorage_setItem, bind. rewrite (io_rejects _ rest Hf).
        eexists. split; [reflexivity|]. intros _. simpl. eauto.
    + eexists. split; [reflexivity|]. intros _. simpl. eauto.
  - unfold AsyncStorage_getItem, bind. rewrite (io_rejects _ rest Hf).
    eexists. split; [reflexivity|]. intros _. simpl. eauto.
Qed.

(** C9. createNotification, markAsRead, markAllAsRead and
    deleteNotification never throw: each resolves in every world, and
    when the read or the write rejects, or the stored text is not JSON,
    the stored items are unchanged and one line is logged. The
    repository write saveNotifications of storageService, in contrast,
    throws when its write rejects. *)
Theorem notification_mutations_swallow_failures `{JsRuntime} :
  (forall p, swallows_failures (notificationService.createNotification p))
  /\ (forall notificationId,
        swallows_failures (notificationService.markAsRead notificationId))
  /\ (forall userId, swallows_failures (notificationService.markAllAsRead userId))
  /\ (forall notificationId,
        swallows_failures (notificationService.deleteNotification notificationId))
  /\ (forall notifications w rest,
        faults w = true :: rest ->
        fst (storageService.saveNotifications notifications w) = Throw IOError).
Proof.
  repeat split.
  - intros p. apply read_modify_write_swallows. intros all w. eexists. reflexivity.
  - intros i. apply read_modify_write_swallows. intros all w. eexists. reflexivity.
  - intros u. apply read_modify_write_swallows. intros all w. eexists. reflexivity.
  - intros i. apply read_modify_write_swallows. intros all w. eexists. reflexivity.
  - intros l w rest Hf. unfold storageService.saveNotifications.
    rewrite (setItem_rejects _ _ _ _ _ Hf). reflexivity.
Qed.

Lemma notification_mutations_swallow_failures_witness :
  (exists w',
     notificationService.markAllAsRead "u1" write_rejected_world = (Ok tt, w')
     /\ disk w' = disk write_rejected_world
     /\ exists line : string,
          console w' = (console write_rejected_world ++ [line])%list)
  /\ (exists w',
        notificationService.deleteNotification "1" corrupt_inbox = (Ok tt, w')
        /\ disk w' = disk corrupt_inbox
        /\ exists line : string,
             console w' = (console corrupt_inbox ++ [line])%list)
  /\ fst (storageService.saveNotifications [] (with_faults [true] notified_world))
     = Throw IOError.
Proof.
  destruct notification_mutations_swallow_failures as (_ & _ & Hall & Hdel & Hsave).
  split; [|split].
  - destruct (Hall "u1" write_rejected_world) as (w' & Hrun & Hfail).
    exists w'. split; [exact Hrun|]. apply Hfail.
    left. unfold storage_fails. simpl. lia.
  - destruct (Hdel "1" corrupt_inbox) as (w' & Hrun & Hfail).
    exists w'. split; [exact Hrun|]. apply Hfail.
    right. exists "[{". repeat split; vm_compute; reflexivity.
  - apply (Hsave [] (with_faults [true] notified_world) []). reflexivity.
Defined.

(** * Further properties *)

(** ** storageService: removing, expiring and clearing *)

Lemma removeItem_succeeds `{JsRuntime} (key : string) (w : World) :
  next_call_succeeds w ->
  storageService.removeItem key w = (Ok tt, removed key w).
Proof.
  intros Hn. unfold storageService.removeItem, try_catch, bind, AsyncStorage_removeItem, bind.
  rewrite (io_succeeds w Hn). reflexivity.
Qed.

Lemma removeItem_rejects `{JsRuntime} (key : string) (w : World) (rest : list bool) :
  faults w = true :: rest ->
  storageService.removeItem key w
  = (Throw IOError,
     with_console (console w ++ ["Erro ao remover " +:+ key +:+ ":"]) (with_faults rest w)).
Proof.
  intros Hf. unfold storageService.removeItem, try_catch, bind, AsyncStorage_removeItem, bind.
  rewrite (io_rejects w rest Hf). reflexivity.
Qed.

(** X1. A removeItem that is not rejected leaves the key in neither the
    cache nor AsyncStorage, so a following getItem yields
    [defaultValue || null], and it touches no other key. A rejected
    removeItem throws and leaves every key, the removed one included,
    cached and stored as before. *)
Theorem removeItem_forgets_only_its_key `{JsRuntime} (key : string) (w : World) :
  (next_call_succeeds w ->
   exists w1,
     storageService.removeItem key w = (Ok tt, w1)
     /\ absent key w1
     /\ (forall defaultValue,
           fst (storageService.getItem key defaultValue w1)
           = Ok (or_else defaultValue VNull))
     /\ (forall other, other <> key -> section_unchanged other w w1))
  /\ (forall rest, faults w = true :: rest ->
      fst (storageService.removeItem key w) = Throw IOError
      /\ forall other,
           section_unchanged other w (snd (storageService.removeItem key w))).
Proof.
  split.
  - intros Hn. exists (removed key w). split; [apply removeItem_succeeds; exact Hn|].
    assert (Habs : absent key (removed key w)).
    { split; simpl; apply lookup_delete_eq. }
    split; [exact Habs|]. split.
    + intros d. apply getItem_absent. exact Habs.
    + intros other Hne. split; simpl; apply lookup_delete_ne; congruence.
  - intros rest Hf. rewrite (removeItem_rejects key w rest Hf). simpl.
    split; [reflexivity|]. intros other. split; reflexivity.
Qed.

Lemma removeItem_forgets_only_its_key_witness :
  fst (storageService.getItem "k" (Some (VStr "none"))
         (snd (storageService.removeItem "k" short_lived_world)))
  = Ok (VStr "none").
Proof.
  destruct (removeItem_forgets_only_its_key "k" short_lived_world) as [Hok _].
  destruct Hok as (w1 & Hrun & _ & Hget & _); [discriminate|].
  rewrite Hrun. simpl. apply (Hget (Some (VStr "none"))).
Defined.

(** What getItem can change: the cache entry of its key, the fault
    schedule and the console. *)
Lemma getItem_frame `{JsRuntime} (key : string) (defaultValue : option value)
    (w : World) :
  disk (snd (storageService.getItem key defaultValue w)) = disk w
  /\ clock (snd (storageService.getItem key defaultValue w)) = clock w
  /\ forall other, other <> key ->
       cache (snd (storageService.getItem key defaultValue w)) !! other
       = cache w !! other.
Proof.
  unfold storageService.getItem, try_catch, bind, gets, Date_now, gets.
  destruct (cache w !! key) as [c|] eqn:Hc; simpl.
  - destruct (cache_valid c (clock w)); simpl.
    + repeat split; reflexivity.
    + unfold AsyncStorage_getItem, bind, gets, io; simpl.
      destruct (faults w) as [|[] rest]; simpl;
        try (repeat split; try reflexivity; intros; apply lookup_delete_ne; congruence).
      all: destruct (disk w !! key) as [s|]; simpl;
        [destruct (nonempty s); simpl;
         [unfold parse_json; destruct (JSON_parse s); simpl|]|];
        repeat split; try reflexivity; intros;
        rewrite ?lookup_insert_ne by congruence; apply lookup_delete_ne; congruence.
  - unfold AsyncStorage_getItem, bind, gets, io; simpl.
    destruct (faults w) as [|[] rest]; simpl; try (repeat split; reflexivity).
    all: destruct (disk w !! key) as [s|]; simpl;
      [destruct (nonempty s); simpl;
       [unfold parse_json; destruct (JSON_parse s); simpl|]|];
      repeat split; try reflexivity; intros;
      rewrite ?lookup_insert_ne by congruence; reflexivity.
Qed.

Lemma setItem_frame `{JsRuntime} (key : string) (v : value) (expiryMinutes : option Z)
    (w : World) (other : string) :
  other <> key ->
  section_unchanged other w (snd (storageService.setItem key v expiryMinutes w)).
Proof.
  intros Hne. destruct (next_call_cases w) as [Hn|[rest Hf]].
  - rewrite (setItem_succeeds _ _ _ _ Hn). unfold written, section_unchanged; simpl.
    rewrite !lookup_insert_ne by congruence. split; reflexivity.
  - rewrite (setItem_rejects _ _ _ _ _ Hf). split; reflexivity.
Qed.

(** X2. setItem changes the cache entry and the stored text of its own
    key only, whether it resolves or throws; getItem never writes to
    AsyncStorage and changes no cache entry but that of its own key. *)
Theorem store_calls_touch_only_their_key `{JsRuntime}
    (key other : string) (v : value) (expiryMinutes : option Z)
    (defaultValue : option value) (w : World) :
  other <> key ->
  section_unchanged other w (snd (storageService.setItem key v expiryMinutes w))
  /\ section_unchanged other w (snd (storageService.getItem key defaultValue w))
  /\ disk (snd (storageService.getItem key defaultValue w)) = disk w.
Proof.
  intros Hne. split; [apply setItem_frame; exact Hne|].
  destruct (getItem_frame key defaultValue w) as (Hd & _ & Hc).
  split; [|exact Hd]. split; [rewrite Hd; reflexivity | apply Hc; exact Hne].
Qed.

Lemma store_calls_touch_only_their_key_witness :
  section_unchanged "k" short_lived_world
    (snd (storageService.setItem "j" (VBool true) None short_lived_world))
  /\ section_unchanged "k" short_lived_world
       (snd (storageService.getItem "j" None short_lived_world)).
Proof.
  destruct (store_calls_touch_only_their_key "j" "k" (VBool true) None None
              short_lived_world) as (Hset & Hget & _); [discriminate|].
  split; assumption.
Defined.

(** A cache miss on a stored key: the text is parsed, returned and cached
    without expiry. *)
Lemma getItem_loads `{JsRuntime} (key : string) (defaultValue : option value)
    (w : World) (text : string) (parsed : value) :
  cache w !! key = None \/
    (exists c, cache w !! key = Some c /\ cache_valid c (clock w) = false) ->
  next_call_succeeds w ->
  disk w !! key = Some text -> nonempty text = true -> JSON_parse text = Some parsed ->
  storageService.getItem key defaultValue w
  = (Ok parsed,
     with_cache (<[key := {| data := parsed; timestamp := clock w; expiry := None |}]>
                   (cache w))
       (after_call w)).
Proof.
  intros Hc Hn Hd Hne Hp. unfold storageService.getItem, try_catch, bind, gets.
  destruct Hc as [Hc|(c & Hc & Hv)]; rewrite Hc.
  - unfold ret at 1. simpl.
    rewrite (AsyncStorage_getItem_succeeds _ w Hn), Hd, Hne.
    unfold parse_json. rewrite Hp. reflexivity.
  - unfold Date_now, gets. simpl. rewrite Hv. simpl.
    unfold AsyncStorage_getItem, bind, gets.
    assert (Hn' : next_call_succeeds (with_cache (delete key (cache w)) w)) by exact Hn.
    rewrite (io_succeeds _ Hn'). simpl. rewrite Hd, Hne.
    unfold parse_json. rewrite Hp. simpl. unfold after_call, with_cache; simpl.
    rewrite insert_delete_eq. reflexivity.
Qed.

(** X3. Once the TTL given to setItem has elapsed, getItem no longer
    answers from the cache: it reads AsyncStorage again, returns what
    the stored text parses to, and caches that without any expiry, so
    from then on the entry never expires. *)
Theorem getItem_refetches_after_expiry `{JsRuntime}
    (key : string) (v reread : value) (minutes : Z) (defaultValue : option value)
    (w w2 : World) :
  next_call_succeeds w -> 0 <= clock w -> 0 < minutes ->
  section_unchanged key (snd (storageService.setItem key v (Some minutes) w)) w2 ->
  clock w + minutes * 60 * 1000 <= clock w2 ->
  next_call_succeeds w2 ->
  nonempty (JSON_stringify v) = true ->
  JSON_parse (JSON_stringify v) = Some reread ->
  exists w3,
    storageService.getItem key defaultValue w2 = (Ok reread, w3)
    /\ cache w3 !! key
       = Some {| data := reread; timestamp := clock w2; expiry := None |}
    /\ forall w4, cache w4 !! key = cache w3 !! key ->
         storageService.getItem key defaultValue w4 = (Ok reread, w4).
Proof.
  intros Hn Hclock Hmin Hsame Hlate Hn2 Hne Hp.
  rewrite (setItem_succeeds _ _ _ _ Hn) in Hsame. destruct Hsame as [Hd Hc].
  unfold written in Hd, Hc; simpl in Hd, Hc.
  rewrite lookup_insert_eq in Hd. rewrite lookup_insert_eq in Hc.
  eexists. split; [|split].
  - eapply getItem_loads; try eassumption.
    right. eexists. split; [exact Hc|].
    unfold cache_valid, expiry_of; simpl.
    destruct (Z.eqb_spec minutes 0) as [->|_]; [lia|]. simpl.
    apply orb_false_iff. split; [apply Z.eqb_neq; lia | apply Z.ltb_ge; lia].
  - simpl. apply lookup_insert_eq.
  - intros w4 Hc4. simpl in Hc4. rewrite lookup_insert_eq in Hc4.
    apply (getItem_cached key defaultValue w4 _ Hc4). reflexivity.
Qed.

Lemma getItem_refetches_after_expiry_witness :
  exists w3,
    storageService.getItem "k" None (advance 60000 short_lived_world) = (Ok (VNum 7), w3)
    /\ cache w3 !! "k" = Some {| data := VNum 7; timestamp := 61000; expiry := None |}.
Proof.
  destruct (getItem_refetches_after_expiry "k" (VNum 7) (VNum 7) 1 None
              (fresh_world 1000) (advance 60000 short_lived_world))
    as (w3 & Hget & Hcache & _).
  - discriminate.
  - vm_compute. discriminate.
  - reflexivity.
  - split; reflexivity.
  - vm_compute. discriminate.
  - discriminate.
  - reflexivity.
  - reflexivity.
  - exists w3. split; assumption.
Defined.

(** X4. clearCache empties the cache and leaves AsyncStorage alone: the
    next getItem of a stored key reads the stored text again, returns
    what it parses to, and caches it without expiry. *)
Theorem clearCache_forces_a_reread `{JsRuntime}
    (key text : string) (parsed : value) (defaultValue : option value) (w : World) :
  disk w !! key = Some text -> nonempty text = true ->
  JSON_parse text = Some parsed ->
  next_call_succeeds w ->
  exists w1 w2,
    storageService.clearCache w = (Ok tt, w1)
    /\ cache w1 = ∅ /\ disk w1 = disk w
    /\ storageService.getItem key defaultValue w1 = (Ok parsed, w2)
    /\ cache w2 !! key
       = Some {| data := parsed; timestamp := clock w; expiry := None |}.
Proof.
  intros Hd Hne Hp Hn. exists (with_cache ∅ w). eexists.
  split; [reflexivity|]. split; [reflexivity|]. split; [reflexivity|]. split.
  - apply (getItem_loads key defaultValue (with_cache ∅ w) text parsed);
      try assumption.
    left. apply lookup_empty.
  - simpl. apply lookup_insert_eq.
Qed.

Lemma clearCache_forces_a_reread_witness :
  exists w2,
    storageService.getItem "k" None (snd (storageService.clearCache short_lived_world))
    = (Ok (VNum 7), w2)
    /\ expiry <$> cache w2 !! "k" = Some None.
Proof.
  destruct (clearCache_forces_a_reread "k" "7" (VNum 7) None short_lived_world)
    as (w1 & w2 & Hclear & _ & _ & Hget & Hcache).
  - reflexivity.
  - reflexivity.
  - reflexivity.
  - discriminate.
  - exists w2. rewrite Hclear. simpl. split; [exact Hget|]. rewrite Hcache. reflexivity.
Defined.

(** X5. A clearAll that is not rejected leaves both the cache and
    AsyncStorage empty, so every getItem yields [defaultValue || null];
    a rejected clearAll throws and clears nothing, not even the cache. *)
Theorem clearAll_is_all_or_nothing `{JsRuntime} (w : World) :
  (next_call_succeeds w ->
   exists w1,
     storageService.clearAll w = (Ok tt, w1)
     /\ cache w1 = ∅ /\ disk w1 = ∅
     /\ forall key defaultValue,
          fst (storageService.getItem key defaultValue w1)
          = Ok (or_else defaultValue VNull))
  /\ (forall rest, faults w = true :: rest ->
      fst (storageService.clearAll w) = Throw IOError
      /\ cache (snd (storageService.clearAll w)) = cache w
      /\ disk (snd (storageService.clearAll w)) = disk w).
Proof.
  split.
  - intros Hn. unfold storageService.clearAll, try_catch, bind, AsyncStorage_clear, bind.
    rewrite (io_succeeds w Hn). simpl. eexists. split; [reflexivity|].
    split; [reflexivity|]. split; [reflexivity|].
    intros key d. apply getItem_absent. split; simpl; apply lookup_empty.
  - intros rest Hf.
    unfold storageService.clearAll, try_catch, bind, AsyncStorage_clear, bind.
    rewrite (io_rejects w rest Hf). simpl. repeat split; reflexivity.
Qed.

Lemma clearAll_is_all_or_nothing_witness :
  fst (storageService.getItem "k" None (snd (storageService.clearAll short_lived_world)))
  = Ok VNull
  /\ cache (snd (storageService.clearAll (with_faults [true] short_lived_world)))
     = cache short_lived_world.
Proof.
  split.
  - destruct (clearAll_is_all_or_nothing short_lived_world) as [Hok _].
    destruct Hok as (w1 & Hrun & _ & _ & Hget); [discriminate|].
    rewrite Hrun. apply (Hget "k" None).
  - destruct (clearAll_is_all_or_nothing (with_faults [true] short_lived_world))
      as [_ Hrej].
    destruct (Hrej []) as (_ & Hc & _); [reflexivity|]. exact Hc.
Defined.

(** ** An invariant: every cached key is stored *)

Lemma preserves_bind {A B} (P : World -> Prop) (m : M A) (k : A -> M B) :
  preserves P m -> (forall a, preserves P (k a)) -> preserves P (bind m k).
Proof.
  intros Hm Hk w HP. unfold bind. specialize (Hm w HP).
  destruct (m w) as [[a|e] w']; simpl in *; [apply Hk; exact Hm | exact Hm].
Qed.

Lemma preserves_try_catch {A} (P : World -> Prop) (body : M A) (handler : error -> M A) :
  preserves P body -> (forall e, preserves P (handler e)) ->
  preserves P (try_catch body handler).
Proof.
  intros Hb Hh w HP. unfold try_catch. specialize (Hb w HP).
  destruct (body w) as [[a|e] w']; simpl in *; [exact Hb | apply Hh; exact Hb].
Qed.

(** A step that leaves the world as it is. *)
Lemma preserves_pure {A} (P : World -> Prop) (m : M A) :
  (forall w, snd (m w) = w) -> preserves P m.
Proof. intros Hm w HP. rewrite Hm. exact HP. Qed.

Lemma map_js_pure_world {A B} (f : A -> M B) (l : list A) :
  (forall x w, snd (f x w) = w) -> forall w, snd (map_js f l w) = w.
Proof.
  intros Hf. induction l as [|x rest IH]; intros w; simpl; [reflexivity|].
  unfold bind. pose proof (Hf x w) as Hx.
  destruct (f x w) as [[y|e] w1]; simpl in Hx; subst w1; [|reflexivity].
  pose proof (IH w) as Hr.
  destruct (map_js f rest w) as [[ys|e] w2]; simpl in Hr; subst w2; reflexivity.
Qed.

Lemma filter_js_pure_world {A} (p : A -> M bool) (l : list A) :
  (forall x w, snd (p x w) = w) -> forall w, snd (filter_js p l w) = w.
Proof.
  intros Hp. induction l as [|x rest IH]; intros w; simpl; [reflexivity|].
  unfold bind. pose proof (Hp x w) as Hx.
  destruct (p x w) as [[y|e] w1]; simpl in Hx; subst w1; [|reflexivity].
  pose proof (IH w) as Hr.
  destruct (filter_js p rest w) as [[ys|e] w2]; simpl in Hr; subst w2; reflexivity.
Qed.

Lemma get_prop_world (v : value) (k : string) (w : World) : snd (get_prop v k w) = w.
Proof. destruct v; reflexivity. Qed.

Lemma as_array_world (v : value) (w : World) : snd (as_array v w) = w.
Proof. destruct v; reflexivity. Qed.

Lemma spread_pure_world (v : value) (w : World) : snd (spread v w) = w.
Proof. destruct v; reflexivity. Qed.

Lemma parse_json_world `{JsRuntime} (s : string) (w : World) : snd (parse_json s w) = w.
Proof. unfold parse_json. destruct (JSON_parse s); reflexivity. Qed.

Lemma cache_backed_io : preserves cache_backed io.
Proof.
  intros w HP. unfold io. destruct (faults w) as [|[] rest]; exact HP.
Qed.

Lemma cache_backed_console (line : string) : preserves cache_backed (console_error line).
Proof. intros w HP. exact HP. Qed.

Lemma cache_backed_AsyncStorage_getItem (key : string) :
  preserves cache_backed (AsyncStorage_getItem key).
Proof.
  apply preserves_bind; [apply cache_backed_io|]. intros _ w HP. exact HP.
Qed.

Lemma cache_backed_AsyncStorage_setItem (key text : string) :
  preserves cache_backed (AsyncStorage_setItem key text).
Proof.
  apply preserves_bind; [apply cache_backed_io|]. intros _ w HP.
  unfold cache_backed in *; simpl. rewrite dom_insert_L.
  intros k Hk. apply elem_of_union. right. apply HP. exact Hk.
Qed.

Lemma cache_backed_setItem `{JsRuntime} (key : string) (v : value)
    (expiryMinutes : option Z) :
  preserves cache_backed (storageService.setItem key v expiryMinutes).
Proof.
  intros w HP. destruct (next_call_cases w) as [Hn|[rest Hf]].
  - rewrite (setItem_succeeds _ _ _ _ Hn). unfold cache_backed in *; simpl.
    rewrite !dom_insert_L. apply union_mono_l. exact HP.
  - rewrite (setItem_rejects _ _ _ _ _ Hf). exact HP.
Qed.

(** getItem caches its key only when the key is cached already or is
    stored. *)
Lemma getItem_caches_what_is_stored `{JsRuntime} (key : string)
    (defaultValue : option value) (w : World) :
  is_Some (cache (snd (storageService.getItem key defaultValue w)) !! key) ->
  is_Some (cache w !! key) \/ is_Some (disk w !! key).
Proof.
  unfold storageService.getItem, try_catch, bind, gets, Date_now, gets.
  destruct (cache w !! key) as [c|] eqn:Hc; simpl; [left; eauto|].
  unfold AsyncStorage_getItem, bind, gets, io; simpl.
  destruct (faults w) as [|[] rest]; simpl.
  - destruct (disk w !! key) as [s|]; [intros _; right; eauto|].
    simpl. rewrite Hc. intros [? [=]].
  - rewrite Hc. intros [? [=]].
  - destruct (disk w !! key) as [s|]; [intros _; right; eauto|].
    simpl. rewrite Hc. intros [? [=]].
Qed.

Lemma cache_backed_getItem `{JsRuntime} (key : string) (defaultValue : option value) :
  preserves cache_backed (storageService.getItem key defaultValue).
Proof.
  intros w HP. destruct (getItem_frame key defaultValue w) as (Hd & _ & Hc).
  unfold cache_backed in *. intros k Hk. rewrite Hd.
  apply elem_of_dom in Hk. apply elem_of_dom.
  destruct (decide (k = key)) as [->|Hne].
  - destruct (getItem_caches_what_is_stored key defaultValue w Hk) as [Hin|Hin];
      [|exact Hin].
    apply elem_of_dom. apply HP. apply elem_of_dom. exact Hin.
  - rewrite (Hc k Hne) in Hk. apply elem_of_dom. apply HP. apply elem_of_dom. exact Hk.
Qed.

Lemma parse_or_empty_pure_world `{JsRuntime} {T} (conv : value -> option T)
    (stored : option string) (w : World) :
  snd (parse_or_empty conv stored w) = w.
Proof.
  destruct (parse_or_empty conv stored w) as [r w'] eqn:E.
  simpl. exact (parse_or_empty_world _ _ _ _ _ E).
Qed.

Lemma cache_backed_removeItem `{JsRuntime} (key : string) :
  preserves cache_backed (storageService.removeItem key).
Proof.
  intros w HP. destruct (next_call_cases w) as [Hn|[rest Hf]].
  - rewrite (removeItem_succeeds _ _ Hn). unfold cache_backed in *; simpl.
    rewrite !dom_delete_L. intros k Hk. apply elem_of_difference in Hk as [Hk Hne].
    apply elem_of_difference. split; [apply HP; exact Hk | exact Hne].
  - rewrite (removeItem_rejects _ _ _ Hf). exact HP.
Qed.

Lemma cache_backed_clearAll `{JsRuntime} : preserves cache_backed storageService.clearAll.
Proof.
  intros w HP. unfold storageService.clearAll, try_catch, bind, AsyncStorage_clear, bind, io.
  destruct (faults w) as [|[] rest]; simpl; try exact HP;
    unfold cache_backed; simpl; rewrite dom_empty_L; apply empty_subseteq.
Qed.

Lemma cache_backed_clearCache `{JsRuntime} :
  preserves cache_backed storageService.clearCache.
Proof.
  intros w HP. unfold cache_backed; simpl. rewrite dom_empty_L. apply empty_subseteq.
Qed.

(** One step of a proof that a service function keeps [cache_backed]. *)
Ltac keeps_cache_backed :=
  first
    [ apply cache_backed_setItem
    | apply cache_backed_getItem
    | apply cache_backed_AsyncStorage_getItem
    | apply cache_backed_AsyncStorage_setItem
    | apply cache_backed_console
    | apply preserves_bind; [|intros ?]
    | apply preserves_try_catch; [|intros ?]
    | apply preserves_pure; intros ?;
      first [ reflexivity | apply get_prop_world | apply as_array_world
            | apply spread_pure_world | apply parse_json_world
            | apply parse_or_empty_pure_world
            | apply map_js_pure_world; intros ? ?; unfold bind;
              match goal with
              | |- context [get_prop ?v ?k ?w] =>
                  pose proof (get_prop_world v k w);
                  destruct (get_prop v k w) as [[?|?] ?]; simpl in *; subst;
                  try reflexivity;
                  match goal with |- context [if ?b then _ else _] => destruct b end;
                  reflexivity
              end
            | apply filter_js_pure_world; intros ? ?; unfold bind;
              match goal with
              | |- context [get_prop ?v ?k ?w] =>
                  pose proof (get_prop_world v k w);
                  destruct (get_prop v k w) as [[?|?] ?]; simpl in *; subst;
                  reflexivity
              end ]
    | match goal with
      | |- preserves _ (match ?x with _ => _ end) => destruct x
      end ].

(** X6. Every cached key is also a key of AsyncStorage, and every
    function of the three services keeps it so, whether it resolves or
    throws. *)
Theorem cached_keys_stay_stored `{JsRuntime} :
  (forall key v expiryMinutes,
     preserves cache_backed (storageService.setItem key v expiryMinutes))
  /\ (forall key defaultValue,
        preserves cache_backed (storageService.getItem key defaultValue))
  /\ (forall key, preserves cache_backed (storageService.removeItem key))
  /\ preserves cache_backed storageService.clearAll
  /\ preserves cache_backed storageService.clearCache
  /\ (forall x, preserves cache_backed (storageService.addAppointment x))
  /\ (forall i updates, preserves cache_backed (storageService.updateAppointment i updates))
  /\ (forall i, preserves cache_backed (storageService.deleteAppointment i))
  /\ (forall x, preserves cache_backed (storageService.addUser x))
  /\ (forall x, preserves cache_backed (storageService.addNotification x))
  /\ (forall patch, preserves cache_backed (storageService.updateAppSettings patch))
  /\ preserves cache_backed storageService.createBackup
  /\ (forall s, preserves cache_backed (storageService.restoreFromBackup s))
  /\ (forall p, preserves cache_backed (notificationService.createNotification p))
  /\ (forall i, preserves cache_backed (notificationService.markAsRead i))
  /\ (forall u, preserves cache_backed (notificationService.markAllAsRead u))
  /\ (forall i, preserves cache_backed (notificationService.deleteNotification i))
  /\ (forall date time doctor user,
        preserves cache_backed
          (appointmentService.createAppointment date time doctor user)).
Proof.
  repeat split; intros.
  - apply cache_backed_setItem.
  - apply cache_backed_getItem.
  - apply cache_backed_removeItem.
  - apply cache_backed_clearAll.
  - apply cache_backed_clearCache.
  - unfold storageService.addAppointment, storageService.getAppointments,
      storageService.saveAppointments. repeat keeps_cache_backed.
  - unfold storageService.updateAppointment, storageService.getAppointments,
      storageService.saveAppointments. repeat keeps_cache_backed.
  - unfold storageService.deleteAppointment, storageService.getAppointments,
      storageService.saveAppointments. repeat keeps_cache_backed.
  - unfold storageService.addUser, storageService.getRegisteredUsers,
      storageService.saveRegisteredUsers. repeat keeps_cache_backed.
  - unfold storageService.addNotification, storageService.getNotifications,
      storageService.saveNotifications. repeat keeps_cache_backed.
  - unfold storageService.updateAppSettings, storageService.getAppSettings.
    repeat keeps_cache_backed.
  - unfold storageService.createBackup. repeat keeps_cache_backed.
  - unfold storageService.restoreFromBackup. repeat keeps_cache_backed.
  - unfold notificationService.createNotification,
      notificationService.createNotification_body. repeat keeps_cache_backed.
  - unfold notificationService.markAsRead, notificationService.markAsRead_body.
    repeat keeps_cache_backed.
  - unfold notificationService.markAllAsRead, notificationService.markAllAsRead_body.
    repeat keeps_cache_backed.
  - unfold notificationService.deleteNotification,
      notificationService.deleteNotification_body. repeat keeps_cache_backed.
  - unfold appointmentService.createAppointment,
      notificationService.notifyNewAppointment,
      notificationService.createNotification,
      notificationService.createNotification_body. repeat keeps_cache_backed.
Qed.

Lemma cached_keys_stay_stored_witness : cache_backed partially_restored.
Proof.
  destruct cached_keys_stay_stored
    as (_ & _ & _ & _ & _ & _ & _ & _ & _ & _ & _ & _ & Hrestore & _).
  apply (Hrestore sample_snapshot third_write_rejected).
  unfold cache_backed. simpl. rewrite dom_empty_L. apply empty_subseteq.
Defined.

(** ** storageService: getStorageInfo *)

(** The own properties of the object getStorageInfo fills from the
    cache. *)
Lemma lookup_lastAccess (entries : gmap string CacheItem) (key : string) :
  map_fold (fun k item obj => assign_number k (timestamp item) obj) ∅ entries !! key
  = if String.eqb key "__proto__" then None else timestamp <$> entries !! key.
Proof.
  revert key.
  apply (map_fold_weak_ind
           (fun (r : gmap string Z) (m : gmap string CacheItem) =>
              forall key, r !! key
                          = if String.eqb key "__proto__" then None
                            else timestamp <$> m !! key)).
  - intros key. rewrite !lookup_empty. destruct (String.eqb key "__proto__"); reflexivity.
  - intros i x m r Hi IH key. unfold assign_number.
    destruct (String.eqb_spec i "__proto__") as [->|Hne].
    + rewrite IH. destruct (String.eqb_spec key "__proto__") as [_|Hk]; [reflexivity|].
      rewrite lookup_insert_ne; [reflexivity|]. intros E. apply Hk. symmetry. exact E.
    + destruct (decide (i = key)) as [<-|Hik].
      * rewrite !lookup_insert_eq.
        destruct (String.eqb_spec i "__proto__") as [E|_]; [contradiction|reflexivity].
      * rewrite !lookup_insert_ne by exact Hik. apply IH.
Qed.

(** X7. When AsyncStorage lists its keys, getStorageInfo reports the
    number of cache entries, the number of stored keys and, for every
    cached key but [__proto__], the time its entry was cached; the
    object it fills never gets an own property [__proto__], although
    cacheSize counts such an entry.  In a world where every cached key
    is stored, cacheSize is at most totalKeys. When listing the keys is
    rejected, getStorageInfo throws without logging. *)
Theorem getStorageInfo_reports_sizes `{JsRuntime} (w : World) :
  (next_call_succeeds w ->
   exists info,
     storageService.getStorageInfo w = (Ok info, after_call w)
     /\ cacheSize info = size (cache w)
     /\ totalKeys info = size (disk w)
     /\ (forall key, key <> "__proto__" ->
           lastAccess info !! key = timestamp <$> cache w !! key)
     /\ lastAccess info !! "__proto__" = None
     /\ (cache_backed w -> (cacheSize info <= totalKeys info)%nat))
  /\ (forall rest, faults w = true :: rest ->
      storageService.getStorageInfo w = (Throw IOError, with_faults rest w)).
Proof.
  split.
  - intros Hn. unfold storageService.getStorageInfo, bind, AsyncStorage_getAllKeys, bind.
    rewrite (io_succeeds w Hn). simpl. eexists. split; [reflexivity|]. simpl.
    split; [reflexivity|]. split; [rewrite length_map; apply length_map_to_list|].
    split.
    { intros key Hkey. rewrite lookup_lastAccess.
      destruct (String.eqb_spec key "__proto__") as [E|_]; [contradiction|reflexivity]. }
    split; [rewrite lookup_lastAccess; reflexivity|].
    intros HP. rewrite length_map, length_map_to_list.
    rewrite <- (size_dom (cache w)), <- (size_dom (disk w)).
    apply subseteq_size. exact HP.
  - intros rest Hf. unfold storageService.getStorageInfo, bind, AsyncStorage_getAllKeys, bind.
    rewrite (io_rejects w rest Hf). reflexivity.
Qed.

Lemma getStorageInfo_reports_sizes_witness :
  (exists info,
     fst (storageService.getStorageInfo partially_restored) = Ok info
     /\ cacheSize info = 2%nat /\ totalKeys info = 2%nat
     /\ storageService.getStorageInfo (with_faults [true] partially_restored)
        = (Throw IOError, with_faults [] partially_restored))
  /\ (exists info,
        fst (storageService.getStorageInfo proto_cached_world) = Ok info
        /\ cacheSize info = 1%nat
        /\ lastAccess info !! "__proto__" = None).
Proof.
  split.
  - destruct (getStorageInfo_reports_sizes partially_restored) as [Hok _].
    destruct (getStorageInfo_reports_sizes (with_faults [true] partially_restored))
      as [_ Hrej].
    destruct Hok as (info & Hrun & Hc & Ht & _); [discriminate|].
    exists info. rewrite Hrun. split; [reflexivity|].
    split; [rewrite Hc; vm_compute; reflexivity|].
    split; [rewrite Ht; vm_compute; reflexivity|].
    apply (Hrej []). reflexivity.
  - destruct (getStorageInfo_reports_sizes proto_cached_world) as [Hok _].
    destruct Hok as (info & Hrun & Hc & _ & _ & Hproto & _); [discriminate|].
    exists info. rewrite Hrun. split; [reflexivity|].
    split; [rewrite Hc; vm_compute; reflexivity|exact Hproto].
Defined.

(** X8. What getStorageInfo calls lastAccess is the time a key was
    cached, not the time it was last read: after a setItem at one time
    and a getItem answered from the cache at a later time, the entry of
    the key, for any key but [__proto__], still shows the time of the
    setItem. *)
Theorem lastAccess_is_the_time_of_caching `{JsRuntime}
    (key : string) (v : value) (expiryMinutes : option Z)
    (defaultValue : option value) (w w2 : World) :
  key <> "__proto__" ->
  next_call_succeeds w ->
  cache w2 !! key = cache (snd (storageService.setItem key v expiryMinutes w)) !! key ->
  (forall m, expiryMinutes = Some m -> m <> 0 -> clock w2 < clock w + m * 60 * 1000) ->
  next_call_succeeds w2 ->
  exists w3 info w4,
    storageService.getItem key defaultValue w2 = (Ok v, w3)
    /\ storageService.getStorageInfo w3 = (Ok info, w4)
    /\ lastAccess info !! key = Some (clock w).
Proof.
  intros Hkey Hn Hc Httl Hn2. rewrite (setItem_succeeds _ _ _ _ Hn) in Hc.
  unfold written in Hc; simpl in Hc. rewrite lookup_insert_eq in Hc.
  exists w2. eexists. eexists. split; [|split].
  - rewrite (getItem_cached key defaultValue w2 _ Hc); [reflexivity|].
    unfold cache_valid, expiry_of; simpl.
    destruct expiryMinutes as [m|]; [|reflexivity].
    destruct (Z.eqb_spec m 0) as [->|Hm]; [reflexivity|].
    apply orb_true_iff. right. apply Z.ltb_lt. apply (Httl m eq_refl Hm).
  - unfold storageService.getStorageInfo, bind, AsyncStorage_getAllKeys, bind.
    rewrite (io_succeeds w2 Hn2). reflexivity.
  - simpl. rewrite lookup_lastAccess, Hc.
    destruct (String.eqb_spec key "__proto__") as [E|_]; [contradiction|reflexivity].
Qed.

Lemma lastAccess_is_the_time_of_caching_witness :
  exists w3 info w4,
    storageService.getItem "k" None (advance 30000 short_lived_world) = (Ok (VNum 7), w3)
    /\ storageService.getStorageInfo w3 = (Ok info, w4)
    /\ lastAccess info !! "k" = Some 1000.
Proof.
  apply (lastAccess_is_the_time_of_caching "k" (VNum 7) (Some 1) None
           (fresh_world 1000) (advance 30000 short_lived_world)).
  - discriminate.
  - discriminate.
  - reflexivity.
  - intros m [= <-] _. vm_compute. reflexivity.
  - discriminate.
Defined.

(** ** storageService: updateAppointment and deleteAppointment *)

Lemma map_js_runs {A B} (f : A -> M B) (g : A -> B) (l : list A) (w : World) :
  Forall (fun x => f x w = (Ok (g x), w)) l ->
  map_js f l w = (Ok (map g l), w).
Proof.
  induction 1 as [|x rest Hx _ IH]; simpl; [reflexivity|].
  unfold bind. rewrite Hx, IH. reflexivity.
Qed.

Lemma filter_js_runs {A} (p : A -> M bool) (q : A -> bool) (l : list A) (w : World) :
  Forall (fun x => p x w = (Ok (q x), w)) l ->
  filter_js p l w = (Ok (filter (fun x => q x = true) l), w).
Proof.
  induction 1 as [|x rest Hx _ IH]; simpl; [reflexivity|].
  unfold bind. rewrite Hx, IH. unfold ret. rewrite filter_cons.
  destruct (decide (q x = true)) as [E|E].
  - rewrite E. reflexivity.
  - destruct (q x); [now elim E | reflexivity].
Qed.

(** A callback that reads [x.id] throws on the first null element. *)
Lemma map_js_null {B} (f : value -> M B) (l : list value) (w : World) :
  (forall x, x <> VNull -> exists y, f x w = (Ok y, w)) ->
  f VNull w = (Throw TypeError, w) ->
  VNull ∈ l ->
  map_js f l w = (Throw TypeError, w).
Proof.
  intros Hok Hnull. induction l as [|x rest IH]; intros Hin.
  - apply elem_of_nil in Hin. contradiction.
  - simpl. unfold bind.
    assert (Hcase : x = VNull \/ x <> VNull)
      by (destruct x; [left; reflexivity | right; discriminate ..]).
    destruct Hcase as [->|Hx].
    + rewrite Hnull. reflexivity.
    + destruct (Hok x Hx) as [y ->]. apply elem_of_cons in Hin as [Heq|Hin];
        [congruence|]. rewrite (IH Hin). reflexivity.
Qed.

Lemma filter_js_null (p : value -> M bool) (l : list value) (w : World) :
  (forall x, x <> VNull -> exists y, p x w = (Ok y, w)) ->
  p VNull w = (Throw TypeError, w) ->
  VNull ∈ l ->
  filter_js p l w = (Throw TypeError, w).
Proof.
  intros Hok Hnull. induction l as [|x rest IH]; intros Hin.
  - apply elem_of_nil in Hin. contradiction.
  - simpl. unfold bind.
    assert (Hcase : x = VNull \/ x <> VNull)
      by (destruct x; [left; reflexivity | right; discriminate ..]).
    destruct Hcase as [->|Hx].
    + rewrite Hnull. reflexivity.
    + destruct (Hok x Hx) as [y ->]. apply elem_of_cons in Hin as [Heq|Hin];
        [congruence|]. rewrite (IH Hin). reflexivity.
Qed.

Lemma assoc_app (k : string) (l1 l2 : list (string * value)) :
  assoc k (l1 ++ l2) = match assoc k l1 with Some u => Some u | None => assoc k l2 end.
Proof.
  induction l1 as [|[k' v'] l1 IH]; simpl; [reflexivity|].
  destruct (String.eqb k k'); [reflexivity | exact IH].
Qed.

Lemma assoc_put_field (k k' : string) (v : value) (fields : list (string * value)) :
  assoc k (put_field k' v fields)
  = if String.eqb k k' then Some v else assoc k fields.
Proof.
  induction fields as [|[k0 v0] rest IH]; simpl.
  - destruct (String.eqb k k'); reflexivity.
  - destruct (String.eqb_spec k' k0) as [->|Hne]; simpl.
    + destruct (String.eqb k k0); reflexivity.
    + rewrite IH. destruct (String.eqb_spec k k0) as [->|Hk]; [|reflexivity].
      destruct (String.eqb_spec k0 k') as [E|_]; [congruence|reflexivity].
Qed.

(** In [{ ...base, ...patch }] a key has the last value of the patch, or
    else the value of the base. *)
Lemma assoc_merge_fields (k : string) (base patch : list (string * value)) :
  assoc k (merge_fields base patch) = merged_lookup k base patch.
Proof.
  unfold merge_fields, merged_lookup. revert base.
  induction patch as [|[k' v'] patch IH]; intros base; simpl; [reflexivity|].
  rewrite IH, assoc_app, assoc_put_field. simpl.
  destruct (assoc k (rev patch)); [reflexivity|].
  destruct (String.eqb k k'); reflexivity.
Qed.

Lemma getAppointments_after_save `{JsRuntime} (l : list value) (w : World) :
  storageService.getAppointments (written STORAGE_KEYS.APPOINTMENTS (VArr l) None w)
  = (Ok (VArr l), written STORAGE_KEYS.APPOINTMENTS (VArr l) None w).
Proof.
  unfold storageService.getAppointments.
  apply (getItem_cached _ _ _ {| data := VArr l; timestamp := clock w; expiry := None |}).
  - unfold written; simpl. apply lookup_insert_eq.
  - reflexivity.
Qed.

Lemma deleteAppointment_runs `{JsRuntime} (i : string) (l : list value) (w w1 : World) :
  storageService.getAppointments w = (Ok (VArr l), w1) ->
  Forall (fun v => v <> VNull) l ->
  next_call_succeeds w1 ->
  storageService.deleteAppointment i w
  = (Ok tt, written STORAGE_KEYS.APPOINTMENTS
              (VArr (filter (fun v => negb (has_id i v) = true) l)) None w1).
Proof.
  intros Hget Hnn Hn. unfold storageService.deleteAppointment, bind.
  rewrite Hget. simpl.
  rewrite (filter_js_runs _ (fun v => negb (has_id i v)) l w1).
  - unfold storageService.saveAppointments. apply setItem_succeeds. exact Hn.
  - eapply Forall_impl; [exact Hnn|]. intros v Hv. simpl.
    unfold bind. rewrite (get_prop_field v _ w1 Hv). reflexivity.
Qed.

Lemma updateAppointment_runs `{JsRuntime} (i : string) (updates : list (string * value))
    (l : list value) (w w1 : World) :
  storageService.getAppointments w = (Ok (VArr l), w1) ->
  Forall (fun v => v <> VNull) l ->
  next_call_succeeds w1 ->
  storageService.updateAppointment i updates w
  = (Ok tt, written STORAGE_KEYS.APPOINTMENTS
              (VArr (map (fun v => if has_id i v then patched updates v else v) l))
              None w1).
Proof.
  intros Hget Hnn Hn. unfold storageService.updateAppointment, bind.
  rewrite Hget. simpl.
  rewrite (map_js_runs _ (fun v => if has_id i v then patched updates v else v) l w1).
  - unfold storageService.saveAppointments. apply setItem_succeeds. exact Hn.
  - eapply Forall_impl; [exact Hnn|]. intros v Hv. simpl.
    unfold bind. rewrite (get_prop_field v _ w1 Hv). unfold has_id.
    destruct (strict_equals_string (field v "id") i); reflexivity.
Qed.

Lemma filter_all {A} (P : A -> Prop) `{forall x, Decision (P x)} (l : list A) :
  Forall P l -> filter P l = l.
Proof.
  induction 1 as [|x rest Hx _ IH]; [reflexivity|].
  rewrite filter_cons, decide_True by exact Hx. rewrite IH. reflexivity.
Qed.

(** X9. deleteAppointment rewrites the collection without every record
    whose id is the given one: the records that stay are exactly those
    with another id (or none), in their stored order; an id that no
    record has leaves the collection as it was, without any signal. *)
Theorem deleteAppointment_removes_every_match `{JsRuntime}
    (i : string) (l : list value) (w w1 : World) :
  storageService.getAppointments w = (Ok (VArr l), w1) ->
  Forall (fun v => v <> VNull) l ->
  next_call_succeeds w1 ->
  exists w2 l',
    storageService.deleteAppointment i w = (Ok tt, w2)
    /\ storageService.getAppointments w2 = (Ok (VArr l'), w2)
    /\ (forall v, v ∈ l' <-> v ∈ l /\ has_id i v = false)
    /\ l' `sublist_of` l
    /\ (Forall (fun v => has_id i v = false) l -> l' = l).
Proof.
  intros Hget Hnn Hn.
  exists (written STORAGE_KEYS.APPOINTMENTS
            (VArr (filter (fun v => negb (has_id i v) = true) l)) None w1).
  exists (filter (fun v => negb (has_id i v) = true) l).
  split; [apply (deleteAppointment_runs i l w w1 Hget Hnn Hn)|].
  split; [apply getAppointments_after_save|]. split; [|split].
  - intros v. rewrite list_elem_of_filter, negb_true_iff. tauto.
  - apply sublist_filter.
  - intros Hall. apply filter_all. eapply Forall_impl; [exact Hall|].
    intros v Hv. simpl. rewrite Hv. reflexivity.
Qed.

Lemma deleteAppointment_removes_every_match_witness :
  exists w2,
    storageService.deleteAppointment "a1" two_appointments = (Ok tt, w2)
    /\ storageService.getAppointments w2 = (Ok (VArr [second_appointment]), w2).
Proof.
  destruct (deleteAppointment_removes_every_match "a1"
              [sample_appointment; second_appointment] two_appointments two_appointments)
    as (w2 & l' & Hrun & Hget & _).
  - vm_compute. reflexivity.
  - repeat constructor; discriminate.
  - discriminate.
  - exists w2. split; [exact Hrun|].
    assert (l' = [second_appointment]) as <-; [|exact Hget].
    rewrite (deleteAppointment_runs "a1" [sample_appointment; second_appointment]
               two_appointments two_appointments) in Hrun.
    + injection Hrun as <-. rewrite getAppointments_after_save in Hget.
      injection Hget as <-. reflexivity.
    + vm_compute. reflexivity.
    + repeat constructor; discriminate.
    + discriminate.
Defined.

(** X10. updateAppointment rewrites the collection with the patch merged
    into every record whose id is the given one: a patched record takes
    each key of the patch and keeps its other fields, every other record
    and the length of the collection stay as they were, and an id that no
    record has changes nothing, without any signal. *)
Theorem updateAppointment_patches_every_match `{JsRuntime}
    (i : string) (updates : list (string * value)) (l : list value) (w w1 : World) :
  storageService.getAppointments w = (Ok (VArr l), w1) ->
  Forall (fun v => v <> VNull) l ->
  next_call_succeeds w1 ->
  exists w2 l',
    storageService.updateAppointment i updates w = (Ok tt, w2)
    /\ storageService.getAppointments w2 = (Ok (VArr l'), w2)
    /\ length l' = length l
    /\ (forall n v, l !! n = Some v -> has_id i v = false -> l' !! n = Some v)
    /\ (forall n v, l !! n = Some v -> has_id i v = true ->
          exists v', l' !! n = Some v'
            /\ forall k, field v' k = merged_lookup k (own_fields v) updates)
    /\ (Forall (fun v => has_id i v = false) l -> l' = l).
Proof.
  intros Hget Hnn Hn.
  set (f := fun v => if has_id i v then patched updates v else v).
  exists (written STORAGE_KEYS.APPOINTMENTS (VArr (map f l)) None w1), (map f l).
  split; [apply (updateAppointment_runs i updates l w w1 Hget Hnn Hn)|].
  split; [apply getAppointments_after_save|].
  split; [apply length_map|]. split; [|split].
  - intros n v Hl Hid. change (map f l) with (f <$> l).
    rewrite list_lookup_fmap, Hl. simpl. unfold f. rewrite Hid. reflexivity.
  - intros n v Hl Hid. exists (patched updates v). split.
    + change (map f l) with (f <$> l).
      rewrite list_lookup_fmap, Hl. simpl. unfold f. rewrite Hid. reflexivity.
    + intros k. unfold patched. simpl. apply assoc_merge_fields.
  - intros Hall. subst f. clear -Hall.
    induction Hall as [|v rest Hv _ IH]; [reflexivity|].
    simpl. rewrite Hv. f_equal. exact IH.
Qed.

Lemma updateAppointment_patches_every_match_witness :
  exists w2 l' v',
    storageService.updateAppointment "a2" [("status", VStr "confirmed")] two_appointments
    = (Ok tt, w2)
    /\ storageService.getAppointments w2 = (Ok (VArr l'), w2)
    /\ l' !! 0%nat = Some sample_appointment
    /\ l' !! 1%nat = Some v'
    /\ field v' "status" = Some (VStr "confirmed")
    /\ field v' "patientId" = Some (VStr "p2").
Proof.
  destruct (updateAppointment_patches_every_match "a2" [("status", VStr "confirmed")]
              [sample_appointment; second_appointment] two_appointments two_appointments)
    as (w2 & l' & Hrun & Hget & _ & Hkeep & Hpatch & _).
  - vm_compute. reflexivity.
  - repeat constructor; discriminate.
  - discriminate.
  - destruct (Hpatch 1%nat second_appointment) as (v' & Hv' & Hfields);
      [reflexivity..|].
    exists w2, l', v'. split; [exact Hrun|]. split; [exact Hget|].
    split; [apply (Hkeep 0%nat); reflexivity|]. split; [exact Hv'|].
    split; rewrite Hfields; reflexivity.
Defined.

(** X11. When the stored collection is not an array, or holds a null,
    updateAppointment and deleteAppointment throw a TypeError before
    they write: neither has a try/catch, so nothing is logged and the
    world is the one the read left. *)
Theorem update_and_delete_throw_on_malformed_collection `{JsRuntime}
    (i : string) (updates : list (string * value)) (stored : value) (w w1 : World) :
  storageService.getAppointments w = (Ok stored, w1) ->
  malformed_collection stored ->
  storageService.updateAppointment i updates w = (Throw TypeError, w1)
  /\ storageService.deleteAppointment i w = (Throw TypeError, w1).
Proof.
  intros Hget Hbad.
  unfold storageService.updateAppointment, storageService.deleteAppointment, bind.
  rewrite Hget. destruct stored as [ | b | n | s | items | fields]; simpl;
    try (split; reflexivity).
  simpl in Hbad. split.
  - rewrite (map_js_null _ items w1); [reflexivity| |reflexivity|exact Hbad].
    intros x Hx. unfold bind. rewrite (get_prop_field x _ w1 Hx).
    destruct (strict_equals_string (field x "id") i); eexists; reflexivity.
  - rewrite (filter_js_null _ items w1); [reflexivity| |reflexivity|exact Hbad].
    intros x Hx. unfold bind. rewrite (get_prop_field x _ w1 Hx).
    eexists; reflexivity.
Qed.

Lemma update_and_delete_throw_on_malformed_collection_witness :
  storageService.updateAppointment "a1" [("status", VStr "confirmed")] holed_appointments
  = (Throw TypeError, holed_appointments)
  /\ storageService.deleteAppointment "a1" holed_appointments
     = (Throw TypeError, holed_appointments).
Proof.
  apply (update_and_delete_throw_on_malformed_collection "a1" _
           (VArr [sample_appointment; VNull])).
  - vm_compute. reflexivity.
  - simpl. apply elem_of_cons. right. apply list_elem_of_here.
Defined.

(** X12. Adding a record whose id no stored record has and then deleting
    that id gives back the stored collection. *)
Theorem addAppointment_then_delete_restores `{JsRuntime}
    (i : string) (x : value) (l : list value) (w w1 : World) :
  storageService.getAppointments w = (Ok (VArr l), w1) ->
  Forall (fun v => v <> VNull) l ->
  Forall (fun v => has_id i v = false) l ->
  has_id i x = true ->
  calls_succeed 2 w1 ->
  exists w2 w3,
    storageService.addAppointment x w = (Ok tt, w2)
    /\ storageService.deleteAppointment i w2 = (Ok tt, w3)
    /\ storageService.getAppointments w3 = (Ok (VArr l), w3).
Proof.
  intros Hget Hnn Hfresh Hx Hc.
  apply calls_succeed_next in Hc as [Hn1 Hc].
  apply calls_succeed_next in Hc as [Hn2 _].
  set (w2 := written STORAGE_KEYS.APPOINTMENTS (VArr (l ++ [x])) None w1).
  assert (Hadd : storageService.addAppointment x w = (Ok tt, w2)).
  { unfold storageService.addAppointment, bind. rewrite Hget. simpl.
    unfold storageService.saveAppointments. apply setItem_succeeds. exact Hn1. }
  assert (Hxn : x <> VNull) by (intros ->; discriminate).
  assert (Hnn2 : Forall (fun v => v <> VNull) (l ++ [x])).
  { apply Forall_app. split; [exact Hnn|]. constructor; [exact Hxn|constructor]. }
  pose proof (deleteAppointment_runs i (l ++ [x]) w2 w2
                (getAppointments_after_save _ _) Hnn2 Hn2) as Hdel.
  assert (Hfilter : filter (fun v => negb (has_id i v) = true) (l ++ [x])%list = l).
  { rewrite filter_app, filter_cons, decide_False, filter_nil, app_nil_r.
    - apply filter_all. eapply Forall_impl; [exact Hfresh|].
      intros v Hv. simpl. rewrite Hv. reflexivity.
    - rewrite Hx. discriminate. }
  rewrite Hfilter in Hdel.
  exists w2. eexists. split; [exact Hadd|]. split; [exact Hdel|].
  apply getAppointments_after_save.
Qed.

Lemma addAppointment_then_delete_restores_witness :
  exists w2 w3,
    storageService.addAppointment second_appointment once_added = (Ok tt, w2)
    /\ storageService.deleteAppointment "a2" w2 = (Ok tt, w3)
    /\ storageService.getAppointments w3 = (Ok (VArr [sample_appointment]), w3).
Proof.
  apply (addAppointment_then_delete_restores "a2" second_appointment
           [sample_appointment] once_added once_added).
  - vm_compute. reflexivity.
  - repeat constructor; discriminate.
  - repeat constructor.
  - reflexivity.
  - unfold calls_succeed. simpl. constructor.
Defined.

(** ** storageService: settings *)

(** X13. updateAppSettings stores the current settings with the patch
    merged in: every key of the patch takes its new value and every
    other key keeps the value getAppSettings answered. When no settings
    are stored, the current settings are the four defaults, so the first
    update persists the defaults together with the patch. *)
Theorem updateAppSettings_merges_into_current `{JsRuntime}
    (patch : list (string * value)) (current : value) (w w1 : World) :
  storageService.getAppSettings w = (Ok current, w1) ->
  next_call_succeeds w1 ->
  exists w2 fields,
    storageService.updateAppSettings patch w = (Ok tt, w2)
    /\ storageService.getAppSettings w2 = (Ok (VObj fields), w2)
    /\ disk w2 !! STORAGE_KEYS.APP_SETTINGS = Some (JSON_stringify (VObj fields))
    /\ (forall k, assoc k fields = merged_lookup k (own_fields current) patch)
    /\ (absent STORAGE_KEYS.APP_SETTINGS w ->
        current = storageService.defaultSettings).
Proof.
  intros Hget Hn.
  set (fields := merge_fields (own_fields current) patch).
  exists (written STORAGE_KEYS.APP_SETTINGS (VObj fields) None w1), fields.
  split; [|split; [|split; [|split]]].
  - unfold storageService.updateAppSettings, bind. rewrite Hget.
    apply setItem_succeeds. exact Hn.
  - unfold storageService.getAppSettings.
    apply (getItem_cached _ _ _
             {| data := VObj fields; timestamp := clock w1; expiry := None |}).
    + unfold written; simpl. apply lookup_insert_eq.
    + reflexivity.
  - unfold written; simpl. apply lookup_insert_eq.
  - intros k. apply assoc_merge_fields.
  - intros Habs. unfold storageService.getAppSettings in Hget.
    pose proof (getItem_absent STORAGE_KEYS.APP_SETTINGS
                  (Some storageService.defaultSettings) w Habs) as Hd.
    rewrite Hget in Hd. simpl in Hd. congruence.
Qed.

Lemma updateAppSettings_merges_into_current_witness :
  exists w2 fields,
    storageService.updateAppSettings [("theme", VStr "dark")] (fresh_world 0) = (Ok tt, w2)
    /\ storageService.getAppSettings w2 = (Ok (VObj fields), w2)
    /\ assoc "theme" fields = Some (VStr "dark")
    /\ assoc "language" fields = Some (VStr "pt-BR").
Proof.
  destruct (updateAppSettings_merges_into_current [("theme", VStr "dark")]
              storageService.defaultSettings (fresh_world 0) (fresh_world 0))
    as (w2 & fields & Hrun & Hget & _ & Hfields & _).
  - vm_compute. reflexivity.
  - discriminate.
  - exists w2, fields. split; [exact Hrun|]. split; [exact Hget|].
    split; rewrite Hfields; reflexivity.
Defined.

(** ** storageService: createBackup *)

Lemma getItem_rejected `{JsRuntime} (key : string) (defaultValue : option value)
    (w : World) (rest : list bool) :
  cache w !! key = None ->
  faults w = true :: rest ->
  storageService.getItem key defaultValue w
  = (Ok (or_else defaultValue VNull),
     with_console (console w ++ ["Erro ao carregar " +:+ key +:+ ":"])
       (with_faults rest w)).
Proof.
  intros Hc Hf. unfold storageService.getItem, try_catch, bind, gets.
  rewrite Hc. unfold ret at 1. simpl.
  unfold AsyncStorage_getItem, bind. rewrite (io_rejects w rest Hf). reflexivity.
Qed.

(** X14. createBackup never throws: every read failure is swallowed by
    getItem. When nothing is cached and the four reads are rejected, it
    resolves with the snapshot of an empty store, although AsyncStorage
    still holds the data. *)
Theorem createBackup_swallows_read_failures `{JsRuntime} (w : World) :
  (exists text w', storageService.createBackup w = (Ok text, w'))
  /\ (forall rest,
        cache w = ∅ -> faults w = true :: true :: true :: true :: rest ->
        fst (storageService.createBackup w)
        = Ok (JSON_stringify
                (snapshot_of (Date_toISOString (clock w))
                   (VArr []) (VArr []) (VArr []) (VObj [])))
        /\ disk (snd (storageService.createBackup w)) = disk w).
Proof.
  split.
  - unfold storageService.createBackup, try_catch, bind.
    destruct (getItem_never_throws STORAGE_KEYS.APPOINTMENTS (Some (VArr [])) w)
      as (a & wa & ->).
    destruct (getItem_never_throws STORAGE_KEYS.NOTIFICATIONS (Some (VArr [])) wa)
      as (n & wn & ->).
    destruct (getItem_never_throws STORAGE_KEYS.REGISTERED_USERS (Some (VArr [])) wn)
      as (u & wu & ->).
    destruct (getItem_never_throws STORAGE_KEYS.APP_SETTINGS (Some (VObj [])) wu)
      as (s & ws & ->).
    eexists _, _. reflexivity.
  - intros rest Hc Hf.
    unfold storageService.createBackup, try_catch, bind.
    rewrite (getItem_rejected _ _ w (true :: true :: true :: rest));
      [|rewrite Hc; apply lookup_empty|exact Hf].
    rewrite (getItem_rejected _ _ _ (true :: true :: rest));
      [|simpl; rewrite Hc; apply lookup_empty|reflexivity].
    rewrite (getItem_rejected _ _ _ (true :: rest));
      [|simpl; rewrite Hc; apply lookup_empty|reflexivity].
    rewrite (getItem_rejected _ _ _ rest);
      [|simpl; rewrite Hc; apply lookup_empty|reflexivity].
    split; reflexivity.
Qed.

Lemma createBackup_swallows_read_failures_witness :
  fst (storageService.createBackup unreadable_world)
  = Ok (JSON_stringify
          (snapshot_of "1970-01-01T00:00:00.000Z" (VArr []) (VArr []) (VArr []) (VObj [])))
  /\ is_Some (disk (snd (storageService.createBackup unreadable_world))
              !! STORAGE_KEYS.APPOINTMENTS).
Proof.
  destruct (createBackup_swallows_read_failures unreadable_world) as [_ Hempty].
  destruct (Hempty []) as [Htext Hdisk]; [reflexivity..|].
  split; [exact Htext|]. rewrite Hdisk. vm_compute. eauto.
Defined.

(** On a store whose AsyncStorage rejects nothing, a read leaves the
    schedule empty. *)
Lemma getItem_reliable `{JsRuntime} (key : string) (defaultValue : option value)
    (w : World) :
  faults w = [] -> faults (snd (storageService.getItem key defaultValue w)) = [].
Proof.
  intros Hf. unfold storageService.getItem, try_catch, bind, gets, Date_now, gets.
  destruct (cache w !! key) as [c|]; simpl.
  - destruct (cache_valid c (clock w)); simpl; [exact Hf|].
    unfold AsyncStorage_getItem, bind, gets, io; simpl. rewrite Hf. simpl.
    destruct (disk w !! key) as [s|]; simpl; [|exact Hf].
    destruct (nonempty s); simpl; [|exact Hf].
    unfold parse_json. destruct (JSON_parse s); simpl; exact Hf.
  - unfold AsyncStorage_getItem, bind, gets, io; simpl. rewrite Hf. simpl.
    destruct (disk w !! key) as [s|]; simpl; [|exact Hf].
    destruct (nonempty s); simpl; [|exact Hf].
    unfold parse_json. destruct (JSON_parse s); simpl; exact Hf.
Qed.

(** What a read answers depends on the entry of its key, the clock and
    the fault schedule only. *)
Lemma getItem_local `{JsRuntime} (key : string) (defaultValue : option value)
    (w w' : World) :
  cache w' !! key = cache w !! key -> disk w' !! key = disk w !! key ->
  clock w' = clock w -> faults w' = faults w ->
  fst (storageService.getItem key defaultValue w')
  = fst (storageService.getItem key defaultValue w).
Proof.
  intros Hc Hd Ht Hf.
  unfold storageService.getItem, try_catch, bind, gets, Date_now, gets.
  rewrite Hc. destruct (cache w !! key) as [c|]; simpl.
  - rewrite Ht. destruct (cache_valid c (clock w)); simpl; [reflexivity|].
    unfold AsyncStorage_getItem, bind, gets, io; simpl. rewrite Hf.
    destruct (faults w) as [|[] rest]; simpl; try reflexivity; rewrite Hd;
      destruct (disk w !! key) as [s|]; simpl; try reflexivity;
      destruct (nonempty s); simpl; try reflexivity;
      unfold parse_json; destruct (JSON_parse s); reflexivity.
  - unfold AsyncStorage_getItem, bind, gets, io; simpl. rewrite Hf.
    destruct (faults w) as [|[] rest]; simpl; try reflexivity; rewrite Hd;
      destruct (disk w !! key) as [s|]; simpl; try reflexivity;
      destruct (nonempty s); simpl; try reflexivity;
      unfold parse_json; destruct (JSON_parse s); reflexivity.
Qed.

(** A read of one key on a reliable store does not change what a read
    of another key answers. *)
Lemma reads_after_getItem `{JsRuntime} (key other : string)
    (defaultValue : option value) (d : value) (w : World) :
  other <> key -> faults w = [] ->
  reads other d (snd (storageService.getItem key defaultValue w)) = reads other d w.
Proof.
  intros Hne Hf. unfold reads.
  destruct (getItem_frame key defaultValue w) as (Hd & Ht & Hc).
  rewrite (getItem_local other (Some d) w
             (snd (storageService.getItem key defaultValue w))); [reflexivity|..].
  - apply Hc. exact Hne.
  - rewrite Hd. reflexivity.
  - exact Ht.
  - rewrite Hf. apply getItem_reliable. exact Hf.
Qed.

Lemma getItem_reads `{JsRuntime} (key : string) (d : value) (w : World) :
  exists w', storageService.getItem key (Some d) w = (Ok (reads key d w), w').
Proof.
  unfold reads. destruct (getItem_never_throws key (Some d) w) as (v & w' & E).
  rewrite E. eauto.
Qed.

Lemma createBackup_reliable `{JsRuntime} (w : World) :
  faults w = [] ->
  fst (storageService.createBackup w) = Ok (JSON_stringify (snapshot_at w)).
Proof.
  intros Hf. unfold storageService.createBackup, try_catch, bind, snapshot_at.
  destruct (getItem_reads STORAGE_KEYS.APPOINTMENTS (VArr []) w) as [wa Ea].
  rewrite Ea.
  assert (Hwa : wa = snd (storageService.getItem STORAGE_KEYS.APPOINTMENTS
                            (Some (VArr [])) w)) by (rewrite Ea; reflexivity).
  assert (Hfa : faults wa = []) by (rewrite Hwa; apply getItem_reliable; exact Hf).
  destruct (getItem_reads STORAGE_KEYS.NOTIFICATIONS (VArr []) wa) as [wn En].
  rewrite En.
  assert (Hwn : wn = snd (storageService.getItem STORAGE_KEYS.NOTIFICATIONS
                            (Some (VArr [])) wa)) by (rewrite En; reflexivity).
  assert (Hfn : faults wn = []) by (rewrite Hwn; apply getItem_reliable; exact Hfa).
  destruct (getItem_reads STORAGE_KEYS.REGISTERED_USERS (VArr []) wn) as [wu Eu].
  rewrite Eu.
  assert (Hwu : wu = snd (storageService.getItem STORAGE_KEYS.REGISTERED_USERS
                            (Some (VArr [])) wn)) by (rewrite Eu; reflexivity).
  assert (Hfu : faults wu = []) by (rewrite Hwu; apply getItem_reliable; exact Hfn).
  destruct (getItem_reads STORAGE_KEYS.APP_SETTINGS (VObj []) wu) as [ws Es].
  rewrite Es.
  assert (Hws : ws = snd (storageService.getItem STORAGE_KEYS.APP_SETTINGS
                            (Some (VObj [])) wu)) by (rewrite Es; reflexivity).
  simpl.
  assert (Hclock : clock ws = clock w).
  { rewrite Hws, (proj1 (proj2 (getItem_frame _ _ wu))),
      Hwu, (proj1 (proj2 (getItem_frame _ _ wn))),
      Hwn, (proj1 (proj2 (getItem_frame _ _ wa))),
      Hwa, (proj1 (proj2 (getItem_frame _ _ w))). reflexivity. }
  rewrite Hclock.
  assert (Hn : reads STORAGE_KEYS.NOTIFICATIONS (VArr []) wa
               = reads STORAGE_KEYS.NOTIFICATIONS (VArr []) w).
  { rewrite Hwa. apply reads_after_getItem; [discriminate | exact Hf]. }
  assert (Hu : reads STORAGE_KEYS.REGISTERED_USERS (VArr []) wn
               = reads STORAGE_KEYS.REGISTERED_USERS (VArr []) w).
  { rewrite Hwn, reads_after_getItem by (discriminate || exact Hfa).
    rewrite Hwa. apply reads_after_getItem; [discriminate | exact Hf]. }
  assert (Hs : reads STORAGE_KEYS.APP_SETTINGS (VObj []) wu
               = reads STORAGE_KEYS.APP_SETTINGS (VObj []) w).
  { rewrite Hwu, reads_after_getItem by (discriminate || exact Hfn).
    rewrite Hwn, reads_after_getItem by (discriminate || exact Hfa).
    rewrite Hwa. apply reads_after_getItem; [discriminate | exact Hf]. }
  rewrite Hn, Hu, Hs. reflexivity.
Qed.

Lemma write_all_frame `{JsRuntime} (plan : list (string * value)) (key : string)
    (w : World) :
  key ∉ plan.*1 -> section_unchanged key w (snd (write_all plan w)).
Proof.
  revert w. induction plan as [|[k v] rest IH]; intros w Hk; simpl.
  - split; reflexivity.
  - apply not_elem_of_cons in Hk as [Hne Hk]. unfold bind.
    pose proof (setItem_frame k v None w key Hne) as Hset.
    destruct (storageService.setItem k v None w) as [[[]|e] w1]; simpl in *;
      [|exact Hset].
    apply section_unchanged_trans with w1; [exact Hset | apply IH; exact Hk].
Qed.

(** On a store that rejects nothing, every entry of a plan is written
    and cached without expiry. *)
Lemma write_all_reliable `{JsRuntime} (plan : list (string * value)) (w : World) :
  NoDup plan.*1 -> faults w = [] ->
  exists w',
    write_all plan w = (Ok tt, w') /\ faults w' = []
    /\ forall key v, (key, v) ∈ plan ->
         exists stamp,
           cache w' !! key = Some {| data := v; timestamp := stamp; expiry := None |}.
Proof.
  revert w. induction plan as [|[k v] rest IH]; intros w Hnd Hf.
  - exists w. split; [reflexivity|]. split; [exact Hf|].
    intros key u Hin. apply elem_of_nil in Hin. contradiction.
  - apply NoDup_cons in Hnd as [Hk Hnd].
    assert (Hn : next_call_succeeds w) by (unfold next_call_succeeds; rewrite Hf; discriminate).
    set (w1 := written k v None w).
    assert (Hf1 : faults w1 = []) by (unfold w1, written, after_call; simpl; rewrite Hf; reflexivity).
    destruct (IH w1 Hnd Hf1) as (w' & Hrun & Hf' & Hall).
    exists w'. split; [|split; [exact Hf'|]].
    + simpl. unfold bind. rewrite (setItem_succeeds _ _ _ _ Hn). exact Hrun.
    + intros key u Hin. apply elem_of_cons in Hin as [[= -> ->]|Hin];
        [|apply Hall; exact Hin].
      exists (clock w).
      pose proof (write_all_frame rest k w1 Hk) as [_ Hc].
      rewrite Hrun in Hc. simpl in Hc. rewrite Hc.
      unfold w1, written; simpl. apply lookup_insert_eq.
Qed.

(** Restoring a snapshot with a truthy [data] on a store that rejects
    nothing: every section then reads as the plan has it. *)
Lemma restoreFromBackup_reliable `{JsRuntime} (text : string) (backup d : value)
    (w : World) :
  JSON_parse text = Some backup -> field backup "data" = Some d -> truthy d = true ->
  faults w = [] ->
  exists w',
    storageService.restoreFromBackup text w = (Ok tt, w')
    /\ forall key v defaultValue, (key, v) ∈ restore_plan d ->
         storageService.getItem key defaultValue w' = (Ok v, w').
Proof.
  intros Hp Hd Ht Hf.
  destruct (write_all_reliable (restore_plan d) w (restore_plan_NoDup d) Hf)
    as (w' & Hrun & _ & Hall).
  exists w'. split.
  - rewrite (restoreFromBackup_writes text w backup d Hp Hd Ht).
    unfold try_catch. rewrite Hrun. reflexivity.
  - intros key v dflt Hin. destruct (Hall key v Hin) as [stamp Hc].
    apply (getItem_cached key dflt w' _ Hc). reflexivity.
Qed.

(** X15. Backup then restore, on stores that reject nothing and with a
    runtime that parses the snapshot text back: after
    restoreFromBackup(createBackup()), each of the four sections reads
    as it read when the backup was taken, except that a section that
    read as a falsy value reads as its empty default. *)
Theorem backup_then_restore_reproduces_sections `{JsRuntime} (w w2 : World) :
  faults w = [] -> faults w2 = [] ->
  reads_back (snapshot_at w) ->
  exists text w3,
    fst (storageService.createBackup w) = Ok text
    /\ storageService.restoreFromBackup text w2 = (Ok tt, w3)
    /\ forall key empty defaultValue, (key, empty) ∈ section_defaults ->
         storageService.getItem key defaultValue w3
         = (Ok (or_else (Some (reads key empty w)) empty), w3).
Proof.
  intros Hf Hf2 Hback.
  exists (JSON_stringify (snapshot_at w)).
  destruct (restoreFromBackup_reliable (JSON_stringify (snapshot_at w)) (snapshot_at w)
              (VObj [("appointments", reads STORAGE_KEYS.APPOINTMENTS (VArr []) w);
                     ("notifications", reads STORAGE_KEYS.NOTIFICATIONS (VArr []) w);
                     ("registeredUsers", reads STORAGE_KEYS.REGISTERED_USERS (VArr []) w);
                     ("settings", reads STORAGE_KEYS.APP_SETTINGS (VObj []) w)])
              w2 Hback eq_refl eq_refl Hf2) as (w3 & Hrun & Hreads).
  exists w3. split; [apply createBackup_reliable; exact Hf|]. split; [exact Hrun|].
  intros key empty dflt Hin. apply Hreads.
  unfold section_defaults in Hin. unfold restore_plan.
  repeat (apply elem_of_cons in Hin as [[= -> ->]|Hin];
          [set_solver|]).
  apply elem_of_nil in Hin. contradiction.
Qed.

Lemma backup_then_restore_reproduces_sections_witness :
  exists text w3,
    fst (storageService.createBackup two_appointments) = Ok text
    /\ storageService.restoreFromBackup text (fresh_world 5) = (Ok tt, w3)
    /\ storageService.getItem STORAGE_KEYS.APPOINTMENTS None w3
       = (Ok (VArr [sample_appointment; second_appointment]), w3).
Proof.
  destruct (backup_then_restore_reproduces_sections two_appointments (fresh_world 5))
    as (text & w3 & Htext & Hrun & Hreads).
  - reflexivity.
  - reflexivity.
  - vm_compute. reflexivity.
  - exists text, w3. split; [exact Htext|]. split; [exact Hrun|].
    apply (Hreads STORAGE_KEYS.APPOINTMENTS (VArr []) None).
    apply list_elem_of_here.
Defined.

(** X16. The default settings do not survive a backup. On a store with
    no settings getAppSettings answers the four defaults, createBackup
    records the settings as an empty object, and after
    restoreFromBackup of that backup getAppSettings answers the empty
    object instead of the defaults. *)
Theorem default_settings_are_lost_by_backup `{JsRuntime} (w w2 : World) :
  absent STORAGE_KEYS.APP_SETTINGS w ->
  faults w = [] -> faults w2 = [] ->
  reads_back (snapshot_at w) ->
  fst (storageService.getAppSettings w) = Ok storageService.defaultSettings
  /\ exists text w3,
       fst (storageService.createBackup w) = Ok text
       /\ storageService.restoreFromBackup text w2 = (Ok tt, w3)
       /\ storageService.getAppSettings w3 = (Ok (VObj []), w3).
Proof.
  intros Habs Hf Hf2 Hback. split.
  - unfold storageService.getAppSettings. rewrite (getItem_absent _ _ w Habs). reflexivity.
  - exists (JSON_stringify (snapshot_at w)).
    destruct (restoreFromBackup_reliable (JSON_stringify (snapshot_at w)) (snapshot_at w)
                (VObj [("appointments", reads STORAGE_KEYS.APPOINTMENTS (VArr []) w);
                       ("notifications", reads STORAGE_KEYS.NOTIFICATIONS (VArr []) w);
                       ("registeredUsers", reads STORAGE_KEYS.REGISTERED_USERS (VArr []) w);
                       ("settings", reads STORAGE_KEYS.APP_SETTINGS (VObj []) w)])
                w2 Hback eq_refl eq_refl Hf2) as (w3 & Hrun & Hreads).
    exists w3. split; [apply createBackup_reliable; exact Hf|]. split; [exact Hrun|].
    unfold storageService.getAppSettings.
    rewrite (Hreads STORAGE_KEYS.APP_SETTINGS (VObj [])); [reflexivity|].
    unfold restore_plan.
    assert (Hs : reads STORAGE_KEYS.APP_SETTINGS (VObj []) w = VObj []).
    { unfold reads. rewrite (getItem_absent _ _ w Habs). reflexivity. }
    simpl. rewrite Hs. simpl. set_solver.
Qed.

Lemma default_settings_are_lost_by_backup_witness :
  fst (storageService.getAppSettings two_appointments) = Ok storageService.defaultSettings
  /\ exists text w3,
       fst (storageService.createBackup two_appointments) = Ok text
       /\ storageService.restoreFromBackup text (fresh_world 5) = (Ok tt, w3)
       /\ storageService.getAppSettings w3 = (Ok (VObj []), w3).
Proof.
  apply (default_settings_are_lost_by_backup two_appointments (fresh_world 5)).
  - split; reflexivity.
  - reflexivity.
  - reflexivity.
  - vm_compute. reflexivity.
Defined.

(** ** statisticsService: the three views *)

Lemma getDoctorStatistics_runs `{JsRuntime} (doctorId : string) (w : World)
    (appointments : list Appointment.t) :
  next_call_succeeds w ->
  stored_list as_Appointment "@MedicalApp:appointments" w = Some appointments ->
  exists s,
    statisticsService.getDoctorStatistics doctorId w = (Ok s, after_call w)
    /\ doctor_totalAppointments s = length (of_doctor doctorId appointments)
    /\ doctor_confirmedAppointments s
       = count_status confirmed (of_doctor doctorId appointments)
    /\ doctor_pendingAppointments s
       = count_status pending (of_doctor doctorId appointments)
    /\ doctor_cancelledAppointments s
       = count_status cancelled (of_doctor doctorId appointments)
    /\ doctor_totalPatients s
       = size (list_to_set (map Appointment.patientId (of_doctor doctorId appointments))
               : gset string)
    /\ doctor_statusPercentages s
       = {| pct_confirmed :=
              percentage (count_status confirmed (of_doctor doctorId appointments))
                         (length (of_doctor doctorId appointments));
            pct_pending :=
              percentage (count_status pending (of_doctor doctorId appointments))
                         (length (of_doctor doctorId appointments));
            pct_cancelled :=
              percentage (count_status cancelled (of_doctor doctorId appointments))
                         (length (of_doctor doctorId appointments)) |}.
Proof.
  intros Hn Hs. eexists. split.
  - unfold statisticsService.getDoctorStatistics, try_catch, bind.
    rewrite (AsyncStorage_getItem_succeeds _ w Hn).
    rewrite (parse_or_empty_stored _ _ w _ _ Hs). reflexivity.
  - repeat split.
Qed.

Lemma getPatientStatistics_runs `{JsRuntime} (patientId : string) (w : World)
    (appointments : list Appointment.t) :
  next_call_succeeds w ->
  stored_list as_Appointment "@MedicalApp:appointments" w = Some appointments ->
  exists s,
    statisticsService.getPatientStatistics patientId w = (Ok s, after_call w)
    /\ patient_totalAppointments s = length (of_patient patientId appointments)
    /\ patient_confirmedAppointments s
       = count_status confirmed (of_patient patientId appointments)
    /\ patient_pendingAppointments s
       = count_status pending (of_patient patientId appointments)
    /\ patient_cancelledAppointments s
       = count_status cancelled (of_patient patientId appointments)
    /\ patient_totalDoctors s
       = size (list_to_set (map Appointment.doctorId (of_patient patientId appointments))
               : gset string)
    /\ patient_specialties s
       = fold_left (fun acc a => tally_property (Appointment.specialty a) acc)
           (of_patient patientId appointments) ∅.
Proof.
  intros Hn Hs. eexists. split.
  - unfold statisticsService.getPatientStatistics, try_catch, bind.
    rewrite (AsyncStorage_getItem_succeeds _ w Hn).
    rewrite (parse_or_empty_stored _ _ w _ _ Hs). reflexivity.
  - repeat split.
Qed.

(** The three statuses partition a list of appointments. *)
Lemma count_status_partition (appointments : list Appointment.t) :
  (count_status confirmed appointments + count_status pending appointments
   + count_status cancelled appointments = length appointments)%nat.
Proof.
  unfold count_status. induction appointments as [|a rest IH]; [reflexivity|].
  rewrite !filter_cons. destruct (Appointment.status a); simpl in *; lia.
Qed.

Lemma count_status_filter_le (st : Status) (P : Appointment.t -> Prop)
    `{forall a, Decision (P a)} (appointments : list Appointment.t) :
  (count_status st (filter P appointments) <= count_status st appointments)%nat.
Proof.
  unfold count_status. induction appointments as [|a rest IH]; [reflexivity|].
  rewrite (filter_cons P). destruct (decide (P a)).
  - rewrite !filter_cons. destruct (decide _); simpl; lia.
  - rewrite filter_cons. destruct (decide _); simpl; lia.
Qed.

Lemma size_list_to_set_le (l : list string) :
  (size (list_to_set l : gset string) <= length l)%nat.
Proof.
  induction l as [|x l IH].
  - rewrite list_to_set_nil, size_empty. reflexivity.
  - rewrite list_to_set_cons, size_union_alt, size_singleton. simpl.
    pose proof (subseteq_size (list_to_set l ∖ {[x]}) (list_to_set l : gset string)
                  (subseteq_difference_l _ _ _ (reflexivity _))).
    lia.
Qed.

Lemma size_list_to_set_pos (l : list string) :
  l <> [] -> (0 < size (list_to_set l : gset string))%nat.
Proof.
  destruct l as [|x l]; [congruence|]. intros _.
  rewrite list_to_set_cons, size_union_alt, size_singleton. lia.
Qed.

(** X17. In the statistics of the whole application, of a doctor and of
    a patient alike, the confirmed, pending and cancelled counts add up
    to the total number of appointments. *)
Theorem status_counts_add_up_to_the_total `{JsRuntime}
    (doctorId patientId : string) (w : World) (appointments : list Appointment.t) :
  calls_succeed 2 w ->
  stored_list as_Appointment "@MedicalApp:appointments" w = Some appointments ->
  users_parse w ->
  (exists s w',
     statisticsService.getGeneralStatistics w = (Ok s, w')
     /\ (confirmedAppointments s + pendingAppointments s + cancelledAppointments s
         = totalAppointments s)%nat)
  /\ (exists s w',
        statisticsService.getDoctorStatistics doctorId w = (Ok s, w')
        /\ (doctor_confirmedAppointments s + doctor_pendingAppointments s
            + doctor_cancelledAppointments s = doctor_totalAppointments s)%nat)
  /\ (exists s w',
        statisticsService.getPatientStatistics patientId w = (Ok s, w')
        /\ (patient_confirmedAppointments s + patient_pendingAppointments s
            + patient_cancelledAppointments s = patient_totalAppointments s)%nat).
Proof.
  intros Hc Hs Hu. pose proof (calls_succeed_next _ _ Hc) as [Hn _].
  split; [|split].
  - eexists _, _. split; [apply getGeneralStatistics_runs; eassumption|].
    apply count_status_partition.
  - destruct (getDoctorStatistics_runs doctorId w appointments Hn Hs)
      as (s & Hrun & Ht & Hcf & Hpd & Hcc & _).
    exists s, (after_call w). split; [exact Hrun|].
    rewrite Ht, Hcf, Hpd, Hcc. apply count_status_partition.
  - destruct (getPatientStatistics_runs patientId w appointments Hn Hs)
      as (s & Hrun & Ht & Hcf & Hpd & Hcc & _).
    exists s, (after_call w). split; [exact Hrun|].
    rewrite Ht, Hcf, Hpd, Hcc. apply count_status_partition.
Qed.

Lemma status_counts_add_up_to_the_total_witness :
  exists g d p,
    fst (statisticsService.getGeneralStatistics clinic_world) = Ok g
    /\ fst (statisticsService.getDoctorStatistics "d1" clinic_world) = Ok d
    /\ fst (statisticsService.getPatientStatistics "p1" clinic_world) = Ok p
    /\ (confirmedAppointments g + pendingAppointments g + cancelledAppointments g
        = totalAppointments g)%nat
    /\ (doctor_confirmedAppointments d + doctor_pendingAppointments d
        + doctor_cancelledAppointments d = doctor_totalAppointments d)%nat
    /\ (patient_confirmedAppointments p + patient_pendingAppointments p
        + patient_cancelledAppointments p = patient_totalAppointments p)%nat.
Proof.
  destruct (status_counts_add_up_to_the_total "d1" "p1" clinic_world sample_records)
    as ((g & wg & Hg & Hgs) & (d & wd & Hd & Hds) & (p & wp & Hp & Hps)).
  - vm_compute. constructor.
  - vm_compute. reflexivity.
  - exact I.
  - exists g, d, p. rewrite Hg, Hd, Hp. repeat split; assumption.
Defined.

Lemma key_histogram_total {T} (key : T -> string) (l : list T) :
  histogram_total (fold_left (fun acc a => bump (key a) acc) l ∅) = length l.
Proof.
  assert (G : forall acc,
    histogram_total (fold_left (fun acc a => bump (key a) acc) l acc)
    = (length l + histogram_total acc)%nat).
  { induction l as [|a rest IH]; intros acc; simpl; [reflexivity|].
    rewrite IH, histogram_total_bump. lia. }
  rewrite G. unfold histogram_total. rewrite map_fold_empty. lia.
Qed.

Lemma distinct_keys_filter_le {T} (key : T -> string) (P : T -> Prop)
    `{forall a, Decision (P a)} (l : list T) :
  (size (list_to_set (map key (filter P l)) : gset string)
   <= size (list_to_set (map key l) : gset string))%nat.
Proof.
  apply subseteq_size. intros k.
  rewrite !elem_of_list_to_set, !list_elem_of_In, !in_map_iff.
  intros (a & Hk & Ha). exists a. split; [exact Hk|].
  apply list_elem_of_In. apply list_elem_of_In in Ha.
  apply list_elem_of_filter in Ha. tauto.
Qed.

Lemma of_doctor_nil_iff (doctorId : string) (appointments : list Appointment.t) :
  of_doctor doctorId appointments = []
  <-> Forall (fun a => Appointment.doctorId a <> doctorId) appointments.
Proof.
  unfold of_doctor. induction appointments as [|a rest IH]; [split; constructor|].
  rewrite filter_cons.
  destruct (decide (String.eqb (Appointment.doctorId a) doctorId = true)) as [E|E].
  - split; [discriminate|]. intros Hall. apply Forall_cons in Hall as [Hne _].
    apply String.eqb_eq in E. contradiction.
  - rewrite IH. rewrite Forall_cons. split; [|tauto]. intros Hall. split; [|exact Hall].
    intros Heq. apply E. apply String.eqb_eq. exact Heq.
Qed.

(** X18. A doctor's statistics count that doctor's appointments only:
    each figure is the figure of the filtered list, it never exceeds
    the figure of the whole application, the distinct patients are at
    most the appointments and at least one when there is an appointment,
    and a doctor none of the stored appointments belongs to is told zero
    everywhere, percentages included. *)
Theorem getDoctorStatistics_is_scoped_to_the_doctor `{JsRuntime}
    (doctorId : string) (w : World) (appointments : list Appointment.t) :
  calls_succeed 2 w ->
  stored_list as_Appointment "@MedicalApp:appointments" w = Some appointments ->
  users_parse w ->
  exists g d w1 w2,
    statisticsService.getGeneralStatistics w = (Ok g, w1)
    /\ statisticsService.getDoctorStatistics doctorId w = (Ok d, w2)
    /\ doctor_totalAppointments d = length (of_doctor doctorId appointments)
    /\ (doctor_totalAppointments d <= totalAppointments g)%nat
    /\ (doctor_confirmedAppointments d <= confirmedAppointments g)%nat
    /\ (doctor_pendingAppointments d <= pendingAppointments g)%nat
    /\ (doctor_cancelledAppointments d <= cancelledAppointments g)%nat
    /\ (doctor_totalPatients d <= totalPatients g)%nat
    /\ (doctor_totalPatients d <= doctor_totalAppointments d)%nat
    /\ ((0 < doctor_totalAppointments d)%nat -> (0 < doctor_totalPatients d)%nat)
    /\ (Forall (fun a => Appointment.doctorId a <> doctorId) appointments ->
        d = empty_DoctorStatistics).
Proof.
  intros Hc Hs Hu. pose proof (calls_succeed_next _ _ Hc) as [Hn _].
  destruct (getDoctorStatistics_runs doctorId w appointments Hn Hs)
    as (d & Hrun & Ht & Hcf & Hpd & Hcc & Hpt & Hpct).
  exists (statistics_of appointments), d, (after_call (after_call w)), (after_call w).
  split; [apply getGeneralStatistics_runs; assumption|].
  split; [exact Hrun|].
  split; [exact Ht|].
  rewrite Ht, Hcf, Hpd, Hcc, Hpt. simpl.
  split; [apply length_filter|].
  split; [apply count_status_filter_le|].
  split; [apply count_status_filter_le|].
  split; [apply count_status_filter_le|].
  split; [apply distinct_keys_filter_le|].
  split.
  { etransitivity; [apply size_list_to_set_le|]. rewrite length_map. reflexivity. }
  split.
  { intros Hpos. apply size_list_to_set_pos.
    destruct (of_doctor doctorId appointments); [simpl in Hpos; lia|discriminate]. }
  intros Hall. apply of_doctor_nil_iff in Hall.
  destruct d as [dt dc dp dx dn dpc]. simpl in *.
  rewrite Hall in *. subst. reflexivity.
Qed.

Lemma getDoctorStatistics_is_scoped_to_the_doctor_witness :
  calls_succeed 2 clinic_world
  /\ stored_list as_Appointment "@MedicalApp:appointments" clinic_world
     = Some sample_records
  /\ users_parse clinic_world
  /\ exists g d w1 w2,
       statisticsService.getGeneralStatistics clinic_world = (Ok g, w1)
       /\ statisticsService.getDoctorStatistics "d1" clinic_world = (Ok d, w2)
       /\ doctor_totalAppointments d = 3%nat
       /\ doctor_totalPatients d = 2%nat
       /\ totalAppointments g = 4%nat.
Proof.
  assert (Hc : calls_succeed 2 clinic_world) by (vm_compute; constructor).
  assert (Hs : stored_list as_Appointment "@MedicalApp:appointments" clinic_world
               = Some sample_records) by (vm_compute; reflexivity).
  assert (Hu : users_parse clinic_world) by exact I.
  split; [exact Hc|]. split; [exact Hs|]. split; [exact Hu|].
  destruct (getDoctorStatistics_is_scoped_to_the_doctor "d1" clinic_world
              sample_records Hc Hs Hu)
    as (g & d & w1 & w2 & Hg & Hd & Ht & _).
  exists g, d, w1, w2. split; [exact Hg|]. split; [exact Hd|].
  split; [rewrite Ht; reflexivity|].
  split.
  - assert (E : fst (statisticsService.getDoctorStatistics "d1" clinic_world) = Ok d)
      by (rewrite Hd; reflexivity).
    vm_compute in E. injection E as <-. vm_compute. reflexivity.
  - assert (E : fst (statisticsService.getGeneralStatistics clinic_world) = Ok g)
      by (rewrite Hg; reflexivity).
    vm_compute in E. injection E as <-. reflexivity.
Defined.

Lemma well_kept_empty : well_kept ∅.
Proof. split; [apply lookup_empty|]. intros k. rewrite lookup_empty. exact I. Qed.

Lemma not_inherited_not_proto (k : string) :
  inherited k = false -> String.eqb k "__proto__" = false.
Proof.
  intros Hk. destruct (String.eqb_spec k "__proto__") as [->|_]; [|reflexivity].
  vm_compute in Hk. discriminate.
Qed.

(** A specialty that names an inherited property adds no count. *)
Lemma tally_property_inherited (k : string) (obj : gmap string tally) :
  inherited k = true -> well_kept obj ->
  well_kept (tally_property k obj)
  /\ omap count_of (tally_property k obj) = omap count_of obj.
Proof.
  intros Hk [Hproto Hkept]. unfold tally_property.
  destruct (String.eqb_spec k "__proto__") as [->|Hne]; [split; [split|]; auto|].
  assert (Hnew : well_kept (<[k := Concatenated]> obj)
                 /\ (obj !! k = None \/ obj !! k = Some Concatenated ->
                     omap count_of (<[k := Concatenated]> obj) = omap count_of obj)).
  { split.
    - split; [rewrite lookup_insert_ne by exact Hne; exact Hproto|].
      intros j. destruct (decide (k = j)) as [<-|Hj].
      + rewrite lookup_insert_eq. exact Hk.
      + rewrite lookup_insert_ne by exact Hj. apply Hkept.
    - intros Hold. rewrite omap_insert_None by reflexivity.
      apply delete_id. rewrite lookup_omap.
      destruct Hold as [-> | ->]; reflexivity. }
  destruct Hnew as [Hw Ho]. pose proof (Hkept k) as Hat.
  destruct (obj !! k) as [[n|]|] eqn:E.
  - congruence.
  - split; [exact Hw|]. apply Ho. right. reflexivity.
  - rewrite Hk. split; [exact Hw|]. apply Ho. left. reflexivity.
Qed.

(** Any other specialty is counted as on a map of own keys. *)
Lemma tally_property_counted (k : string) (obj : gmap string tally) :
  inherited k = false -> well_kept obj ->
  well_kept (tally_property k obj)
  /\ omap count_of (tally_property k obj) = bump k (omap count_of obj).
Proof.
  intros Hk [Hproto Hkept]. unfold tally_property.
  rewrite (not_inherited_not_proto k Hk).
  assert (Hne : k <> "__proto__").
  { intros ->. vm_compute in Hk. discriminate. }
  assert (Hnew : forall n, well_kept (<[k := Times n]> obj)).
  { intros n. split; [rewrite lookup_insert_ne by exact Hne; exact Hproto|].
    intros j. destruct (decide (k = j)) as [<-|Hj].
    - rewrite lookup_insert_eq. exact Hk.
    - rewrite lookup_insert_ne by exact Hj. apply Hkept. }
  pose proof (Hkept k) as Hat. unfold bump. rewrite lookup_omap.
  destruct (obj !! k) as [[n|]|] eqn:E; simpl.
  - split; [apply Hnew|]. apply omap_insert_Some. reflexivity.
  - congruence.
  - rewrite Hk. split; [apply Hnew|]. apply omap_insert_Some. reflexivity.
Qed.

Lemma tally_fold {T} (key : T -> string) (l : list T) (obj : gmap string tally) :
  well_kept obj ->
  well_kept (fold_left (fun acc a => tally_property (key a) acc) l obj)
  /\ omap count_of (fold_left (fun acc a => tally_property (key a) acc) l obj)
     = fold_left (fun acc a => bump (key a) acc)
         (filter (fun a => inherited (key a) = false) l) (omap count_of obj).
Proof.
  revert obj. induction l as [|a l IH]; intros obj Hobj; [split; [exact Hobj|reflexivity]|].
  simpl. rewrite filter_cons.
  destruct (decide (inherited (key a) = false)) as [Hk|Hk].
  - destruct (tally_property_counted (key a) obj Hk Hobj) as [Hw Ho].
    destruct (IH _ Hw) as [Hw' Ho']. split; [exact Hw'|].
    rewrite Ho', Ho. reflexivity.
  - apply not_false_is_true in Hk.
    destruct (tally_property_inherited (key a) obj Hk Hobj) as [Hw Ho].
    destruct (IH _ Hw) as [Hw' Ho']. split; [exact Hw'|].
    rewrite Ho', Ho. reflexivity.
Qed.

Lemma tally_total_fold {T} (key : T -> string) (l : list T) :
  tally_total (fold_left (fun acc a => tally_property (key a) acc) l ∅)
  = length (filter (fun a => inherited (key a) = false) l).
Proof.
  unfold tally_total.
  destruct (tally_fold key l ∅ well_kept_empty) as [_ ->].
  rewrite omap_empty. apply key_histogram_total.
Qed.

Lemma plainly_named_all (appointments : list Appointment.t) :
  Forall (fun a => inherited (Appointment.specialty a) = false) appointments ->
  plainly_named appointments = appointments.
Proof.
  unfold plainly_named. induction 1 as [|a l Ha Hall IH]; [reflexivity|].
  rewrite filter_cons_True by exact Ha. rewrite IH. reflexivity.
Qed.

(** X19. The specialties object is a plain object keyed by free text.
    Its counts add up to the number of appointments whose specialty
    does not name a property inherited from Object.prototype, in the
    general statistics and in a patient's: when no specialty is such a
    name, every appointment is counted under exactly one specialty.
    A specialty that is such a name is never given a count, and
    [__proto__] never becomes a property of the object.  A patient has
    seen at most as many distinct doctors as they have appointments. *)
Theorem specialties_count_every_appointment `{JsRuntime}
    (patientId : string) (w : World) (appointments : list Appointment.t) :
  calls_succeed 2 w ->
  stored_list as_Appointment "@MedicalApp:appointments" w = Some appointments ->
  users_parse w ->
  exists g p w1 w2,
    statisticsService.getGeneralStatistics w = (Ok g, w1)
    /\ statisticsService.getPatientStatistics patientId w = (Ok p, w2)
    /\ tally_total (specialties g) = length (plainly_named appointments)
    /\ tally_total (patient_specialties p)
       = length (plainly_named (of_patient patientId appointments))
    /\ (Forall (fun a => inherited (Appointment.specialty a) = false) appointments ->
        tally_total (specialties g) = totalAppointments g
        /\ tally_total (patient_specialties p) = patient_totalAppointments p)
    /\ (forall k n, specialties g !! k = Some (Times n) -> inherited k = false)
    /\ specialties g !! "__proto__" = None
    /\ patient_totalAppointments p = length (of_patient patientId appointments)
    /\ (patient_totalDoctors p <= patient_totalAppointments p)%nat
    /\ (patient_totalDoctors p <= totalDoctors g)%nat.
Proof.
  intros Hc Hs Hu. pose proof (calls_succeed_next _ _ Hc) as [Hn _].
  destruct (getPatientStatistics_runs patientId w appointments Hn Hs)
    as (p & Hrun & Ht & _ & _ & _ & Hdoc & Hsp).
  exists (statistics_of appointments), p, (after_call (after_call w)), (after_call w).
  split; [apply getGeneralStatistics_runs; assumption|].
  split; [exact Hrun|].
  split; [apply tally_total_fold|].
  rewrite Hsp, Ht, Hdoc. simpl.
  split; [apply tally_total_fold|].
  split.
  { intros Hall. split.
    - rewrite (tally_total_fold Appointment.specialty appointments).
      fold (plainly_named appointments). rewrite (plainly_named_all _ Hall). reflexivity.
    - rewrite (tally_total_fold Appointment.specialty).
      fold (plainly_named (of_patient patientId appointments)).
      rewrite plainly_named_all; [reflexivity|].
      unfold of_patient. apply Forall_forall. intros a Ha.
      apply list_elem_of_filter in Ha as [_ Ha].
      rewrite Forall_forall in Hall. apply Hall. exact Ha. }
  destruct (tally_fold Appointment.specialty appointments ∅ well_kept_empty)
    as [[Hproto Hkept] _].
  split.
  { intros k n Hk. pose proof (Hkept k) as Hat. rewrite Hk in Hat. exact Hat. }
  split; [exact Hproto|].
  split; [reflexivity|].
  split.
  - etransitivity; [apply size_list_to_set_le|]. rewrite length_map. reflexivity.
  - apply distinct_keys_filter_le.
Qed.

Lemma specialties_count_every_appointment_witness :
  (exists g p w1 w2,
     statisticsService.getGeneralStatistics clinic_world = (Ok g, w1)
     /\ statisticsService.getPatientStatistics "p1" clinic_world = (Ok p, w2)
     /\ tally_total (specialties g) = 4%nat
     /\ totalAppointments g = 4%nat
     /\ tally_total (patient_specialties p) = 3%nat)
  /\ (exists g p w1 w2,
        statisticsService.getGeneralStatistics prototype_named_world = (Ok g, w1)
        /\ statisticsService.getPatientStatistics "p1" prototype_named_world
           = (Ok p, w2)
        /\ tally_total (specialties g) = 4%nat
        /\ totalAppointments g = 6%nat
        /\ specialties g !! "constructor" = Some Concatenated
        /\ specialties g !! "__proto__" = None).
Proof.
  split.
  - destruct (specialties_count_every_appointment "p1" clinic_world sample_records)
      as (g & p & w1 & w2 & Hg & Hp & Hgs & Hps & _).
    + vm_compute. constructor.
    + vm_compute. reflexivity.
    + exact I.
    + exists g, p, w1, w2. split; [exact Hg|]. split; [exact Hp|].
      split; [rewrite Hgs; reflexivity|].
      split; [|rewrite Hps; reflexivity].
      assert (E : fst (statisticsService.getGeneralStatistics clinic_world) = Ok g)
        by (rewrite Hg; reflexivity).
      vm_compute in E. injection E as <-. reflexivity.
  - destruct (specialties_count_every_appointment "p1" prototype_named_world
                prototype_named_records)
      as (g & p & w1 & w2 & Hg & Hp & Hgs & _ & _ & _ & Hproto & _).
    + vm_compute. constructor.
    + vm_compute. reflexivity.
    + exact I.
    + exists g, p, w1, w2. split; [exact Hg|]. split; [exact Hp|].
      split; [rewrite Hgs; reflexivity|].
      assert (E : fst (statisticsService.getGeneralStatistics prototype_named_world)
                  = Ok g) by (rewrite Hg; reflexivity).
      split; [|split; [|exact Hproto]].
      * vm_compute in E. injection E as <-. reflexivity.
      * vm_compute in E. injection E as <-. vm_compute. reflexivity.
Defined.

(** X20. The statistics calls log and rethrow.  When the read of the
    appointments rejects, each of the three logs its own line and
    throws the rejection.  The general statistics also read and parse
    the registered users, which no figure uses: text there that is not
    JSON makes the call throw, while the doctor's and the patient's
    statistics of the same store are computed. *)
Theorem statistics_rethrow_what_they_catch `{JsRuntime}
    (doctorId patientId : string) (w : World) (appointments : list Appointment.t) :
  stored_list as_Appointment "@MedicalApp:appointments" w = Some appointments ->
  (forall rest, faults w = true :: rest ->
     statisticsService.getGeneralStatistics w
     = (Throw IOError,
        with_console (console w ++ ["Erro ao calcular estatísticas gerais:"])%list
          (with_faults rest w))
     /\ statisticsService.getDoctorStatistics doctorId w
        = (Throw IOError,
           with_console (console w ++ ["Erro ao calcular estatísticas do médico:"])%list
             (with_faults rest w))
     /\ statisticsService.getPatientStatistics patientId w
        = (Throw IOError,
           with_console (console w ++ ["Erro ao calcular estatísticas do paciente:"])%list
             (with_faults rest w)))
  /\ (calls_succeed 2 w -> users_unparsable w ->
      fst (statisticsService.getGeneralStatistics w) = Throw SyntaxError
      /\ console (snd (statisticsService.getGeneralStatistics w))
         = (console w ++ ["Erro ao calcular estatísticas gerais:"])%list
      /\ (exists d, fst (statisticsService.getDoctorStatistics doctorId w) = Ok d)
      /\ (exists p, fst (statisticsService.getPatientStatistics patientId w) = Ok p)).
Proof.
  intros Hs. split.
  - intros rest Hf.
    unfold statisticsService.getGeneralStatistics,
      statisticsService.getDoctorStatistics,
      statisticsService.getPatientStatistics, try_catch, bind, AsyncStorage_getItem.
    unfold bind. rewrite (io_rejects w rest Hf). repeat split.
  - intros Hc (s & Hd & Hne & Hp).
    pose proof (calls_succeed_next _ _ Hc) as [Hn1 Hc'].
    pose proof (calls_succeed_next _ _ Hc') as [Hn2 _].
    split; [|split; [|split]].
    + unfold statisticsService.getGeneralStatistics, try_catch, bind.
      rewrite (AsyncStorage_getItem_succeeds _ w Hn1).
      rewrite (parse_or_empty_stored _ _ w _ _ Hs).
      rewrite (AsyncStorage_getItem_succeeds _ _ Hn2).
      change (disk (after_call w)) with (disk w). rewrite Hd, Hne.
      unfold parse_json. rewrite Hp. reflexivity.
    + unfold statisticsService.getGeneralStatistics, try_catch, bind.
      rewrite (AsyncStorage_getItem_succeeds _ w Hn1).
      rewrite (parse_or_empty_stored _ _ w _ _ Hs).
      rewrite (AsyncStorage_getItem_succeeds _ _ Hn2).
      change (disk (after_call w)) with (disk w). rewrite Hd, Hne.
      unfold parse_json. rewrite Hp. reflexivity.
    + destruct (getDoctorStatistics_runs doctorId w appointments Hn1 Hs)
        as (d & Hrun & _).
      exists d. rewrite Hrun. reflexivity.
    + destruct (getPatientStatistics_runs patientId w appointments Hn1 Hs)
        as (p & Hrun & _).
      exists p. rewrite Hrun. reflexivity.
Qed.

Lemma statistics_rethrow_what_they_catch_witness :
  stored_list as_Appointment "@MedicalApp:appointments" broken_users_world
  = Some sample_records
  /\ calls_succeed 2 broken_users_world
  /\ users_unparsable broken_users_world
  /\ fst (statisticsService.getGeneralStatistics broken_users_world)
     = Throw SyntaxError
  /\ exists d, fst (statisticsService.getDoctorStatistics "d1" broken_users_world)
               = Ok d.
Proof.
  assert (Hs : stored_list as_Appointment "@MedicalApp:appointments"
                 broken_users_world = Some sample_records)
    by (vm_compute; reflexivity).
  assert (Hc : calls_succeed 2 broken_users_world) by (vm_compute; constructor).
  assert (Hu : users_unparsable broken_users_world).
  { exists "not json". repeat split; vm_compute; reflexivity. }
  split; [exact Hs|]. split; [exact Hc|]. split; [exact Hu|].
  destruct (statistics_rethrow_what_they_catch "d1" "p1" broken_users_world
              sample_records Hs) as [_ Hbad].
  destruct (Hbad Hc Hu) as (Hthrow & _ & Hdoc & _).
  split; [exact Hthrow | exact Hdoc].
Defined.

(** ** notificationService: what a mutation leaves for the next read *)

Lemma as_Notification_value (n : Notification.t) :
  as_Notification (Notification_value n) = Some n.
Proof. destruct n as [i u tl msg [] r c [a|]]; reflexivity. Qed.

Lemma as_list_Notification_values (l : list Notification.t) :
  as_list as_Notification (VArr (map Notification_value l)) = Some l.
Proof.
  unfold as_list. induction l as [|n l IH]; [reflexivity|].
  change (mapM as_Notification (map Notification_value (n :: l)))
    with (as_Notification (Notification_value n) ≫= fun y =>
          mapM as_Notification (map Notification_value l) ≫= fun k =>
          mret (y :: k)).
  rewrite as_Notification_value, IH. reflexivity.
Qed.

Lemma stored_list_rewritten `{JsRuntime} (l : list Notification.t) (w : World) :
  notifications_read_back l ->
  stored_list as_Notification STORAGE_KEY (rewritten l w) = Some l.
Proof.
  intros [Hne Hrb]. unfold stored_list, rewritten. simpl.
  rewrite lookup_insert_eq, Hne.
  unfold notificationService.stringify_notifications.
  unfold reads_back in Hrb. rewrite Hrb. apply as_list_Notification_values.
Qed.

Lemma next_call_rewritten `{JsRuntime} (l : list Notification.t) (w : World) :
  calls_succeed 3 w -> next_call_succeeds (rewritten l w).
Proof.
  intros Hc. apply calls_succeed_next in Hc as [_ Hc].
  apply calls_succeed_next in Hc as [_ Hc].
  apply calls_succeed_next in Hc as [Hn _]. exact Hn.
Qed.

Lemma calls_succeed_le (n m : nat) (w : World) :
  (n <= m)%nat -> calls_succeed m w -> calls_succeed n w.
Proof.
  unfold calls_succeed. intros Hle Hall.
  replace n with (n `min` m)%nat by lia. rewrite <- take_take.
  apply Forall_take. exact Hall.
Qed.

Lemma markAsRead_runs `{JsRuntime} (notificationId : string) (w : World)
    (stored : list Notification.t) :
  calls_succeed 2 w ->
  stored_list as_Notification STORAGE_KEY w = Some stored ->
  notificationService.markAsRead notificationId w
  = (Ok tt, rewritten (map (mark_with_id notificationId) stored) w).
Proof.
  intros Hc Hs. apply calls_succeed_next in Hc as [Hn1 Hc].
  apply calls_succeed_next in Hc as [Hn2 _].
  unfold notificationService.markAsRead, notificationService.markAsRead_body,
    try_catch, bind.
  rewrite (AsyncStorage_getItem_succeeds _ w Hn1).
  rewrite (parse_or_empty_stored _ _ w _ _ Hs).
  rewrite (AsyncStorage_setItem_succeeds _ _ _ Hn2). reflexivity.
Qed.

Lemma markAllAsRead_runs `{JsRuntime} (userId : string) (w : World)
    (stored : list Notification.t) :
  calls_succeed 2 w ->
  stored_list as_Notification STORAGE_KEY w = Some stored ->
  notificationService.markAllAsRead userId w
  = (Ok tt, rewritten (map (mark_of_user userId) stored) w).
Proof.
  intros Hc Hs. apply calls_succeed_next in Hc as [Hn1 Hc].
  apply calls_succeed_next in Hc as [Hn2 _].
  unfold notificationService.markAllAsRead, notificationService.markAllAsRead_body,
    try_catch, bind.
  rewrite (AsyncStorage_getItem_succeeds _ w Hn1).
  rewrite (parse_or_empty_stored _ _ w _ _ Hs).
  rewrite (AsyncStorage_setItem_succeeds _ _ _ Hn2). reflexivity.
Qed.

Lemma deleteNotification_runs `{JsRuntime} (notificationId : string) (w : World)
    (stored : list Notification.t) :
  calls_succeed 2 w ->
  stored_list as_Notification STORAGE_KEY w = Some stored ->
  notificationService.deleteNotification notificationId w
  = (Ok tt, rewritten (without_id notificationId stored) w).
Proof.
  intros Hc Hs. apply calls_succeed_next in Hc as [Hn1 Hc].
  apply calls_succeed_next in Hc as [Hn2 _].
  unfold notificationService.deleteNotification,
    notificationService.deleteNotification_body, try_catch, bind.
  rewrite (AsyncStorage_getItem_succeeds _ w Hn1).
  rewrite (parse_or_empty_stored _ _ w _ _ Hs).
  rewrite (AsyncStorage_setItem_succeeds _ _ _ Hn2). reflexivity.
Qed.

Lemma createNotification_runs `{JsRuntime} (p : NewNotification.t) (w : World)
    (stored : list Notification.t) :
  calls_succeed 2 w ->
  stored_list as_Notification STORAGE_KEY w = Some stored ->
  notificationService.createNotification p w
  = (Ok tt,
     rewritten (stored ++ [notificationService.newNotification p (clock w) (clock w)]) w).
Proof.
  intros Hc Hs. unfold notificationService.createNotification, try_catch.
  rewrite (createNotification_body_runs p w stored Hc Hs). reflexivity.
Qed.

(** What getUnreadCount answers, read off the stored list. *)
Lemma getUnreadCount_of_stored `{JsRuntime} (userId : string) (w : World)
    (stored : list Notification.t) :
  next_call_succeeds w ->
  stored_list as_Notification STORAGE_KEY w = Some stored ->
  fst (notificationService.getUnreadCount userId w) = Ok (unread_of userId stored).
Proof.
  intros Hn Hs. unfold notificationService.getUnreadCount, try_catch, bind.
  rewrite (getNotifications_runs userId w stored Hn Hs). simpl. f_equal.
  rewrite Array_sort_filter_length. apply unread_filter_length.
Qed.

Lemma getNotifications_of_stored `{JsRuntime} (userId : string) (w : World)
    (stored : list Notification.t) :
  next_call_succeeds w ->
  stored_list as_Notification STORAGE_KEY w = Some stored ->
  fst (notificationService.getNotifications userId w)
  = Ok (Array_sort notificationService.newest_first (of_user userId stored)).
Proof.
  intros Hn Hs. rewrite (getNotifications_runs userId w stored Hn Hs). reflexivity.
Qed.

Lemma unread_of_mark_of_user (userId : string) (l : list Notification.t) :
  unread_of userId (map (mark_of_user userId) l) = 0%nat.
Proof.
  unfold unread_of. induction l as [|n l IH]; [reflexivity|].
  simpl. rewrite filter_cons. destruct (decide _) as [[Hu Hr]|_]; [|exact IH].
  exfalso. unfold mark_of_user in Hu, Hr.
  destruct (String.eqb (Notification.userId n) userId) eqn:E.
  - simpl in Hr. discriminate.
  - apply String.eqb_neq in E. contradiction.
Qed.

Lemma of_user_mark_of_user (userId other : string) (l : list Notification.t) :
  other <> userId ->
  of_user other (map (mark_of_user userId) l) = of_user other l.
Proof.
  intros Hne. unfold of_user. induction l as [|n l IH]; [reflexivity|].
  simpl. rewrite !filter_cons.
  assert (E : mark_of_user userId n = n
              \/ (Notification.userId n = userId
                  /\ Notification.userId (mark_of_user userId n) = userId)).
  { unfold mark_of_user.
    destruct (String.eqb (Notification.userId n) userId) eqn:E; [right|left; reflexivity].
    apply String.eqb_eq in E. split; [exact E | exact E]. }
  destruct E as [-> | [E1 E2]]; [rewrite IH; reflexivity|].
  rewrite E1, E2.
  destruct (decide (String.eqb userId other = true)) as [E|_]; [|exact IH].
  apply String.eqb_eq in E. congruence.
Qed.

Lemma unread_of_of_user (userId : string) (l : list Notification.t) :
  unread_of userId l
  = length (filter (fun n => negb (Notification.read n) = true) (of_user userId l)).
Proof. symmetry. apply unread_filter_length. Qed.

(** X21. markAllAsRead leaves the user without unread notifications
    and changes nothing for anybody else: every other user is answered
    the same notifications and the same unread count as before. *)
Theorem markAllAsRead_clears_only_that_user `{JsRuntime}
    (userId : string) (w : World) (stored : list Notification.t) :
  calls_succeed 3 w ->
  stored_list as_Notification STORAGE_KEY w = Some stored ->
  notifications_read_back (map (mark_of_user userId) stored) ->
  exists w',
    notificationService.markAllAsRead userId w = (Ok tt, w')
    /\ console w' = console w
    /\ fst (notificationService.getUnreadCount userId w') = Ok 0%nat
    /\ (forall other, other <> userId ->
          fst (notificationService.getNotifications other w')
          = fst (notificationService.getNotifications other w)
          /\ fst (notificationService.getUnreadCount other w')
             = fst (notificationService.getUnreadCount other w)).
Proof.
  intros Hc Hs Hrb.
  pose proof (calls_succeed_le 2 3 w ltac:(lia) Hc) as Hc2.
  pose proof (calls_succeed_next _ _ Hc) as [Hn _].
  pose proof (next_call_rewritten (map (mark_of_user userId) stored) w Hc) as Hn'.
  pose proof (stored_list_rewritten _ w Hrb) as Hs'.
  eexists. split; [apply (markAllAsRead_runs userId w stored Hc2 Hs)|].
  split; [reflexivity|]. split.
  - rewrite (getUnreadCount_of_stored userId _ _ Hn' Hs').
    rewrite unread_of_mark_of_user. reflexivity.
  - intros other Hne. split.
    + rewrite (getNotifications_of_stored other _ _ Hn' Hs').
      rewrite (getNotifications_of_stored other _ _ Hn Hs).
      rewrite (of_user_mark_of_user userId other stored Hne). reflexivity.
    + rewrite (getUnreadCount_of_stored other _ _ Hn' Hs').
      rewrite (getUnreadCount_of_stored other _ _ Hn Hs).
      rewrite !unread_of_of_user.
      rewrite (of_user_mark_of_user userId other stored Hne). reflexivity.
Qed.

Lemma markAllAsRead_clears_only_that_user_witness :
  exists w',
    notificationService.markAllAsRead "u1" notified_world = (Ok tt, w')
    /\ console w' = console notified_world
    /\ fst (notificationService.getUnreadCount "u1" w') = Ok 0%nat
    /\ fst (notificationService.getUnreadCount "u2" w') = Ok 1%nat.
Proof.
  destruct (markAllAsRead_clears_only_that_user "u1" notified_world
              sample_notifications)
    as (w' & Hrun & Hcon & Hzero & Hother).
  - vm_compute. constructor.
  - vm_compute. reflexivity.
  - split; vm_compute; reflexivity.
  - exists w'. split; [exact Hrun|]. split; [exact Hcon|]. split; [exact Hzero|].
    destruct (Hother "u2") as [_ ->]; [discriminate|].
    vm_compute. reflexivity.
Defined.

Lemma sort_insert_Permutation {A} (compare : A -> A -> option Z) (x : A) (l : list A) :
  sort_insert compare x l ≡ₚ x :: l.
Proof.
  induction l as [|y l IH]; simpl; [reflexivity|].
  destruct (default 0 (compare x y) <=? 0); [reflexivity|].
  rewrite IH. apply perm_swap.
Qed.

Lemma Array_sort_Permutation {A} (compare : A -> A -> option Z) (l : list A) :
  Array_sort compare l ≡ₚ l.
Proof.
  unfold Array_sort. induction l as [|x l IH]; simpl; [reflexivity|].
  rewrite sort_insert_Permutation, IH. reflexivity.
Qed.

Lemma sort_insert_newest_first `{JsRuntime} (x : Notification.t)
    (l : list Notification.t) :
  is_Some (created_at x) ->
  Forall (fun n => is_Some (created_at n)) l ->
  StronglySorted not_older l ->
  StronglySorted not_older (sort_insert notificationService.newest_first x l).
Proof.
  intros [tx Hx] Hall Hsorted. induction Hsorted as [|y l Hl IH Hy]; simpl.
  - repeat constructor.
  - apply Forall_cons in Hall as [[ty Hty] Hall].
    unfold notificationService.newest_first at 1.
    fold (created_at y). fold (created_at x). rewrite Hty, Hx. simpl.
    destruct (ty - tx <=? 0) eqn:E.
    + apply Z.leb_le in E. constructor; [constructor; assumption|].
      constructor.
      * exists tx, ty. repeat split; [assumption..|lia].
      * eapply Forall_impl; [exact Hy|].
        intros z (ty' & tz & Hy' & Hz & Hle). exists tx, tz.
        repeat split; [assumption..|]. rewrite Hty in Hy'. injection Hy' as <-. lia.
    + apply Z.leb_gt in E. constructor; [apply IH; exact Hall|].
      rewrite sort_insert_Permutation. constructor; [|exact Hy].
      exists ty, tx. repeat split; [assumption..|lia].
Qed.

Lemma Array_sort_newest_first `{JsRuntime} (l : list Notification.t) :
  Forall (fun n => is_Some (created_at n)) l ->
  StronglySorted not_older (Array_sort notificationService.newest_first l).
Proof.
  induction l as [|x l IH]; intros Hall; [constructor|].
  change (Array_sort notificationService.newest_first (x :: l))
    with (sort_insert notificationService.newest_first x
            (Array_sort notificationService.newest_first l)).
  apply Forall_cons in Hall as [Hx Hall].
  apply sort_insert_newest_first; [exact Hx| |apply IH; exact Hall].
  rewrite Array_sort_Permutation. exact Hall.
Qed.

Lemma of_user_owner (userId : string) (l : list Notification.t) :
  Forall (fun n => Notification.userId n = userId) (of_user userId l).
Proof.
  unfold of_user. apply Forall_forall. intros n Hin.
  apply list_elem_of_filter in Hin as [E _]. apply String.eqb_eq. exact E.
Qed.

(** X22. getNotifications answers the stored notifications of the user,
    each of them once and nobody else's; when their creation dates
    parse, no notification in the answer is older than one after it. *)
Theorem getNotifications_answers_the_users_newest_first `{JsRuntime}
    (userId : string) (w : World) (stored : list Notification.t) :
  next_call_succeeds w ->
  stored_list as_Notification STORAGE_KEY w = Some stored ->
  exists l,
    notificationService.getNotifications userId w = (Ok l, after_call w)
    /\ l ≡ₚ of_user userId stored
    /\ Forall (fun n => Notification.userId n = userId) l
    /\ (Forall (fun n => is_Some (created_at n)) (of_user userId stored) ->
        StronglySorted not_older l).
Proof.
  intros Hn Hs. eexists. split; [apply (getNotifications_runs userId w stored Hn Hs)|].
  fold (of_user userId stored).
  split; [apply Array_sort_Permutation|]. split.
  - rewrite Array_sort_Permutation. apply of_user_owner.
  - apply Array_sort_newest_first.
Qed.

Lemma getNotifications_answers_the_users_newest_first_witness :
  fst (notificationService.getNotifications "u1" notified_world)
  = Ok [sample_notification "4" "u1" false "2024-01-18T10:00:00.000Z";
        sample_notification "2" "u1" true "2024-01-16T10:00:00.000Z";
        sample_notification "1" "u1" false "2024-01-15T10:00:00.000Z"]
  /\ StronglySorted not_older
       [sample_notification "4" "u1" false "2024-01-18T10:00:00.000Z";
        sample_notification "2" "u1" true "2024-01-16T10:00:00.000Z";
        sample_notification "1" "u1" false "2024-01-15T10:00:00.000Z"].
Proof.
  destruct (getNotifications_answers_the_users_newest_first "u1" notified_world
              sample_notifications)
    as (l & Hrun & _ & _ & Hsorted).
  - discriminate.
  - vm_compute. reflexivity.
  - assert (E : fst (notificationService.getNotifications "u1" notified_world) = Ok l)
      by (rewrite Hrun; reflexivity).
    assert (Hl : l = [sample_notification "4" "u1" false "2024-01-18T10:00:00.000Z";
                      sample_notification "2" "u1" true "2024-01-16T10:00:00.000Z";
                      sample_notification "1" "u1" false "2024-01-15T10:00:00.000Z"]).
    { vm_compute in E. injection E as <-. reflexivity. }
    subst l. split; [exact E|]. apply Hsorted.
    repeat constructor; vm_compute; eexists; reflexivity.
Defined.

(** X23. The two reads never throw.  When the read of the store
    rejects, or the stored text is not JSON, getNotifications logs its
    line and answers the empty list, and getUnreadCount answers 0 with
    that one line logged: its own handler is never entered. *)
Theorem notification_reads_swallow_failures `{JsRuntime}
    (userId : string) (w : World) :
  (forall rest, faults w = true :: rest ->
     notificationService.getNotifications userId w
     = (Ok [], with_console (console w ++ ["Erro ao carregar notificações:"])%list
                 (with_faults rest w))
     /\ notificationService.getUnreadCount userId w
        = (Ok 0%nat,
           with_console (console w ++ ["Erro ao carregar notificações:"])%list
             (with_faults rest w)))
  /\ (forall s, next_call_succeeds w -> disk w !! STORAGE_KEY = Some s ->
        nonempty s = true -> JSON_parse s = None ->
        notificationService.getNotifications userId w
        = (Ok [], with_console (console w ++ ["Erro ao carregar notificações:"])%list
                    (after_call w))
        /\ notificationService.getUnreadCount userId w
           = (Ok 0%nat,
              with_console (console w ++ ["Erro ao carregar notificações:"])%list
                (after_call w))).
Proof.
  split.
  - intros rest Hf.
    assert (G : notificationService.getNotifications userId w
                = (Ok [], with_console
                            (console w ++ ["Erro ao carregar notificações:"])%list
                            (with_faults rest w))).
    { unfold notificationService.getNotifications, try_catch, bind,
        AsyncStorage_getItem. unfold bind. rewrite (io_rejects w rest Hf). reflexivity. }
    split; [exact G|].
    unfold notificationService.getUnreadCount, try_catch, bind. rewrite G. reflexivity.
  - intros s Hn Hd Hne Hp.
    assert (G : notificationService.getNotifications userId w
                = (Ok [], with_console
                            (console w ++ ["Erro ao carregar notificações:"])%list
                            (after_call w))).
    { unfold notificationService.getNotifications, try_catch, bind.
      rewrite (AsyncStorage_getItem_succeeds _ w Hn). rewrite Hd.
      unfold parse_or_empty. rewrite Hne. unfold parse_as, bind, parse_json.
      rewrite Hp. reflexivity. }
    split; [exact G|].
    unfold notificationService.getUnreadCount, try_catch, bind. rewrite G. reflexivity.
Qed.

Lemma notification_reads_swallow_failures_witness :
  fst (notificationService.getUnreadCount "u1" read_rejected_inbox) = Ok 0%nat
  /\ fst (notificationService.getNotifications "u1" corrupt_inbox) = Ok []
  /\ console (snd (notificationService.getUnreadCount "u1" corrupt_inbox))
     = ["Erro ao carregar notificações:"].
Proof.
  split; [|split].
  - destruct (notification_reads_swallow_failures "u1" read_rejected_inbox)
      as [Hrej _].
    destruct (Hrej [] eq_refl) as [_ ->]. reflexivity.
  - destruct (notification_reads_swallow_failures "u1" corrupt_inbox) as [_ Hbad].
    destruct (Hbad "[{") as [-> _];
      [discriminate | reflexivity | reflexivity | vm_compute; reflexivity | reflexivity].
  - destruct (notification_reads_swallow_failures "u1" corrupt_inbox) as [_ Hbad].
    destruct (Hbad "[{") as [_ ->];
      [discriminate | reflexivity | reflexivity | vm_compute; reflexivity | reflexivity].
Defined.

Lemma of_user_map_same_owner (f : Notification.t -> Notification.t) (userId : string)
    (l : list Notification.t) :
  (forall n, Notification.userId (f n) = Notification.userId n) ->
  of_user userId (map f l) = map f (of_user userId l).
Proof.
  intros Hf. unfold of_user. induction l as [|n l IH]; [reflexivity|].
  simpl. rewrite !filter_cons, Hf.
  destruct (decide _); simpl; rewrite IH; reflexivity.
Qed.

Lemma mark_with_id_owner (notificationId : string) (n : Notification.t) :
  Notification.userId (mark_with_id notificationId n) = Notification.userId n.
Proof.
  unfold mark_with_id. destruct (String.eqb _ _); reflexivity.
Qed.

Lemma unread_of_mark_with_id (notificationId userId : string)
    (l : list Notification.t) :
  unread_of userId (map (mark_with_id notificationId) l)
  = length (filter (fun n => Notification.userId n = userId
                             /\ Notification.read n = false
                             /\ Notification.id n <> notificationId) l).
Proof.
  unfold unread_of. induction l as [|n l IH]; [reflexivity|].
  simpl. rewrite !filter_cons.
  pose proof (mark_with_id_owner notificationId n) as Ho.
  assert (Hr : Notification.read (mark_with_id notificationId n) = false
               <-> Notification.read n = false /\ Notification.id n <> notificationId).
  { unfold mark_with_id.
    destruct (String.eqb (Notification.id n) notificationId) eqn:E.
    - apply String.eqb_eq in E. simpl. split; [discriminate|tauto].
    - apply String.eqb_neq in E. tauto. }
  destruct (decide _) as [[H1 H2]|H1]; destruct (decide _) as [[H3 H4]|H3];
    simpl; rewrite ?IH; try reflexivity; exfalso.
  - apply H3. rewrite <- Ho. split; [exact H1|]. apply Hr. exact H2.
  - apply H1. rewrite Ho. split; [exact H3|]. apply Hr. exact H4.
Qed.

Lemma unread_under_other_ids (notificationId userId : string)
    (l : list Notification.t) :
  Forall (fun n => Notification.id n <> notificationId) l ->
  length (filter (fun n => Notification.userId n = userId
                           /\ Notification.read n = false
                           /\ Notification.id n <> notificationId) l)
  = unread_of userId l.
Proof.
  unfold unread_of. induction 1 as [|n l Hn Hall IH]; [reflexivity|].
  rewrite !filter_cons.
  destruct (decide _) as [H1|H1]; destruct (decide _) as [H2|H2];
    simpl; rewrite ?IH; try reflexivity; exfalso; tauto.
Qed.

(** X24. markAsRead marks every stored notification that carries the
    id, whoever it belongs to: afterwards the unread notifications of
    any user are the ones that were unread under another id.  Nothing is
    added or dropped, and an id nobody carries changes no count. *)
Theorem markAsRead_marks_every_notification_with_the_id `{JsRuntime}
    (notificationId : string) (w : World) (stored : list Notification.t) :
  calls_succeed 3 w ->
  stored_list as_Notification STORAGE_KEY w = Some stored ->
  notifications_read_back (map (mark_with_id notificationId) stored) ->
  exists w',
    notificationService.markAsRead notificationId w = (Ok tt, w')
    /\ (forall userId,
          fst (notificationService.getUnreadCount userId w')
          = Ok (length (filter (fun n => Notification.userId n = userId
                                         /\ Notification.read n = false
                                         /\ Notification.id n <> notificationId)
                          stored)))
    /\ (forall userId before after,
          fst (notificationService.getNotifications userId w) = Ok before ->
          fst (notificationService.getNotifications userId w') = Ok after ->
          length after = length before)
    /\ (Forall (fun n => Notification.id n <> notificationId) stored ->
        forall userId,
          fst (notificationService.getUnreadCount userId w')
          = fst (notificationService.getUnreadCount userId w)).
Proof.
  intros Hc Hs Hrb.
  pose proof (calls_succeed_le 2 3 w ltac:(lia) Hc) as Hc2.
  pose proof (calls_succeed_next _ _ Hc) as [Hn _].
  pose proof (next_call_rewritten (map (mark_with_id notificationId) stored) w Hc)
    as Hn'.
  pose proof (stored_list_rewritten _ w Hrb) as Hs'.
  eexists. split; [apply (markAsRead_runs notificationId w stored Hc2 Hs)|].
  split; [|split].
  - intros userId. rewrite (getUnreadCount_of_stored userId _ _ Hn' Hs').
    rewrite unread_of_mark_with_id. reflexivity.
  - intros userId before after.
    rewrite (getNotifications_of_stored userId _ _ Hn Hs).
    rewrite (getNotifications_of_stored userId _ _ Hn' Hs').
    intros [= <-] [= <-].
    rewrite !(Permutation_length (Array_sort_Permutation _ _)).
    rewrite (of_user_map_same_owner _ _ _ (mark_with_id_owner notificationId)).
    apply length_map.
  - intros Hall userId.
    rewrite (getUnreadCount_of_stored userId _ _ Hn' Hs').
    rewrite (getUnreadCount_of_stored userId _ _ Hn Hs).
    rewrite unread_of_mark_with_id. f_equal.
    apply unread_under_other_ids. exact Hall.
Qed.

Lemma markAsRead_marks_every_notification_with_the_id_witness :
  exists w',
    notificationService.markAsRead "7" twin_world = (Ok tt, w')
    /\ fst (notificationService.getUnreadCount "u1" w') = Ok 1%nat
    /\ fst (notificationService.getUnreadCount "u2" w') = Ok 0%nat
    /\ fst (notificationService.getUnreadCount "u2" twin_world) = Ok 1%nat.
Proof.
  destruct (markAsRead_marks_every_notification_with_the_id "7" twin_world
              twin_notifications)
    as (w' & Hrun & Hcount & _).
  - vm_compute. constructor.
  - vm_compute. reflexivity.
  - split; vm_compute; reflexivity.
  - exists w'. split; [exact Hrun|]. rewrite !Hcount.
    repeat split; vm_compute; reflexivity.
Defined.

Lemma of_user_without_id (userId notificationId : string) (l : list Notification.t) :
  of_user userId (without_id notificationId l)
  = without_id notificationId (of_user userId l).
Proof.
  unfold of_user, without_id. induction l as [|n l IH]; [reflexivity|].
  rewrite !filter_cons.
  destruct (decide (negb _ = true)); destruct (decide (String.eqb _ _ = true));
    rewrite ?filter_cons; repeat (destruct (decide _); try contradiction);
    rewrite IH; reflexivity.
Qed.

Lemma elem_of_without_id (notificationId : string) (n : Notification.t)
    (l : list Notification.t) :
  n ∈ without_id notificationId l <-> n ∈ l /\ Notification.id n <> notificationId.
Proof.
  unfold without_id. rewrite list_elem_of_filter.
  destruct (String.eqb (Notification.id n) notificationId) eqn:E; simpl.
  - apply String.eqb_eq in E. split; [intros [? _]; discriminate | tauto].
  - apply String.eqb_neq in E. tauto.
Qed.

(** X25. deleteNotification drops every stored notification that
    carries the id and no other: a user is afterwards answered exactly
    the notifications they were answered before whose id differs, each
    as often as before. *)
Theorem deleteNotification_drops_every_notification_with_the_id `{JsRuntime}
    (notificationId : string) (w : World) (stored : list Notification.t) :
  calls_succeed 3 w ->
  stored_list as_Notification STORAGE_KEY w = Some stored ->
  notifications_read_back (without_id notificationId stored) ->
  exists w',
    notificationService.deleteNotification notificationId w = (Ok tt, w')
    /\ forall userId, exists before after,
         fst (notificationService.getNotifications userId w) = Ok before
         /\ fst (notificationService.getNotifications userId w') = Ok after
         /\ (forall n, n ∈ after <-> n ∈ before /\ Notification.id n <> notificationId)
         /\ after ≡ₚ without_id notificationId (of_user userId stored)
         /\ length after = length (without_id notificationId before).
Proof.
  intros Hc Hs Hrb.
  pose proof (calls_succeed_le 2 3 w ltac:(lia) Hc) as Hc2.
  pose proof (calls_succeed_next _ _ Hc) as [Hn _].
  pose proof (next_call_rewritten (without_id notificationId stored) w Hc) as Hn'.
  pose proof (stored_list_rewritten _ w Hrb) as Hs'.
  eexists. split; [apply (deleteNotification_runs notificationId w stored Hc2 Hs)|].
  intros userId. eexists _, _.
  split; [apply (getNotifications_of_stored userId _ _ Hn Hs)|].
  split; [apply (getNotifications_of_stored userId _ _ Hn' Hs')|].
  rewrite of_user_without_id. split; [|split].
  - intros n. rewrite !Array_sort_Permutation. apply elem_of_without_id.
  - apply Array_sort_Permutation.
  - rewrite (Permutation_length (Array_sort_Permutation _ _)).
    unfold without_id at 2. rewrite Array_sort_filter_length. reflexivity.
Qed.

Lemma deleteNotification_drops_every_notification_with_the_id_witness :
  exists w',
    notificationService.deleteNotification "7" twin_world = (Ok tt, w')
    /\ fst (notificationService.getNotifications "u2" w') = Ok []
    /\ fst (notificationService.getNotifications "u1" w')
       = Ok [sample_notification "8" "u1" false "2024-01-16T10:00:00.000Z"].
Proof.
  destruct (deleteNotification_drops_every_notification_with_the_id "7" twin_world
              twin_notifications)
    as (w' & Hrun & _).
  - vm_compute. constructor.
  - vm_compute. reflexivity.
  - split; vm_compute; reflexivity.
  - exists w'. split; [exact Hrun|].
    assert (E : snd (notificationService.deleteNotification "7" twin_world) = w')
      by (rewrite Hrun; reflexivity).
    subst w'. split; vm_compute; reflexivity.
Defined.

Lemma unread_of_app (userId : string) (l1 l2 : list Notification.t) :
  unread_of userId (l1 ++ l2) = (unread_of userId l1 + unread_of userId l2)%nat.
Proof. unfold unread_of. rewrite filter_app, length_app. reflexivity. Qed.

Lemma of_user_app (userId : string) (l1 l2 : list Notification.t) :
  of_user userId (l1 ++ l2) = (of_user userId l1 ++ of_user userId l2)%list.
Proof. unfold of_user. apply filter_app. Qed.

Lemma of_user_other (userId : string) (n : Notification.t) :
  Notification.userId n <> userId -> of_user userId [n] = [].
Proof.
  intros Hne. unfold of_user. rewrite filter_cons.
  destruct (decide _) as [E|_]; [|reflexivity].
  apply String.eqb_eq in E. contradiction.
Qed.

Lemma of_user_own (n : Notification.t) : of_user (Notification.userId n) [n] = [n].
Proof.
  unfold of_user. rewrite filter_cons.
  destruct (decide _) as [_|E]; [reflexivity|].
  exfalso. apply E. apply String.eqb_eq. reflexivity.
Qed.

(** C3, amended. When the read and the write succeed and what is
    written reads back, createNotification adds one notification to
    those of the addressed user: the next getNotifications of that user
    answers one notification more and contains the new one.  Its id is
    the decimal text of [Date.now()], a millisecond timestamp, its
    createdAt is the current instant in ISO form and its read flag is
    false.  Notifications created at different millisecond timestamps
    get different ids. *)
Theorem createNotification_assigns_timestamp_id `{JsRuntime}
    (p : NewNotification.t) (w : World) (stored : list Notification.t) :
  calls_succeed 3 w ->
  stored_list as_Notification STORAGE_KEY w = Some stored ->
  notifications_read_back
    (stored ++ [notificationService.newNotification p (clock w) (clock w)]) ->
  exists created w' l,
    notificationService.createNotification p w = (Ok tt, w')
    /\ fst (notificationService.getNotifications (NewNotification.userId p) w') = Ok l
    /\ created ∈ l
    /\ length l = S (length (of_user (NewNotification.userId p) stored))
    /\ Notification.id created = Number_toString (clock w)
    /\ Notification.createdAt created = Date_toISOString (clock w)
    /\ Notification.read created = false
    /\ (forall p2 t2, t2 <> clock w ->
          Notification.id (notificationService.newNotification p2 t2 t2)
          <> Notification.id created).
Proof.
  intros Hc Hs Hrb.
  pose proof (calls_succeed_le 2 3 w ltac:(lia) Hc) as Hc2.
  set (created := notificationService.newNotification p (clock w) (clock w)) in *.
  pose proof (next_call_rewritten (stored ++ [created]) w Hc) as Hn'.
  pose proof (stored_list_rewritten _ w Hrb) as Hs'.
  exists created, (rewritten (stored ++ [created]) w). eexists.
  split; [apply (createNotification_runs p w stored Hc2 Hs)|].
  split; [apply (getNotifications_of_stored _ _ _ Hn' Hs')|].
  rewrite of_user_app.
  change (NewNotification.userId p) with (Notification.userId created).
  rewrite of_user_own.
  split.
  { rewrite Array_sort_Permutation. apply elem_of_app. right.
    apply list_elem_of_singleton. reflexivity. }
  split.
  { rewrite (Permutation_length (Array_sort_Permutation _ _)), length_app. simpl. lia. }
  do 3 (split; [reflexivity|]).
  intros p2 t2 Hne. simpl. unfold Number_toString. intros Heq.
  apply Hne. eapply (inj pretty). exact Heq.
Qed.

Lemma createNotification_assigns_timestamp_id_witness :
  exists created w' l,
    notificationService.createNotification confirmed_notice (fresh_world 1700000000000)
    = (Ok tt, w')
    /\ fst (notificationService.getNotifications "p1" w') = Ok l
    /\ created ∈ l
    /\ length l = 1%nat
    /\ Notification.id created = "1700000000000"
    /\ Notification.createdAt created = "2023-11-14T22:13:20.000Z"
    /\ Notification.read created = false.
Proof.
  destruct (createNotification_assigns_timestamp_id confirmed_notice
              (fresh_world 1700000000000) [])
    as (created & w' & l & Hrun & Hget & Hin & Hlen & Hid & Hat & Hread & _).
  - unfold calls_succeed. simpl. constructor.
  - reflexivity.
  - split; vm_compute; reflexivity.
  - exists created, w', l. repeat split; assumption.
Defined.

(** X26. createNotification adds one unread notification for the
    addressed user, which the next getNotifications of that user
    contains, and changes nothing for anybody else. *)
Theorem createNotification_adds_one_unread_for_the_recipient `{JsRuntime}
    (p : NewNotification.t) (w : World) (stored : list Notification.t) :
  calls_succeed 3 w ->
  stored_list as_Notification STORAGE_KEY w = Some stored ->
  notifications_read_back
    (stored ++ [notificationService.newNotification p (clock w) (clock w)]) ->
  exists w' created l,
    notificationService.createNotification p w = (Ok tt, w')
    /\ fst (notificationService.getUnreadCount (NewNotification.userId p) w')
       = Ok (S (unread_of (NewNotification.userId p) stored))
    /\ fst (notificationService.getNotifications (NewNotification.userId p) w') = Ok l
    /\ created ∈ l
    /\ length l = S (length (of_user (NewNotification.userId p) stored))
    /\ Notification.read created = false
    /\ Notification.title created = NewNotification.title p
    /\ Notification.message created = NewNotification.message p
    /\ Notification.appointmentId created = NewNotification.appointmentId p
    /\ (forall other, other <> NewNotification.userId p ->
          fst (notificationService.getNotifications other w')
          = fst (notificationService.getNotifications other w)
          /\ fst (notificationService.getUnreadCount other w')
             = fst (notificationService.getUnreadCount other w)).
Proof.
  intros Hc Hs Hrb.
  pose proof (calls_succeed_le 2 3 w ltac:(lia) Hc) as Hc2.
  pose proof (calls_succeed_next _ _ Hc) as [Hn _].
  set (created := notificationService.newNotification p (clock w) (clock w)) in *.
  pose proof (next_call_rewritten (stored ++ [created]) w Hc) as Hn'.
  pose proof (stored_list_rewritten _ w Hrb) as Hs'.
  exists (rewritten (stored ++ [created]) w), created. eexists.
  split; [apply (createNotification_runs p w stored Hc2 Hs)|].
  split.
  { rewrite (getUnreadCount_of_stored _ _ _ Hn' Hs'), unread_of_app.
    f_equal. unfold unread_of at 2. rewrite filter_cons.
    destruct (decide _) as [_|E]; [simpl; lia|].
    exfalso. apply E. split; reflexivity. }
  split; [apply (getNotifications_of_stored _ _ _ Hn' Hs')|].
  rewrite of_user_app.
  change (NewNotification.userId p) with (Notification.userId created).
  rewrite of_user_own.
  split.
  { rewrite Array_sort_Permutation. apply elem_of_app. right. apply list_elem_of_singleton.
    reflexivity. }
  split.
  { rewrite (Permutation_length (Array_sort_Permutation _ _)), length_app. simpl. lia. }
  do 4 (split; [reflexivity|]).
  intros other Hne. split.
  - rewrite (getNotifications_of_stored other _ _ Hn' Hs').
    rewrite (getNotifications_of_stored other _ _ Hn Hs).
    rewrite of_user_app, of_user_other, app_nil_r; [reflexivity|].
    intros E. apply Hne. symmetry. exact E.
  - rewrite (getUnreadCount_of_stored other _ _ Hn' Hs').
    rewrite (getUnreadCount_of_stored other _ _ Hn Hs).
    rewrite !unread_of_of_user.
    rewrite of_user_app, of_user_other, app_nil_r; [reflexivity|].
    intros E. apply Hne. symmetry. exact E.
Qed.

Lemma createNotification_adds_one_unread_for_the_recipient_witness :
  exists w',
    notificationService.createNotification confirmed_notice notified_world = (Ok tt, w')
    /\ fst (notificationService.getUnreadCount "p1" w') = Ok 1%nat
    /\ fst (notificationService.getUnreadCount "u1" w') = Ok 2%nat.
Proof.
  destruct (createNotification_adds_one_unread_for_the_recipient confirmed_notice
              notified_world sample_notifications)
    as (w' & created & l & Hrun & Hcount & _ & _ & _ & _ & _ & _ & _ & Hother).
  - vm_compute. constructor.
  - vm_compute. reflexivity.
  - split; vm_compute; reflexivity.
  - exists w'. split; [exact Hrun|]. split; [exact Hcount|].
    destruct (Hother "u1") as [_ ->]; [discriminate|]. vm_compute. reflexivity.
Defined.

(** ** The cache is out of reach of the direct writers *)

Lemma same_cache_io (w0 : World) : preserves (same_cache w0) io.
Proof.
  intros w [Hc Ht]. destruct (io w) as [r w'] eqn:E.
  apply io_disk in E as (_ & Hc' & Ht' & _). simpl. split; congruence.
Qed.

Lemma same_cache_AsyncStorage_getItem (w0 : World) (key : string) :
  preserves (same_cache w0) (AsyncStorage_getItem key).
Proof.
  apply preserves_bind; [apply same_cache_io|].
  intros _. apply preserves_pure. reflexivity.
Qed.

Lemma same_cache_AsyncStorage_setItem (w0 : World) (key text : string) :
  preserves (same_cache w0) (AsyncStorage_setItem key text).
Proof.
  apply preserves_bind; [apply same_cache_io|].
  intros _ w HP. exact HP.
Qed.

Lemma same_cache_console (w0 : World) (line : string) :
  preserves (same_cache w0) (console_error line).
Proof. intros w HP. exact HP. Qed.

Ltac keeps_same_cache :=
  first
    [ apply same_cache_AsyncStorage_getItem
    | apply same_cache_AsyncStorage_setItem
    | apply same_cache_console
    | apply preserves_bind; [|intros ?]
    | apply preserves_try_catch; [|intros ?]
    | apply preserves_pure; intros ?;
      first [ reflexivity | apply as_array_world | apply parse_json_world
            | apply parse_or_empty_pure_world ]
    | match goal with
      | |- preserves _ (match ?x with _ => _ end) => destruct x
      | |- preserves _ (if ?b then _ else _) => destruct b
      end ].

Lemma same_cache_createNotification `{JsRuntime} (w0 : World) (p : NewNotification.t) :
  preserves (same_cache w0) (notificationService.createNotification p).
Proof.
  unfold notificationService.createNotification,
    notificationService.createNotification_body, Date_now.
  repeat keeps_same_cache.
Qed.

Lemma same_cache_markAsRead `{JsRuntime} (w0 : World) (notificationId : string) :
  preserves (same_cache w0) (notificationService.markAsRead notificationId).
Proof.
  unfold notificationService.markAsRead, notificationService.markAsRead_body.
  repeat keeps_same_cache.
Qed.

Lemma same_cache_markAllAsRead `{JsRuntime} (w0 : World) (userId : string) :
  preserves (same_cache w0) (notificationService.markAllAsRead userId).
Proof.
  unfold notificationService.markAllAsRead, notificationService.markAllAsRead_body.
  repeat keeps_same_cache.
Qed.

Lemma same_cache_deleteNotification `{JsRuntime} (w0 : World) (notificationId : string) :
  preserves (same_cache w0) (notificationService.deleteNotification notificationId).
Proof.
  unfold notificationService.deleteNotification,
    notificationService.deleteNotification_body.
  repeat keeps_same_cache.
Qed.

Lemma same_cache_createAppointment `{JsRuntime} (w0 : World)
    (date selectedTime : string) (selectedDoctor : Doctor.t) (user : option User.t) :
  preserves (same_cache w0)
    (appointmentService.createAppointment date selectedTime selectedDoctor user).
Proof.
  unfold appointmentService.createAppointment,
    notificationService.notifyNewAppointment, Date_now.
  repeat first [ apply same_cache_createNotification | keeps_same_cache ].
Qed.

Lemma same_cache_direct_write `{JsRuntime} (w w' : World) :
  direct_write w w' -> same_cache w w'.
Proof.
  assert (H0 : same_cache w w) by (split; reflexivity).
  intros [p|i|u|i|d t doc usr].
  - apply same_cache_createNotification. exact H0.
  - apply same_cache_markAsRead. exact H0.
  - apply same_cache_markAllAsRead. exact H0.
  - apply same_cache_deleteNotification. exact H0.
  - apply same_cache_createAppointment. exact H0.
Qed.

(** X27. The notification mutations and createAppointment write to
    AsyncStorage without telling storageService: whatever they do, a
    valid cache entry stays, so storageService.getNotifications and
    storageService.getAppointments keep answering what was cached
    before the write, without reading the store. *)
Theorem direct_writes_are_hidden_by_the_cache `{JsRuntime}
    (w w' : World) (c : CacheItem) :
  direct_write w w' ->
  cache_valid c (clock w) = true ->
  (cache w !! STORAGE_KEYS.NOTIFICATIONS = Some c ->
   storageService.getNotifications w' = (Ok (data c), w'))
  /\ (cache w !! STORAGE_KEYS.APPOINTMENTS = Some c ->
      storageService.getAppointments w' = (Ok (data c), w')).
Proof.
  intros Hdw Hvalid. apply same_cache_direct_write in Hdw as [Hc Ht].
  split; intros Hin.
  - unfold storageService.getNotifications.
    apply (getItem_cached _ _ _ c); [rewrite Hc; exact Hin | rewrite Ht; exact Hvalid].
  - unfold storageService.getAppointments.
    apply (getItem_cached _ _ _ c); [rewrite Hc; exact Hin | rewrite Ht; exact Hvalid].
Qed.

Lemma direct_writes_are_hidden_by_the_cache_witness :
  direct_write cached_inbox cached_inbox_after_create
  /\ fst (storageService.getNotifications cached_inbox_after_create)
     = Ok (VArr (map Notification_value sample_notifications))
  /\ length <$> as_list as_Notification
                  (VArr (map Notification_value sample_notifications)) = Some 4%nat
  /\ stored_list as_Notification STORAGE_KEY cached_inbox_after_create
     = Some (sample_notifications
             ++ [notificationService.newNotification confirmed_notice
                   1700000000000 1700000000000])%list.
Proof.
  assert (Hdw : direct_write cached_inbox cached_inbox_after_create)
    by apply direct_createNotification.
  split; [exact Hdw|].
  destruct (direct_writes_are_hidden_by_the_cache cached_inbox
              cached_inbox_after_create
              {| data := VArr (map Notification_value sample_notifications);
                 timestamp := 1700000000000; expiry := None |} Hdw eq_refl)
    as [Hn _].
  rewrite Hn; [|vm_compute; reflexivity].
  split; [reflexivity|]. split; vm_compute; reflexivity.
Defined.

(** ** notificationService: the templated creators *)

Lemma createNotification_never_throws `{JsRuntime} (p : NewNotification.t) (w : World) :
  fst (notificationService.createNotification p w) = Ok tt.
Proof.
  unfold notificationService.createNotification, try_catch.
  destruct (notificationService.createNotification_body p w) as [[[]|e] w'];
    reflexivity.
Qed.

Lemma createNotification_delivers `{JsRuntime} (p : NewNotification.t) (w : World)
    (stored : list Notification.t) :
  calls_succeed 3 w ->
  stored_list as_Notification STORAGE_KEY w = Some stored ->
  delivers (notificationService.createNotification p) (NewNotification.userId p)
    (notificationService.newNotification p (clock w) (clock w)) stored w.
Proof.
  intros Hc Hs Hrb.
  pose proof (calls_succeed_le 2 3 w ltac:(lia) Hc) as Hc2.
  set (created := notificationService.newNotification p (clock w) (clock w)) in *.
  pose proof (next_call_rewritten (stored ++ [created]) w Hc) as Hn'.
  pose proof (stored_list_rewritten _ w Hrb) as Hs'.
  exists (rewritten (stored ++ [created]) w). eexists.
  split; [apply (createNotification_runs p w stored Hc2 Hs)|].
  split; [reflexivity|].
  split.
  { rewrite (getUnreadCount_of_stored _ _ _ Hn' Hs'), unread_of_app.
    f_equal. unfold unread_of at 2. rewrite filter_cons.
    destruct (decide _) as [_|E]; [simpl; lia|].
    exfalso. apply E. split; reflexivity. }
  split; [apply (getNotifications_of_stored _ _ _ Hn' Hs')|].
  rewrite of_user_app.
  change (NewNotification.userId p) with (Notification.userId created).
  rewrite of_user_own. split.
  - rewrite Array_sort_Permutation. apply elem_of_app. right.
    apply list_elem_of_singleton. reflexivity.
  - rewrite (Permutation_length (Array_sort_Permutation _ _)), length_app. simpl. lia.
Qed.

(** X28. Each of the four templated creators delivers one notification
    to the given user: an unread one, linked to the appointment and of
    the creator's type, which the user's next getNotifications contains
    and which raises their unread count by one.  An empty reason
    cancels like no reason, and the reminder of an appointment without a
    doctor name names the patient. *)
Theorem templated_creators_add_one_linked_notification `{JsRuntime}
    (userId : string) (appointment : Appointment.t) (reason : option string)
    (w : World) (stored : list Notification.t) :
  calls_succeed 3 w ->
  stored_list as_Notification STORAGE_KEY w = Some stored ->
  (exists n,
     announces userId appointment appointment_confirmed n
     /\ Notification.title n = "Consulta Confirmada"
     /\ stamped w n
     /\ delivers (notificationService.notifyAppointmentConfirmed userId appointment)
          userId n stored w)
  /\ (exists n,
        announces userId appointment appointment_cancelled n
        /\ Notification.title n = "Consulta Cancelada"
        /\ stamped w n
        /\ delivers
             (notificationService.notifyAppointmentCancelled userId appointment reason)
             userId n stored w
        /\ (reason = None \/ reason = Some EmptyString ->
            Notification.message n
            = "Sua consulta com " +:+ Appointment.doctorName appointment
              +:+ " foi cancelada."))
  /\ (exists n,
        announces userId appointment general n
        /\ Notification.title n = "Nova Consulta Agendada"
        /\ stamped w n
        /\ delivers (notificationService.notifyNewAppointment userId appointment)
             userId n stored w)
  /\ (exists n,
        announces userId appointment appointment_reminder n
        /\ Notification.title n = "Lembrete de Consulta"
        /\ stamped w n
        /\ delivers (notificationService.notifyAppointmentReminder userId appointment)
             userId n stored w
        /\ (Appointment.doctorName appointment = EmptyString ->
            Notification.message n
            = "Você tem uma consulta agendada para amanhã às "
              +:+ Appointment.time appointment +:+ " com "
              +:+ Appointment.patientName appointment +:+ ".")).
Proof.
  intros Hc Hs. split; [|split; [|split]].
  - unfold notificationService.notifyAppointmentConfirmed.
    eexists.
    split; [|split; [|split; [|exact (createNotification_delivers _ w stored Hc Hs)]]];
      repeat split.
  - unfold notificationService.notifyAppointmentCancelled.
    eexists.
    split; [|split; [|split;
      [|split; [exact (createNotification_delivers _ w stored Hc Hs)|]]]];
      [repeat split..|].
    intros [-> | ->]; reflexivity.
  - unfold notificationService.notifyNewAppointment.
    eexists.
    split; [|split; [|split; [|exact (createNotification_delivers _ w stored Hc Hs)]]];
      repeat split.
  - unfold notificationService.notifyAppointmentReminder.
    eexists.
    split; [|split; [|split;
      [|split; [exact (createNotification_delivers _ w stored Hc Hs)|]]]];
      [repeat split..|].
    intros E. simpl. rewrite E. reflexivity.
Qed.

Lemma templated_creators_add_one_linked_notification_witness :
  exists n w' l,
    notificationService.notifyAppointmentReminder "p1" walk_in notified_world
    = (Ok tt, w')
    /\ announces "p1" walk_in appointment_reminder n
    /\ Notification.message n
       = "Você tem uma consulta agendada para amanhã às 10:00 com Ana."
    /\ fst (notificationService.getUnreadCount "p1" w') = Ok 1%nat
    /\ fst (notificationService.getNotifications "p1" w') = Ok l
    /\ n ∈ l.
Proof.
  destruct (templated_creators_add_one_linked_notification "p1" walk_in None
              notified_world sample_notifications)
    as (_ & _ & _ & n & Hann & Htitle & Hst & Hdel & Hmsg).
  - vm_compute. constructor.
  - vm_compute. reflexivity.
  - specialize (Hmsg eq_refl).
    assert (En : n = Notification.mk "1700000000000" "p1" "Lembrete de Consulta"
                       "Você tem uma consulta agendada para amanhã às 10:00 com Ana."
                       appointment_reminder false "2023-11-14T22:13:20.000Z"
                       (Some "9")).
    { destruct n as [i u tl msg ty r c a].
      destruct Hann as (Hu & Ha & Hty & Hr). destruct Hst as [Hi Hcr].
      simpl in Hu, Ha, Hty, Hr, Hi, Hcr, Htitle, Hmsg. subst.
      vm_compute. reflexivity. }
    destruct Hdel as (w' & l & Hrun & _ & Hcount & Hget & Hin & _).
    + rewrite En. split; vm_compute; reflexivity.
    + exists n, w', l. split; [exact Hrun|]. split; [exact Hann|].
      split; [exact Hmsg|].
      split; [exact Hcount|]. split; [exact Hget | exact Hin].
Defined.

(** ** appointmentService.createAppointment *)

Lemma as_Appointment_value (a : Appointment.t) :
  as_Appointment (Appointment_value a) = Some a.
Proof. destruct a as [i pid pn did dn d tm sp []]; reflexivity. Qed.

Lemma stored_items_parse `{JsRuntime} (key : string) (w w' : World)
    (items : list value) :
  stored_items key w = Some items ->
  match disk w !! key with
  | Some s => if nonempty s then parse_json s else ret (VArr [])
  | None => ret (VArr [])
  end w' = (Ok (VArr items), w').
Proof.
  unfold stored_items, parse_json.
  destruct (disk w !! key) as [s|]; [|intros [= <-]; reflexivity].
  destruct (nonempty s); [|intros [= <-]; reflexivity].
  destruct (JSON_parse s) as [[| | | |l|]|]; try discriminate.
  intros [= <-]. reflexivity.
Qed.

Lemma createAppointment_writes `{JsRuntime} (date selectedTime : string)
    (selectedDoctor : Doctor.t) (user : option User.t) (w : World)
    (items : list value) :
  calls_succeed 2 w ->
  stored_items "@MedicalApp:appointments" w = Some items ->
  appointmentService.createAppointment date selectedTime selectedDoctor user w
  = notificationService.notifyNewAppointment (Doctor.id selectedDoctor)
      (booked date selectedTime selectedDoctor user w)
      (appointment_written items (booked date selectedTime selectedDoctor user w) w).
Proof.
  intros Hc Hi. apply calls_succeed_next in Hc as [Hn1 Hc].
  apply calls_succeed_next in Hc as [Hn2 _].
  unfold appointmentService.createAppointment, bind.
  rewrite (AsyncStorage_getItem_succeeds _ w Hn1).
  rewrite (stored_items_parse _ w _ items Hi). simpl.
  rewrite (AsyncStorage_setItem_succeeds _ _ _ Hn2). reflexivity.
Qed.

Lemma stored_notifications_appointment_written `{JsRuntime} (items : list value)
    (a : Appointment.t) (w : World) :
  stored_list as_Notification STORAGE_KEY (appointment_written items a w)
  = stored_list as_Notification STORAGE_KEY w.
Proof.
  unfold stored_list, appointment_written. simpl.
  rewrite lookup_insert_ne; [reflexivity|discriminate].
Qed.

Lemma createAppointment_runs `{JsRuntime} (date selectedTime : string)
    (selectedDoctor : Doctor.t) (user : option User.t) (w : World)
    (items : list value) (notifications : list Notification.t) :
  calls_succeed 4 w ->
  stored_items "@MedicalApp:appointments" w = Some items ->
  stored_list as_Notification STORAGE_KEY w = Some notifications ->
  appointmentService.createAppointment date selectedTime selectedDoctor user w
  = (Ok tt,
     rewritten (notifications
                ++ [booking_notice date selectedTime selectedDoctor user w])
       (appointment_written items (booked date selectedTime selectedDoctor user w) w)).
Proof.
  intros Hc Hi Hs.
  rewrite (createAppointment_writes _ _ _ _ w items
             (calls_succeed_le 2 4 w ltac:(lia) Hc) Hi).
  unfold notificationService.notifyNewAppointment.
  rewrite (createNotification_runs _ _ notifications).
  - reflexivity.
  - apply calls_succeed_next in Hc as [_ Hc].
    apply calls_succeed_next in Hc as [_ Hc]. exact Hc.
  - rewrite stored_notifications_appointment_written. exact Hs.
Qed.

Lemma count_status_app (st : Status) (l1 l2 : list Appointment.t) :
  count_status st (l1 ++ l2) = (count_status st l1 + count_status st l2)%nat.
Proof. unfold count_status. rewrite filter_app, length_app. reflexivity. Qed.

Lemma of_doctor_snoc (doctorId : string) (l : list Appointment.t) (a : Appointment.t) :
  Appointment.doctorId a = doctorId ->
  of_doctor doctorId (l ++ [a]) = (of_doctor doctorId l ++ [a])%list.
Proof.
  intros E. unfold of_doctor. rewrite filter_app. f_equal.
  rewrite filter_cons. destruct (decide _) as [_|Hne]; [reflexivity|].
  exfalso. apply Hne. apply String.eqb_eq. exact E.
Qed.

(** X29. A booking reaches the doctor.  When the four storage calls
    of createAppointment succeed and what it writes reads back, the call
    resolves without logging; afterwards the doctor's statistics count
    one more appointment, pending, with the other two counts as before,
    and the doctor has one more unread notification. *)
Theorem createAppointment_reaches_the_doctor `{JsRuntime}
    (date selectedTime : string) (selectedDoctor : Doctor.t) (user : option User.t)
    (w : World) (items : list value) (appointments : list Appointment.t)
    (notifications : list Notification.t) :
  calls_succeed 5 w ->
  stored_items "@MedicalApp:appointments" w = Some items ->
  mapM as_Appointment items = Some appointments ->
  stored_list as_Notification STORAGE_KEY w = Some notifications ->
  nonempty (booked_text items (booked date selectedTime selectedDoctor user w)) = true ->
  reads_back (VArr (items ++ [Appointment_value
                                (booked date selectedTime selectedDoctor user w)])) ->
  notifications_read_back
    (notifications ++ [booking_notice date selectedTime selectedDoctor user w]) ->
  exists w' before after,
    appointmentService.createAppointment date selectedTime selectedDoctor user w
    = (Ok tt, w')
    /\ console w' = console w
    /\ fst (statisticsService.getDoctorStatistics (Doctor.id selectedDoctor) w)
       = Ok before
    /\ fst (statisticsService.getDoctorStatistics (Doctor.id selectedDoctor) w')
       = Ok after
    /\ doctor_totalAppointments after = S (doctor_totalAppointments before)
    /\ doctor_pendingAppointments after = S (doctor_pendingAppointments before)
    /\ doctor_confirmedAppointments after = doctor_confirmedAppointments before
    /\ doctor_cancelledAppointments after = doctor_cancelledAppointments before
    /\ fst (notificationService.getUnreadCount (Doctor.id selectedDoctor) w')
       = Ok (S (unread_of (Doctor.id selectedDoctor) notifications)).
Proof.
  intros Hc Hi Hm Hs Hne Hrb Hnrb.
  set (a := booked date selectedTime selectedDoctor user w) in *.
  set (n := booking_notice date selectedTime selectedDoctor user w) in *.
  set (w2 := appointment_written items a w).
  pose proof (calls_succeed_next _ _ Hc) as [Hn1 Hc1].
  pose proof (calls_succeed_next _ _ Hc1) as [_ Hc2].
  assert (Hn' : next_call_succeeds (rewritten (notifications ++ [n]) w2)).
  { apply next_call_rewritten. exact Hc2. }
  assert (Hsa : stored_list as_Appointment "@MedicalApp:appointments" w
                = Some appointments).
  { unfold stored_list. unfold stored_items in Hi.
    destruct (disk w !! "@MedicalApp:appointments") as [s|].
    - destruct (nonempty s).
      + destruct (JSON_parse s) as [[| | | |l|]|]; try discriminate.
        injection Hi as ->. exact Hm.
      + injection Hi as <-. simpl in Hm. injection Hm as <-. reflexivity.
    - injection Hi as <-. simpl in Hm. injection Hm as <-. reflexivity. }
  assert (Hsa' : stored_list as_Appointment "@MedicalApp:appointments"
                   (rewritten (notifications ++ [n]) w2)
                 = Some (appointments ++ [a])%list).
  { unfold stored_list, rewritten, w2, appointment_written. simpl.
    rewrite lookup_insert_ne by discriminate. rewrite lookup_insert_eq.
    fold a. rewrite Hne. unfold booked_text. unfold reads_back in Hrb. rewrite Hrb.
    simpl. apply mapM_Some. apply Forall2_app; [apply mapM_Some; exact Hm|].
    constructor; [apply as_Appointment_value|constructor]. }
  destruct (getDoctorStatistics_runs (Doctor.id selectedDoctor) w appointments Hn1 Hsa)
    as (d0 & Hrun0 & Ht0 & Hcf0 & Hpd0 & Hcc0 & _).
  destruct (getDoctorStatistics_runs (Doctor.id selectedDoctor) _ _ Hn' Hsa')
    as (d1 & Hrun1 & Ht1 & Hcf1 & Hpd1 & Hcc1 & _).
  exists (rewritten (notifications ++ [n]) w2), d0, d1.
  split.
  { apply createAppointment_runs; [|exact Hi|exact Hs].
    apply (calls_succeed_le 4 5 w); [lia|exact Hc]. }
  split; [reflexivity|].
  split; [rewrite Hrun0; reflexivity|].
  split; [rewrite Hrun1; reflexivity|].
  rewrite Ht0, Ht1, Hcf0, Hcf1, Hpd0, Hpd1, Hcc0, Hcc1.
  rewrite (of_doctor_snoc (Doctor.id selectedDoctor) appointments a eq_refl).
  rewrite length_app, !count_status_app. simpl.
  split; [lia|]. split; [unfold count_status at 2; simpl; lia|].
  split; [unfold count_status at 2; simpl; lia|].
  split; [unfold count_status at 2; simpl; lia|].
  rewrite (getUnreadCount_of_stored _ _ (notifications ++ [n]) Hn').
  - rewrite unread_of_app. f_equal. unfold unread_of at 2. rewrite filter_cons.
    destruct (decide _) as [_|E]; [simpl; lia|].
    exfalso. apply E. split; reflexivity.
  - apply stored_list_rewritten. exact Hnrb.
Qed.

Lemma createAppointment_reaches_the_doctor_witness :
  exists w' before after,
    appointmentService.createAppointment "20/02/2024" "09:30" dr_silva (Some ana)
      clinic_world = (Ok tt, w')
    /\ fst (statisticsService.getDoctorStatistics "d1" clinic_world) = Ok before
    /\ fst (statisticsService.getDoctorStatistics "d1" w') = Ok after
    /\ doctor_totalAppointments before = 3%nat
    /\ doctor_totalAppointments after = 4%nat
    /\ fst (notificationService.getUnreadCount "d1" w') = Ok 1%nat.
Proof.
  destruct (createAppointment_reaches_the_doctor "20/02/2024" "09:30" dr_silva
              (Some ana) clinic_world (map Appointment_value sample_records)
              sample_records [])
    as (w' & before & after & Hrun & _ & Hb & Ha & Ht & _ & _ & _ & Hu).
  - vm_compute. constructor.
  - vm_compute. reflexivity.
  - vm_compute. reflexivity.
  - vm_compute. reflexivity.
  - vm_compute. reflexivity.
  - vm_compute. reflexivity.
  - split; vm_compute; reflexivity.
  - exists w', before, after.
    split; [exact Hrun|]. split; [exact Hb|]. split; [exact Ha|].
    assert (E : doctor_totalAppointments before = 3%nat).
    { assert (E : fst (statisticsService.getDoctorStatistics "d1" clinic_world)
                  = Ok before) by exact Hb.
      vm_compute in E. injection E as <-. reflexivity. }
    split; [exact E|]. split; [rewrite Ht, E; reflexivity|]. exact Hu.
Defined.

(** X30. createAppointment has no handler of its own.  A rejected read
    or write of the appointments, text that is not JSON and JSON that is
    not an array make it throw with nothing written.  Once the
    appointment is written, a rejected read of the notifications is
    swallowed by createNotification: the call resolves, the appointment
    is stored, the notifications are as they were and one line is
    logged. *)
Theorem createAppointment_throws_before_and_swallows_after_the_write `{JsRuntime}
    (date selectedTime : string) (selectedDoctor : Doctor.t) (user : option User.t)
    (w : World) :
  (forall rest, faults w = true :: rest ->
     appointmentService.createAppointment date selectedTime selectedDoctor user w
     = (Throw IOError, with_faults rest w))
  /\ (forall s, next_call_succeeds w ->
        disk w !! "@MedicalApp:appointments" = Some s -> nonempty s = true ->
        (JSON_parse s = None ->
         appointmentService.createAppointment date selectedTime selectedDoctor user w
         = (Throw SyntaxError, after_call w))
        /\ (forall v, JSON_parse s = Some v -> (forall items, v <> VArr items) ->
            appointmentService.createAppointment date selectedTime selectedDoctor user w
            = (Throw TypeError, after_call w)))
  /\ (forall items rest,
        stored_items "@MedicalApp:appointments" w = Some items ->
        faults w = false :: true :: rest ->
        appointmentService.createAppointment date selectedTime selectedDoctor user w
        = (Throw IOError, with_faults rest w))
  /\ (forall items rest,
        stored_items "@MedicalApp:appointments" w = Some items ->
        faults w = false :: false :: true :: rest ->
        exists w',
          appointmentService.createAppointment date selectedTime selectedDoctor user w
          = (Ok tt, w')
          /\ disk w'
             = <["@MedicalApp:appointments" :=
                   booked_text items (booked date selectedTime selectedDoctor user w)]>
                 (disk w)
          /\ console w' = (console w ++ ["Erro ao criar notificação:"])%list).
Proof.
  split; [|split; [|split]].
  - intros rest Hf.
    unfold appointmentService.createAppointment, bind, AsyncStorage_getItem.
    unfold bind. rewrite (io_rejects w rest Hf). reflexivity.
  - intros s Hn Hd Hne. split.
    + intros Hp. unfold appointmentService.createAppointment, bind.
      rewrite (AsyncStorage_getItem_succeeds _ w Hn), Hd, Hne.
      unfold parse_json. rewrite Hp. reflexivity.
    + intros v Hp Hv. unfold appointmentService.createAppointment, bind.
      rewrite (AsyncStorage_getItem_succeeds _ w Hn), Hd, Hne.
      unfold parse_json. rewrite Hp. simpl.
      destruct v as [| | | |items|]; try reflexivity.
      exfalso. apply (Hv items). reflexivity.
  - intros items rest Hi Hf.
    assert (Hn : next_call_succeeds w) by (unfold next_call_succeeds; rewrite Hf; discriminate).
    unfold appointmentService.createAppointment, bind.
    rewrite (AsyncStorage_getItem_succeeds _ w Hn).
    rewrite (stored_items_parse _ w _ items Hi). simpl.
    unfold AsyncStorage_setItem, bind.
    rewrite (io_rejects (after_call w) rest); [reflexivity|].
    simpl. rewrite Hf. reflexivity.
  - intros items rest Hi Hf.
    rewrite (createAppointment_writes _ _ _ _ w items).
    + unfold notificationService.notifyNewAppointment,
        notificationService.createNotification,
        notificationService.createNotification_body, try_catch, bind,
        AsyncStorage_getItem.
      unfold bind. erewrite io_rejects; [|simpl; rewrite Hf; reflexivity].
      eexists. split; [reflexivity|]. split; reflexivity.
    + unfold calls_succeed. rewrite Hf. repeat constructor.
    + exact Hi.
Qed.

Lemma createAppointment_throws_before_and_swallows_after_the_write_witness :
  fst (appointmentService.createAppointment "20/02/2024" "09:30" dr_silva (Some ana)
         clinic_with_object) = Throw TypeError
  /\ appointmentService.createAppointment "20/02/2024" "09:30" dr_silva (Some ana)
       clinic_write_rejected
     = (Throw IOError, with_faults [] clinic_write_rejected)
  /\ exists w',
       appointmentService.createAppointment "20/02/2024" "09:30" dr_silva (Some ana)
         clinic_notice_rejected = (Ok tt, w')
       /\ disk w' !! STORAGE_KEY = None
       /\ console w' = ["Erro ao criar notificação:"].
Proof.
  split; [|split].
  - destruct (createAppointment_throws_before_and_swallows_after_the_write
                "20/02/2024" "09:30" dr_silva (Some ana) clinic_with_object)
      as (_ & Hbad & _).
    destruct (Hbad "{}") as [_ Hobj];
      [discriminate | reflexivity | reflexivity |].
    rewrite (Hobj (VObj [])); [reflexivity | vm_compute; reflexivity | discriminate].
  - destruct (createAppointment_throws_before_and_swallows_after_the_write
                "20/02/2024" "09:30" dr_silva (Some ana) clinic_write_rejected)
      as (_ & _ & Hwrite & _).
    apply (Hwrite (map Appointment_value sample_records) []);
      [vm_compute; reflexivity | reflexivity].
  - destruct (createAppointment_throws_before_and_swallows_after_the_write
                "20/02/2024" "09:30" dr_silva (Some ana) clinic_notice_rejected)
      as (_ & _ & _ & Hnotice).
    destruct (Hnotice (map Appointment_value sample_records) [])
      as (w' & Hrun & Hdisk & Hcon);
      [vm_compute; reflexivity | reflexivity |].
    exists w'. split; [exact Hrun|]. split; [|exact Hcon].
    rewrite Hdisk. vm_compute. reflexivity.
Defined.
